(** * ModelGate MCP examples: tool context, protocol bridge, orchestration loop

    A shallow embedding of the Python example programs
    [examples/modelgate_mcp_demo.py], [examples/modelgate_mcp_agent.py] and
    [examples/claude_mcp_bridge.py], with the properties of their tool
    context, transport error mapping and chat turn loop.

    Python values decoded from JSON are modelled by [Py.Json]; a [dict] is an
    association list in insertion order.  Network calls and [json.loads] are
    external: they are the fields of an environment [Env], and every request
    is recorded in a trace so that the requests can be counted.

    A decoded dictionary whose members the programs read is a record of
    those members.  Where a program calls a method on what the other side
    sent (the body of a response, its ["error"] and ["result"] members) the
    value may also be something that is not a dictionary ([Py.Shape]), and
    the exception Python raises on it is part of the model.  The entries of
    a tools list, of a content list and of a choices list are dictionaries
    of the expected form. *)

From Stdlib Require Import List String Ascii ZArith Bool Arith Lia.
From Stdlib Require Floats.PrimFloat.
Import ListNotations.
Open Scope string_scope.
Open Scope list_scope.
Set Warnings "-register-all".

(* ================================================================== *)
(** * Python values, dictionaries and exceptions *)

Module Py.

(** Values produced by [json.loads]: [int] and [float] numbers ([json.loads]
    also accepts [NaN] and [Infinity], which become floats). *)
Inductive Json : Type :=
| JNull
| JBool (b : bool)
| JNum (n : Z)
| JFloat (f : PrimFloat.float)
| JStr (s : string)
| JArr (items : list Json)
| JObj (members : list (string * Json)).

(** A Python [dict] with string keys; insertion order is the list order and
    a key occurs once. *)
Definition dict (V : Type) : Type := list (string * V).

Section Dict.
Context {V : Type}.

(** [d.get(k)] *)
Fixpoint get (k : string) (d : dict V) : option V :=
  match d with
  | [] => None
  | (k', v) :: rest => if k' =? k then Some v else get k rest
  end.

(** [k in d] *)
Definition mem (k : string) (d : dict V) : bool :=
  existsb (fun kv => fst kv =? k) d.

(** [d[k] = v]: an existing key keeps its position and takes the new
    value, a new key goes to the end. *)
Definition set (k : string) (v : V) (d : dict V) : dict V :=
  if mem k d
  then map (fun kv => if fst kv =? k then (k, v) else kv) d
  else d ++ [(k, v)].

(** [d.keys()] and [d.values()] *)
Definition keys (d : dict V) : list string := map fst d.
Definition values (d : dict V) : list V := map snd d.
End Dict.

(** [d.get(k, default)] *)
Definition get_default {V} (k : string) (default : V) (d : dict V) : V :=
  match get k d with
  | Some v => v
  | None => default
  end.

(** Truth value of a decoded JSON value ([if x:], [x or y]). *)
Definition truthy (j : Json) : bool :=
  match j with
  | JNull => false
  | JBool b => b
  | JNum n => negb (n =? 0)%Z
  | JFloat f => negb (PrimFloat.eqb f PrimFloat.zero)
  | JStr s => negb (s =? "")
  | JArr [] => false
  | JArr (_ :: _) => true
  | JObj [] => false
  | JObj (_ :: _) => true
  end.

(** A decoded value that is not a dictionary. *)
Inductive NonDict : Type :=
| NdNull
| NdBool (b : bool)
| NdNum (n : Z)
| NdFloat (f : PrimFloat.float)
| NdStr (s : string)
| NdList (items : list Json).

(** A decoded value on which the code calls the methods of a dictionary:
    a dictionary, read as the record [A] of its members, or something
    else. *)
Inductive Shape (A : Type) : Type :=
| Dict (a : A)
| NotDict (v : NonDict).
Arguments Dict {A} a.
Arguments NotDict {A} v.

(** [sub in s] for two strings. *)
Fixpoint contains (sub s : string) : bool :=
  String.prefix sub s
  || match s with
     | EmptyString => false
     | String _ rest => contains sub rest
     end.

(** [key in x] for [x] that is not a dictionary: a substring test on a
    string, a search for an equal item in a list, and [None], a
    [TypeError], for a value that is no container. *)
Definition has_member (key : string) (v : NonDict) : option bool :=
  match v with
  | NdStr s => Some (contains key s)
  | NdList items =>
      Some (existsb (fun item => match item with
                                 | JStr s => s =? key
                                 | _ => false
                                 end) items)
  | _ => None
  end.

(** [s.startswith(c)] for a one-character prefix. *)
Definition startswith_char (c : ascii) (s : string) : bool :=
  match s with
  | EmptyString => false
  | String c' _ => Ascii.eqb c' c
  end.

(** Characters removed by [str.strip()] (code points below 256). *)
Definition is_space (c : ascii) : bool :=
  let n := nat_of_ascii c in
  (((9 <=? n) && (n <=? 13)) || ((28 <=? n) && (n <=? 32))
   || (n =? 133) || (n =? 160))%nat.

Fixpoint lstrip (s : string) : string :=
  match s with
  | EmptyString => EmptyString
  | String c rest => if is_space c then lstrip rest else s
  end.

Fixpoint rstrip (s : string) : string :=
  match s with
  | EmptyString => EmptyString
  | String c rest =>
      match rstrip rest with
      | EmptyString => if is_space c then EmptyString else String c EmptyString
      | rest' => String c rest'
      end
  end.

(** [s.strip()] *)
Definition strip (s : string) : string := rstrip (lstrip s).

(** ["\n".join(texts)] *)
Definition newline : string := String (ascii_of_nat 10) EmptyString.

Fixpoint join (sep : string) (texts : list string) : string :=
  match texts with
  | [] => ""
  | [t] => t
  | t :: rest => (t ++ sep ++ join sep rest)%string
  end.

(** Exceptions of [requests.post] other than [ConnectionError], [Timeout]
    and their subclasses.  The first four are also [ValueError]s. *)
Inductive RequestsError : Type :=
| InvalidSchema
| MissingSchema
| InvalidURL
| InvalidHeader
| TooManyRedirects
| ChunkedEncodingError
| ContentDecodingError.

(** Exceptions raised by the modelled code and by [requests]/[json]. *)
Inductive exn : Type :=
| MCPError (code : Z) (message : string)
| ChatError (message : string)
| ConnectionError
| Timeout
| HTTPError (status : Z)
| JSONDecodeError
| RequestException (e : RequestsError)
| AttributeError
| TypeError
| ValueError
| RecursionError.

(** [isinstance(e, ValueError)]: [json.JSONDecodeError] and four exceptions
    of [requests] derive from [ValueError]. *)
Definition is_value_error (e : exn) : bool :=
  match e with
  | ValueError | JSONDecodeError => true
  | RequestException (InvalidSchema | MissingSchema | InvalidURL | InvalidHeader) =>
      true
  | _ => false
  end.

(** Result of a call that returns or raises. *)
Inductive res (A : Type) : Type :=
| Ok (a : A)
| Raise (e : exn).
Arguments Ok {A} a.
Arguments Raise {A} e.

(** Exceptions of [json.loads] other than [json.JSONDecodeError]: the
    [RecursionError] of a text nested too deeply and the [ValueError] of an
    integer literal with too many digits. *)
Inductive LoadsError : Type :=
| TooDeep
| IntegerTooLong.

Definition loads_exn (e : LoadsError) : exn :=
  match e with
  | TooDeep => RecursionError
  | IntegerTooLong => ValueError
  end.

(** What [json.loads(text)] and [response.json()] do: return the decoded
    value, raise [JSONDecodeError], or raise something else. *)
Inductive Loads (A : Type) : Type :=
| Loaded (a : A)
| NotJson
| LoadsRaises (e : LoadsError).
Arguments Loaded {A} a.
Arguments NotJson {A}.
Arguments LoadsRaises {A} e.

(** What [requests.post] does: it raises [ConnectionError] (a connect
    timeout is one), [Timeout] (a read timeout) or another exception, or it
    returns a response with a status code and a body; the body is given by
    what [response.json()] does on it. *)
Inductive HttpReply (B : Type) : Type :=
| ReplyConnectionError
| ReplyTimeout
| ReplyException (e : RequestsError)
| ReplyStatus (status : Z) (body : Loads B).
Arguments ReplyConnectionError {B}.
Arguments ReplyTimeout {B}.
Arguments ReplyException {B} e.
Arguments ReplyStatus {B} status body.

(** [response.raise_for_status()] raises [HTTPError] for 4xx and 5xx. *)
Definition raises_for_status (status : Z) : bool :=
  ((400 <=? status) && (status <? 600))%Z.

(** [response.ok] *)
Definition ok (status : Z) : bool := negb (raises_for_status status).

End Py.

Import Py.

(** [s.rstrip(c)] for a single character [c]. *)
Fixpoint rstrip_char (c : ascii) (s : string) : string :=
  match s with
  | EmptyString => EmptyString
  | String a rest =>
      match rstrip_char c rest with
      | EmptyString => if Ascii.eqb a c then EmptyString else String a EmptyString
      | rest' => String a rest'
      end
  end.

(** The endpoint the two clients and the bridge build from their base URL:
    [f"{base_url.rstrip('/')}/mcp"]. *)
Definition mcp_endpoint (base_url : string) : string :=
  (rstrip_char "/"%char base_url ++ "/mcp")%string.

(* ================================================================== *)
(** * Tool descriptors *)

(** A tool definition as the gateway's [tool_search] returns it: a JSON
    object whose ["name"] member is a string when present ([rt_name] is
    [tool.get("name")]) and whose other members are [rt_fields]. *)
Record RawTool : Type := mkRawTool {
  rt_name : option string;
  rt_fields : dict Json
}.

(** The decoded text of a [tool_search] result: [result.get("tools")]. *)
Record SearchResult : Type := mkSearchResult {
  sr_tools : option (list RawTool)
}.

(** An LLM function-calling tool
    [{"type": "function", "function": {"name", "description", "parameters"}}]
    with the optional ["input_examples"] member. *)
Record LLMTool : Type := mkLLMTool {
  fn_name : string;
  fn_description : Json;
  fn_parameters : Json;
  fn_input_examples : option Json
}.

Definition BOOTSTRAP : string := "tool_search".

(* ================================================================== *)
(** * Wire data: JSON-RPC envelopes, chat messages, the environment *)

(** The payload of a JSON-RPC call, [{"jsonrpc": "2.0", "id", "method"}]
    with ["params"] when given. *)
Record RpcRequest : Type := mkRpcRequest {
  rq_id : Z;
  rq_method : string;
  rq_params : option Json
}.

(** The ["error"] member of a response: [error.get("code")] and
    [error.get("message")]. *)
Record RpcError : Type := mkRpcError {
  err_code : option Z;
  err_message : option string
}.

(** One entry of a tool result's ["content"]: [block.get("type")] and
    [block.get("text")]. *)
Record ContentBlock : Type := mkBlock {
  blk_type : option string;
  blk_text : option string
}.

(** The ["result"] member of a response, a dictionary read through
    [result.get(...)] with these keys. *)
Record RpcResult : Type := mkRpcResult {
  r_content : option (list ContentBlock);
  r_isError : option Json;
  r_serverInfo : option Json;
  r_capabilities : option Json;
  r_tools : option (list RawTool)
}.

(** [{}] *)
Definition empty_result : RpcResult :=
  {| r_content := None; r_isError := None; r_serverInfo := None;
     r_capabilities := None; r_tools := None |}.

(** A decoded response body that is a dictionary.  [rb_error] is [Some]
    when the body has an ["error"] member that is true as a condition
    ([if "error" in result and result["error"]]): a dictionary or another
    true value.  [rb_result] is the ["result"] member when the key is
    there. *)
Record RpcBody : Type := mkRpcBody {
  rb_error : option (Shape RpcError);
  rb_result : option (Shape RpcResult)
}.

(** The exception raised on a response body that is not a dictionary by
    [if "error" in result and result["error"]] or, when that test is false,
    by [result.get("result", {})]. *)
Definition read_non_dict (v : NonDict) : exn :=
  match has_member "error" v with
  | Some false => AttributeError
  | _ => TypeError
  end.

(** A tool call of an assistant message: [tool_call["id"]],
    [tool_call["function"]["name"]], [tool_call["function"]["arguments"]]. *)
Record ToolCall : Type := mkToolCall {
  tc_id : string;
  tc_name : string;
  tc_arguments : string
}.

(** The entries of the [messages] list.  The content of an assistant
    message is [None] for Python's [None]; [tool_calls] is [None] when the
    dictionary has no such key. *)
Inductive Message : Type :=
| MsgSystem (content : string)
| MsgUser (content : string)
| MsgAssistant (content : option string) (tool_calls : option (list ToolCall))
| MsgTool (tool_call_id : string) (name : string) (content : string).

(** [choice["message"]]: [cm_content] is [None] without a ["content"] key
    and [Some None] for [null]; [cm_tool_calls] is [None] without the key
    or for [null]. *)
Record ChatMessage : Type := mkChatMessage {
  cm_content : option (option string);
  cm_tool_calls : option (list ToolCall)
}.

Record Choice : Type := mkChoice {
  ch_message : ChatMessage
}.

(** The ["error"] member of a chat error body. *)
Record ChatErrorObj : Type := mkChatErrorObj {
  ce_message : option string;
  ce_type : option string
}.

(** A decoded body of the chat endpoint that is a dictionary: [cb_error]
    is the ["error"] member when the key is present, a dictionary or
    something else; [cb_choices] is [response.get("choices")]. *)
Record ChatBody : Type := mkChatBody {
  cb_error : option (Shape ChatErrorObj);
  cb_choices : option (list Choice)
}.

(** The payload of a chat completion request (the temperature is the
    constant default). *)
Record ChatPayload : Type := mkChatPayload {
  cp_model : string;
  cp_messages : list Message;
  cp_tools : option (list LLMTool)
}.

(** What lies outside the programs: the HTTP endpoints, [json.loads] and
    Python's [str()] of a few values.  [World] is the state of the outside
    world, threaded through every request. *)
Record Env : Type := mkEnv {
  World : Type;
  (** [requests.post(self.endpoint, json=payload, ...)] of the MCP clients *)
  mcp_post : World -> RpcRequest -> World * HttpReply (Shape RpcBody);
  (** [self.session.post(".../v1/chat/completions", json=payload, ...)] *)
  chat_post : World -> ChatPayload -> World * HttpReply (Shape ChatBody);
  (** [self.session.post(self.endpoint, json=request, ...)] of the bridge *)
  bridge_post : World -> Json -> World * HttpReply Json;
  (** [json.loads(text)] *)
  json_loads : string -> Loads Json;
  (** [json.loads] on the text of a search result, a dictionary whose
      ["tools"] are dictionaries; [None] is [json.JSONDecodeError] *)
  json_loads_search : string -> option SearchResult;
  (** the text between the braces of [str(result)] *)
  repr_members : RpcResult -> string;
  (** [str(error_data["error"])] *)
  str_error : ChatErrorObj -> string;
  (** [str(e)] of a [requests.exceptions.HTTPError] *)
  str_http_error : Z -> string
}.

(** Requests sent so far, oldest first. *)
Inductive Event : Type :=
| EvMcp (payload : RpcRequest)
| EvChat (payload : ChatPayload)
| EvBridge (request : Json).

(** The outside world together with the record of the requests sent. *)
Record IO (E : Env) : Type := mkIO {
  world : World E;
  trace : list Event
}.
Arguments mkIO {E} world trace.
Arguments world {E} i.
Arguments trace {E} i.

Definition post_mcp {E : Env} (io : IO E) (payload : RpcRequest)
  : IO E * HttpReply (Shape RpcBody) :=
  let (w, reply) := mcp_post E (world io) payload in
  ({| world := w; trace := trace io ++ [EvMcp payload] |}, reply).

Definition post_chat {E : Env} (io : IO E) (payload : ChatPayload)
  : IO E * HttpReply (Shape ChatBody) :=
  let (w, reply) := chat_post E (world io) payload in
  ({| world := w; trace := trace io ++ [EvChat payload] |}, reply).

Definition post_bridge {E : Env} (io : IO E) (request : Json)
  : IO E * HttpReply Json :=
  let (w, reply) := bridge_post E (world io) request in
  ({| world := w; trace := trace io ++ [EvBridge request] |}, reply).

(** [params] goes into the payload when it is true as a condition. *)
Definition payload_params (params : option Json) : option Json :=
  match params with
  | Some p => if truthy p then Some p else None
  | None => None
  end.

(** [x.get(k, default)] for a typed member. *)
Definition or_default {A} (default : A) (x : option A) : A :=
  match x with
  | Some a => a
  | None => default
  end.

(* ================================================================== *)
(** * modelgate_mcp_demo.py: DynamicToolContext *)

Module Demo.

(** [self.tool_search_spec], set once in [__init__] and never assigned
    again. *)
Definition tool_search_spec : LLMTool :=
  {| fn_name := "tool_search";
     fn_description := JStr "Search for available tools by natural language query. Returns tool specifications that will be added to your available tools. Use this FIRST when you need to perform an action you haven't used before.";
     fn_parameters :=
       JObj [("type", JStr "object");
             ("properties",
              JObj [("query",
                     JObj [("type", JStr "string");
                           ("description", JStr "Natural language description of the capability you're looking for (e.g., 'calculate math expressions', 'read files', 'get weather')")]);
                    ("category",
                     JObj [("type", JStr "string");
                           ("description", JStr "Optional category filter: messaging, file-system, database, api, git, calendar, shell, search, other")]);
                    ("max_results",
                     JObj [("type", JStr "integer");
                           ("description", JStr "Maximum number of tools to return (default: 5)");
                           ("default", JNum 5)])]);
             ("required", JArr [JStr "query"])];
     fn_input_examples := None |}.

(** The mutable part of a [DynamicToolContext]: [self.discovered_tools]. *)
Record DynamicToolContext : Type := mkCtx {
  discovered_tools : dict LLMTool
}.

(** [DynamicToolContext()] *)
Definition init : DynamicToolContext := {| discovered_tools := [] |}.

(** [get_tools_for_llm] *)
Definition get_tools_for_llm (ctx : DynamicToolContext) : list LLMTool :=
  tool_search_spec :: values (discovered_tools ctx).

(** The dictionary built for a new tool (lines 125-135). *)
Definition to_llm_format (name : string) (tool : RawTool) : LLMTool :=
  {| fn_name := name;
     fn_description := get_default "description" (JStr "") (rt_fields tool);
     fn_parameters :=
       get_default "inputSchema"
         (JObj [("type", JStr "object"); ("properties", JObj [])])
         (rt_fields tool);
     fn_input_examples := get "inputExamples" (rt_fields tool) |}.

(** The [for tool in tools] loop of [add_tools_from_search]; the second
    component is [added]. *)
Fixpoint add_tools (tools : list RawTool) (discovered : dict LLMTool)
         (added : list string) : dict LLMTool * list string :=
  match tools with
  | [] => (discovered, added)
  | tool :: rest =>
      match rt_name tool with
      | Some name =>
          if negb (name =? "") && negb (mem name discovered)
          then add_tools rest (discovered ++ [(name, to_llm_format name tool)])
                         (added ++ [name])
          else add_tools rest discovered added
      | None => add_tools rest discovered added
      end
  end.

(** [add_tools_from_search] *)
Definition add_tools_from_search (E : Env) (ctx : DynamicToolContext)
           (search_result_text : string) : DynamicToolContext * list string :=
  match json_loads_search E search_result_text with
  | Some result =>
      let tools := or_default [] (sr_tools result) in
      let '(d, added) := add_tools tools (discovered_tools ctx) [] in
      ({| discovered_tools := d |}, added)
  | None => (ctx, [])
  end.

(** [is_known_tool] *)
Definition is_known_tool (ctx : DynamicToolContext) (name : string) : bool :=
  (name =? "tool_search") || mem name (discovered_tools ctx).

(** [clear] *)
Definition clear (ctx : DynamicToolContext) : DynamicToolContext :=
  {| discovered_tools := [] |}.

(** The number printed by [get_stats]. *)
Definition total (ctx : DynamicToolContext) : nat :=
  1 + List.length (discovered_tools ctx).

(** ** ModelGateMCPClient *)

Record MCPClient : Type := mkMCPClient {
  endpoint : string;
  request_id : Z;
  initialized : bool;
  server_info : option Json
}.

(** [ModelGateMCPClient(base_url, api_key)] with [endpoint = base_url + "/mcp"] *)
Definition new_client (endpoint : string) : MCPClient :=
  {| endpoint := endpoint; request_id := 0; initialized := false;
     server_info := None |}.

(** [_next_id] *)
Definition _next_id (c : MCPClient) : MCPClient * Z :=
  let id := (request_id c + 1)%Z in
  ({| endpoint := endpoint c; request_id := id;
      initialized := initialized c; server_info := server_info c |}, id).

(** [_request]: the [try] block with its two [except] clauses.  An
    [HTTPError] of [raise_for_status], a body that [response.json()] cannot
    decode, a body or an error member that is not a dictionary and the
    other exceptions of [requests.post] are not caught here.  The value
    returned is [result.get("result", {})], whatever it is. *)
Definition _request {E : Env} (method : string) (params : option Json)
           (c : MCPClient) (io : IO E)
  : MCPClient * IO E * res (Shape RpcResult) :=
  let (c, id) := _next_id c in
  let payload :=
    {| rq_id := id; rq_method := method; rq_params := payload_params params |} in
  let (io, reply) := post_mcp io payload in
  match reply with
  | ReplyConnectionError =>
      (c, io, Raise (MCPError (-1)
                 ("Cannot connect to MCP Gateway at " ++ endpoint c)%string))
  | ReplyTimeout =>
      (c, io, Raise (MCPError (-1) "MCP Gateway request timed out"))
  | ReplyException e => (c, io, Raise (RequestException e))
  | ReplyStatus status body =>
      if (status =? 401)%Z then
        (c, io, Raise (MCPError (-32001)
                   "MCP Gateway authentication failed - check your API key"))
      else if (status =? 404)%Z then
        (c, io, Raise (MCPError (-32002)
                   "MCP Gateway not available - ensure ModelGate is running"))
      else if raises_for_status status then (c, io, Raise (HTTPError status))
      else
        match body with
        | NotJson => (c, io, Raise JSONDecodeError)
        | LoadsRaises e => (c, io, Raise (loads_exn e))
        | Loaded (NotDict v) => (c, io, Raise (read_non_dict v))
        | Loaded (Dict result) =>
            match rb_error result with
            | Some (Dict error) =>
                (c, io, Raise (MCPError (or_default (-1)%Z (err_code error))
                           (or_default "Unknown error" (err_message error))))
            | Some (NotDict _) => (c, io, Raise AttributeError)
            | None =>
                (c, io, Ok (or_default (Dict empty_result) (rb_result result)))
            end
        end
  end.

Definition initialize_params : Json :=
  JObj [("protocolVersion", JStr "2024-11-05");
        ("capabilities", JObj [("tools", JObj [])]);
        ("clientInfo", JObj [("name", JStr "ModelGate-MCP-Chat");
                             ("version", JStr "1.0.0")])].

(** [initialize]: [self.initialized = True] comes before
    [result.get("serverInfo", {})], which raises [AttributeError] when the
    result is not a dictionary. *)
Definition initialize {E : Env} (c : MCPClient) (io : IO E)
  : MCPClient * IO E * res RpcResult :=
  match _request "initialize" (Some initialize_params) c io with
  | (c, io, Ok (Dict result)) =>
      ({| endpoint := endpoint c; request_id := request_id c;
          initialized := true;
          server_info := Some (or_default (JObj []) (r_serverInfo result)) |},
       io, Ok result)
  | (c, io, Ok (NotDict _)) =>
      ({| endpoint := endpoint c; request_id := request_id c;
          initialized := true; server_info := server_info c |},
       io, Raise AttributeError)
  | (c, io, Raise e) => (c, io, Raise e)
  end.

(** [call_tool]: there is no check of the tool name here. *)
Definition call_tool {E : Env} (name : string) (arguments : Json)
           (c : MCPClient) (io : IO E)
  : MCPClient * IO E * res (Shape RpcResult) :=
  let params :=
    JObj [("name", JStr name);
          ("arguments", if truthy arguments then arguments else JObj [])] in
  if initialized c then _request "tools/call" (Some params) c io
  else
    match initialize c io with
    | (c, io, Ok _) => _request "tools/call" (Some params) c io
    | (c, io, Raise e) => (c, io, Raise e)
    end.

(** ** ModelGateLLMClient.chat *)

(** [chat].  The request is outside any [try].  For a response that is
    not [ok], [response.json()] and the reading of the ["error"] member are
    under [except (ValueError, KeyError)]: a body that does not decode
    ([JSONDecodeError] is a [ValueError]) or has no such member leads to the
    [HTTPError] of [raise_for_status]; an error member that is a dictionary
    raises [ChatError]; one that is not raises the [AttributeError] of
    [.get], and a body that is not a dictionary the [TypeError] of the
    [in] test or of the subscript, neither of which is caught.  For an [ok]
    response the decoded body is returned, whatever it is. *)
Definition chat {E : Env} (model : string) (messages : list Message)
           (tools : list LLMTool) (io : IO E) : IO E * res (Shape ChatBody) :=
  let payload :=
    {| cp_model := model; cp_messages := messages;
       cp_tools := match tools with [] => None | _ => Some tools end |} in
  let (io, reply) := post_chat io payload in
  match reply with
  | ReplyConnectionError => (io, Raise ConnectionError)
  | ReplyTimeout => (io, Raise Timeout)
  | ReplyException e => (io, Raise (RequestException e))
  | ReplyStatus status body =>
      if negb (ok status) then
        match body with
        | Loaded (Dict error_data) =>
            match cb_error error_data with
            | Some (Dict error) =>
                let error_msg :=
                  or_default (str_error E error) (ce_message error) in
                let error_type := or_default "unknown_error" (ce_type error) in
                (io, Raise (ChatError
                        ("[" ++ error_type ++ "] " ++ error_msg)%string))
            | Some (NotDict _) => (io, Raise AttributeError)
            | None => (io, Raise (HTTPError status))
            end
        | Loaded (NotDict v) =>
            match has_member "error" v with
            | Some false => (io, Raise (HTTPError status))
            | _ => (io, Raise TypeError)
            end
        | NotJson => (io, Raise (HTTPError status))
        | LoadsRaises e =>
            if is_value_error (loads_exn e)
            then (io, Raise (HTTPError status))
            else (io, Raise (loads_exn e))
        end
      else
        match body with
        | Loaded response => (io, Ok response)
        | NotJson => (io, Raise JSONDecodeError)
        | LoadsRaises e => (io, Raise (loads_exn e))
        end
  end.

(** ** extract_tool_result *)

(** [str(result)] of a dictionary. *)
Definition str_result (E : Env) (result : RpcResult) : string :=
  ("{" ++ repr_members E result ++ "}")%string.

(** The [for block in content] loop, [texts] being the list built so far. *)
Fixpoint collect_texts (content : list ContentBlock) (texts : list string)
  : list string :=
  match content with
  | [] => texts
  | block :: rest =>
      match blk_type block with
      | Some ty =>
          if ty =? "text"
          then collect_texts rest (texts ++ [or_default "" (blk_text block)])
          else collect_texts rest texts
      | None => collect_texts rest texts
      end
  end.

Definition extract_tool_result (E : Env) (result : RpcResult) : string :=
  let content := or_default [] (r_content result) in
  let texts := collect_texts content [] in
  match texts with
  | [] => str_result E result
  | _ => join newline texts
  end.

(** ** run_chat_session: one user turn (lines 443-540) *)

Record Session (E : Env) : Type := mkSession {
  messages : list Message;
  tool_context : DynamicToolContext;
  mcp_client : MCPClient;
  io : IO E
}.
Arguments mkSession {E} messages tool_context mcp_client io.
Arguments messages {E} s.
Arguments tool_context {E} s.
Arguments mcp_client {E} s.
Arguments io {E} s.

(** How a turn ends: the model answered in plain text, the response had no
    choices, a [ChatError] rolled the turn back, the [while] condition
    became false, or an exception other than those handled inside the turn
    reached the handler of the session loop. *)
Inductive Outcome : Type :=
| Answered
| NoResponse
| RolledBack
| CeilingReached
| Aborted (e : exn).

Definition max_iterations : nat := 10.

Definition append_message {E : Env} (s : Session E) (m : Message) : Session E :=
  {| messages := messages s ++ [m]; tool_context := tool_context s;
     mcp_client := mcp_client s; io := io s |}.

(** [json.loads(tool_call["function"]["arguments"])] under
    [except json.JSONDecodeError]: the decoded arguments, [{}] for a text
    that does not decode, or another exception of [json.loads]. *)
Definition tool_arguments (E : Env) (tool_call : ToolCall) : res Json :=
  match json_loads E (tc_arguments tool_call) with
  | Loaded args => Ok args
  | NotJson => Ok (JObj [])
  | LoadsRaises e => Raise (loads_exn e)
  end.

(** The [for tool_call in tool_calls] loop.  An [MCPError] becomes a tool
    message; any other exception leaves the loop and the turn: one of
    [json.loads], one that [call_tool] lets through, or the
    [AttributeError] of [extract_tool_result] on a result that is not a
    dictionary. *)
Fixpoint execute_tools {E : Env} (tool_calls : list ToolCall) (s : Session E)
  : Session E * option exn :=
  match tool_calls with
  | [] => (s, None)
  | tool_call :: rest =>
      let tool_name := tc_name tool_call in
      match tool_arguments E tool_call with
      | Raise e => (s, Some e)
      | Ok tool_args =>
          match call_tool tool_name tool_args (mcp_client s) (io s) with
          | (c, io', Ok (Dict result)) =>
              let result_text := extract_tool_result E result in
              let ctx :=
                if tool_name =? "tool_search"
                then fst (add_tools_from_search E (tool_context s) result_text)
                else tool_context s in
              execute_tools rest
                {| messages :=
                     messages s
                     ++ [MsgTool (tc_id tool_call) tool_name result_text];
                   tool_context := ctx; mcp_client := c; io := io' |}
          | (c, io', Ok (NotDict _)) =>
              ({| messages := messages s; tool_context := tool_context s;
                  mcp_client := c; io := io' |}, Some AttributeError)
          | (c, io', Raise (MCPError code message)) =>
              let error_msg := ("Tool error: " ++ message)%string in
              execute_tools rest
                {| messages :=
                     messages s
                     ++ [MsgTool (tc_id tool_call) tool_name error_msg];
                   tool_context := tool_context s; mcp_client := c; io := io' |}
          | (c, io', Raise e) =>
              ({| messages := messages s; tool_context := tool_context s;
                  mcp_client := c; io := io' |}, Some e)
          end
      end
  end.

(** The [while iteration < max_iterations] loop; [remaining] is
    [max_iterations - iteration]. *)
Fixpoint turn_loop {E : Env} (model : string) (remaining : nat)
         (messages_before_turn : nat) (s : Session E) : Session E * Outcome :=
  match remaining with
  | O => (s, CeilingReached)
  | S remaining' =>
      let current_tools := get_tools_for_llm (tool_context s) in
      let (io', r) := chat model (messages s) current_tools (io s) in
      let s := {| messages := messages s; tool_context := tool_context s;
                  mcp_client := mcp_client s; io := io' |} in
      match r with
      | Raise (ChatError _) =>
          ({| messages := firstn messages_before_turn (messages s);
              tool_context := tool_context s; mcp_client := mcp_client s;
              io := io s |}, RolledBack)
      | Raise e => (s, Aborted e)
      | Ok (NotDict _) => (s, Aborted AttributeError)
      | Ok (Dict response) =>
          match cb_choices response with
          | None | Some [] => (s, NoResponse)
          | Some (choice :: _) =>
              let message := ch_message choice in
              match cm_tool_calls message with
              | None | Some [] =>
                  let content := or_default (Some "") (cm_content message) in
                  (append_message s (MsgAssistant content None), Answered)
              | Some tool_calls =>
                  let s :=
                    append_message s
                      (MsgAssistant (or_default None (cm_content message))
                                    (Some tool_calls)) in
                  match execute_tools tool_calls s with
                  | (s, None) => turn_loop model remaining' messages_before_turn s
                  | (s, Some e) => (s, Aborted e)
                  end
              end
          end
      end
  end.

(** A turn: remember the length of the log, append the user message, run
    the loop. *)
Definition run_turn {E : Env} (model : string) (user_input : string)
           (s : Session E) : Session E * Outcome :=
  let messages_before_turn := List.length (messages s) in
  let s := append_message s (MsgUser user_input) in
  turn_loop model max_iterations messages_before_turn s.

(** The [clear] command of the session. *)
Definition clear_session {E : Env} (system_message : Message) (s : Session E)
  : Session E :=
  {| messages := [system_message]; tool_context := clear (tool_context s);
     mcp_client := mcp_client s; io := io s |}.

(** [list_tools] *)
Definition list_tools {E : Env} (c : MCPClient) (io : IO E)
  : MCPClient * IO E * res (list RawTool) :=
  let listing (c : MCPClient) (io : IO E) :=
    match _request "tools/list" None c io with
    | (c, io, Ok (Dict result)) => (c, io, Ok (or_default [] (r_tools result)))
    | (c, io, Ok (NotDict _)) => (c, io, Raise AttributeError)
    | (c, io, Raise e) => (c, io, Raise e)
    end in
  if initialized c then listing c io
  else
    match initialize c io with
    | (c, io, Ok _) => listing c io
    | (c, io, Raise e) => (c, io, Raise e)
    end.

End Demo.

(* ================================================================== *)
(** * modelgate_mcp_agent.py: the agent's tool context *)

Module Agent.

(** [self.tool_search_definition] *)
Definition tool_search_definition : RawTool :=
  {| rt_name := Some "tool_search";
     rt_fields :=
       [("description", JStr "Search for tools by natural language query. Returns tool definitions that can be added to context.");
        ("inputSchema",
         JObj [("type", JStr "object");
               ("properties",
                JObj [("query",
                       JObj [("type", JStr "string");
                             ("description", JStr "Natural language description of the capability you're looking for")]);
                      ("category",
                       JObj [("type", JStr "string");
                             ("description", JStr "Optional category filter (messaging, file-system, database, api, git, calendar, shell, search, other)")]);
                      ("max_results",
                       JObj [("type", JStr "integer");
                             ("description", JStr "Maximum number of tools to return (default: 5)");
                             ("default", JNum 5)])]);
               ("required", JArr [JStr "query"])])] |}.

(** The fields of a [ModelGateMCPAgent] that change. *)
Record State : Type := mkState {
  request_id : Z;
  initialized : bool;
  server_info : option Json;
  capabilities : option Json;
  discovered_tools : dict RawTool
}.

(** [ModelGateMCPAgent(...)] *)
Definition init : State :=
  {| request_id := 0; initialized := false; server_info := None;
     capabilities := None; discovered_tools := [] |}.

Definition with_discovered (st : State) (d : dict RawTool) : State :=
  {| request_id := request_id st; initialized := initialized st;
     server_info := server_info st; capabilities := capabilities st;
     discovered_tools := d |}.

(** [get_context_tools] *)
Definition get_context_tools (st : State) : list RawTool :=
  tool_search_definition :: values (discovered_tools st).

(** [{k: v for k, v in tool.items() if not k.startswith("_")}]; the key
    ["name"] does not start with an underscore and is kept. *)
Definition clean_tool (tool : RawTool) : RawTool :=
  {| rt_name := rt_name tool;
     rt_fields :=
       filter (fun kv => negb (startswith_char "_"%char (fst kv)))
              (rt_fields tool) |}.

(** The loop of [search_tools] that adds the discovered tools
    (lines 223-228). *)
Fixpoint add_to_context (tools : list RawTool) (discovered : dict RawTool)
  : dict RawTool :=
  match tools with
  | [] => discovered
  | tool :: rest =>
      match rt_name tool with
      | Some tool_name =>
          if negb (tool_name =? "")
          then add_to_context rest (set tool_name (clean_tool tool) discovered)
          else add_to_context rest discovered
      | None => add_to_context rest discovered
      end
  end.

(** [clear_context] *)
Definition clear_context (st : State) : State := with_discovered st [].

(** ** Requests *)

(** [_next_id] *)
Definition _next_id (st : State) : State * Z :=
  let id := (request_id st + 1)%Z in
  ({| request_id := id; initialized := initialized st;
      server_info := server_info st; capabilities := capabilities st;
      discovered_tools := discovered_tools st |}, id).

(** [_send_request]: connection errors, timeouts and the [HTTPError] of
    [raise_for_status] all become [MCPError] with code -1; the other
    exceptions of [requests.post], a body that does not decode and a body
    or an error member that is not a dictionary are not caught.  The value
    returned is [result.get("result", {})], whatever it is. *)
Definition _send_request {E : Env} (endpoint : string) (method : string)
           (params : option Json) (st : State) (io : IO E)
  : State * IO E * res (Shape RpcResult) :=
  let (st, id) := _next_id st in
  let payload :=
    {| rq_id := id; rq_method := method; rq_params := payload_params params |} in
  let (io, reply) := post_mcp io payload in
  match reply with
  | ReplyConnectionError =>
      (st, io, Raise (MCPError (-1) ("Failed to connect to " ++ endpoint)%string))
  | ReplyTimeout => (st, io, Raise (MCPError (-1) "Request timed out"))
  | ReplyException e => (st, io, Raise (RequestException e))
  | ReplyStatus status body =>
      if raises_for_status status then
        (st, io, Raise (MCPError (-1)
                    ("HTTP error: " ++ str_http_error E status)%string))
      else
        match body with
        | NotJson => (st, io, Raise JSONDecodeError)
        | LoadsRaises e => (st, io, Raise (loads_exn e))
        | Loaded (NotDict v) => (st, io, Raise (read_non_dict v))
        | Loaded (Dict result) =>
            match rb_error result with
            | Some (Dict error) =>
                (st, io, Raise (MCPError (or_default (-1)%Z (err_code error))
                            (or_default "Unknown error" (err_message error))))
            | Some (NotDict _) => (st, io, Raise AttributeError)
            | None =>
                (st, io, Ok (or_default (Dict empty_result) (rb_result result)))
            end
        end
  end.

(** [initialize]: [self.initialized = True] comes before
    [result.get("serverInfo", {})], which raises [AttributeError] when the
    result is not a dictionary. *)
Definition initialize {E : Env} (endpoint : string) (client_name : string)
           (client_version : string) (st : State) (io : IO E)
  : State * IO E * res RpcResult :=
  let params :=
    JObj [("protocolVersion", JStr "2024-11-05");
          ("capabilities", JObj [("tools", JObj [])]);
          ("clientInfo", JObj [("name", JStr client_name);
                               ("version", JStr client_version)])] in
  match _send_request endpoint "initialize" (Some params) st io with
  | (st, io, Ok (Dict result)) =>
      ({| request_id := request_id st; initialized := true;
          server_info := Some (or_default (JObj []) (r_serverInfo result));
          capabilities := Some (or_default (JObj []) (r_capabilities result));
          discovered_tools := discovered_tools st |}, io, Ok result)
  | (st, io, Ok (NotDict _)) =>
      ({| request_id := request_id st; initialized := true;
          server_info := server_info st; capabilities := capabilities st;
          discovered_tools := discovered_tools st |}, io, Raise AttributeError)
  | (st, io, Raise e) => (st, io, Raise e)
  end.

(** The [for block in content] loop of [search_tools]: [tools] is replaced
    by the tools of every text block that decodes. *)
Fixpoint parse_blocks (E : Env) (content : list ContentBlock)
         (tools : list RawTool) : list RawTool :=
  match content with
  | [] => tools
  | block :: rest =>
      match blk_type block with
      | Some ty =>
          if ty =? "text" then
            match json_loads_search E (or_default "{}" (blk_text block)) with
            | Some search_result =>
                parse_blocks E rest (or_default [] (sr_tools search_result))
            | None => parse_blocks E rest tools
            end
          else parse_blocks E rest tools
      | None => parse_blocks E rest tools
      end
  end.

(** [search_tools].  [result.get("content", [])] raises [AttributeError]
    on a result that is not a dictionary, before anything is added. *)
Definition search_tools {E : Env} (endpoint : string) (query : string)
           (category : option string) (max_results : Z) (add_context : bool)
           (st : State) (io : IO E) : State * IO E * res (list RawTool) :=
  if negb (initialized st) then
    (st, io, Raise (MCPError (-1) "Must call initialize() first"))
  else
    let args :=
      [("query", JStr query); ("max_results", JNum max_results)]
      ++ match category with
         | Some c => if c =? "" then [] else [("category", JStr c)]
         | None => []
         end in
    let params :=
      JObj [("name", JStr "tool_search"); ("arguments", JObj args)] in
    match _send_request endpoint "tools/call" (Some params) st io with
    | (st, io, Ok (NotDict _)) => (st, io, Raise AttributeError)
    | (st, io, Ok (Dict result)) =>
        let content := or_default [] (r_content result) in
        let tools := parse_blocks E content [] in
        let st :=
          if add_context
          then match tools with
               | [] => st
               | _ => with_discovered st
                        (add_to_context tools (discovered_tools st))
               end
          else st in
        (st, io, Ok tools)
    | (st, io, Raise e) => (st, io, Raise e)
    end.

(** [call_tool] *)
Definition call_tool {E : Env} (endpoint : string) (name : string)
           (arguments : Json) (st : State) (io : IO E)
  : State * IO E * res (Shape RpcResult) :=
  if negb (initialized st) then
    (st, io, Raise (MCPError (-1) "Must call initialize() first"))
  else if negb (name =? "tool_search") && negb (mem name (discovered_tools st))
  then
    (st, io, Raise (MCPError (-1)
                ("Tool '" ++ name
                 ++ "' not in context. Use search_tools() to discover it first.")%string))
  else
    let params :=
      JObj [("name", JStr name);
            ("arguments", if truthy arguments then arguments else JObj [])] in
    _send_request endpoint "tools/call" (Some params) st io.

(** The dictionary [get_context_tools_for_llm] builds for one tool; [None]
    is the [KeyError] of [tool["name"]]. *)
Definition llm_tool (tool : RawTool) : option LLMTool :=
  match rt_name tool with
  | Some name =>
      Some {| fn_name := name;
              fn_description := get_default "description" (JStr "") (rt_fields tool);
              fn_parameters :=
                get_default "inputSchema"
                  (JObj [("type", JStr "object"); ("properties", JObj [])])
                  (rt_fields tool);
              fn_input_examples := get "inputExamples" (rt_fields tool) |}
  | None => None
  end.

(** The loop of [get_context_tools_for_llm], [llm_tools] being the list
    built so far. *)
Fixpoint llm_tools_loop (tools : list RawTool) (llm_tools : list LLMTool)
  : option (list LLMTool) :=
  match tools with
  | [] => Some llm_tools
  | tool :: rest =>
      match llm_tool tool with
      | Some t => llm_tools_loop rest (llm_tools ++ [t])
      | None => None
      end
  end.

(** [get_context_tools_for_llm] *)
Definition get_context_tools_for_llm (st : State) : option (list LLMTool) :=
  llm_tools_loop (get_context_tools st) [].

(** [list_all_tools] *)
Definition list_all_tools {E : Env} (endpoint : string) (st : State)
           (io : IO E) : State * IO E * res (list RawTool) :=
  if negb (initialized st) then
    (st, io, Raise (MCPError (-1) "Must call initialize() first"))
  else
    match _send_request endpoint "tools/list" None st io with
    | (st, io, Ok (Dict result)) =>
        (st, io, Ok (or_default [] (r_tools result)))
    | (st, io, Ok (NotDict _)) => (st, io, Raise AttributeError)
    | (st, io, Raise e) => (st, io, Raise e)
    end.

(** [ping]: only [MCPError] is caught; what [_send_request] returns is not
    looked at. *)
Definition ping {E : Env} (endpoint : string) (st : State) (io : IO E)
  : State * IO E * res bool :=
  match _send_request endpoint "ping" None st io with
  | (st, io, Ok _) => (st, io, Ok true)
  | (st, io, Raise (MCPError _ _)) => (st, io, Ok false)
  | (st, io, Raise e) => (st, io, Raise e)
  end.

End Agent.

(* ================================================================== *)
(** * claude_mcp_bridge.py: MCPBridge *)

Module Bridge.

(** [_error_response] *)
Definition _error_response (request_id : Json) (code : Z) (message : string)
  : Json :=
  JObj [("jsonrpc", JStr "2.0");
        ("id", request_id);
        ("error", JObj [("code", JNum code); ("message", JStr message)])].

(** [request.get("id")]: [None] when the key is missing. *)
Definition request_get_id (request : dict Json) : Json :=
  or_default JNull (get "id" request).

(** [forward_request].  The debug message reads [request.get('method')]
    first, which raises [AttributeError] when the decoded line is not an
    object; the rest is the [try] block with its four [except] clauses,
    which let the other exceptions of [requests.post] and of
    [response.json()] through. *)
Definition forward_request {E : Env} (endpoint : string) (request : Json)
           (io : IO E) : IO E * res Json :=
  match request with
  | JObj members =>
      let (io, reply) := post_bridge io request in
      let id := request_get_id members in
      match reply with
      | ReplyConnectionError =>
          (io, Ok (_error_response id (-32003)
                     ("Failed to connect to ModelGate at " ++ endpoint)%string))
      | ReplyTimeout =>
          (io, Ok (_error_response id (-32004) "Request timed out"))
      | ReplyException e => (io, Raise (RequestException e))
      | ReplyStatus status body =>
          if (status =? 401)%Z then
            (io, Ok (_error_response id (-32001)
                       "Authentication failed. Check your API key."))
          else if (status =? 404)%Z then
            (io, Ok (_error_response id (-32002)
                       "MCP endpoint not found. Ensure ModelGate is running."))
          else if raises_for_status status then
            (io, Ok (_error_response id (-32005)
                       ("HTTP error: " ++ str_http_error E status)%string))
          else
            match body with
            | Loaded response => (io, Ok response)
            | NotJson =>
                (io, Ok (_error_response id (-32006)
                           "Invalid JSON response from server"))
            | LoadsRaises e => (io, Raise (loads_exn e))
            end
      end
  | _ => (io, Raise AttributeError)
  end.

(** [run]: the loop over the lines of standard input.  [out] is what has
    been printed on standard output, one response per line; the third
    component is the exception that ended the loop, if any: only the
    [JSONDecodeError] of [json.loads] is caught. *)
Fixpoint run {E : Env} (endpoint : string) (lines : list string) (io : IO E)
         (out : list Json) : IO E * list Json * option exn :=
  match lines with
  | [] => (io, out, None)
  | line :: rest =>
      let line := strip line in
      if line =? "" then run endpoint rest io out
      else
        match json_loads E line with
        | NotJson =>
            let response := _error_response JNull (-32700) "Parse error" in
            run endpoint rest io (out ++ [response])
        | LoadsRaises e => (io, out, Some (loads_exn e))
        | Loaded request =>
            match forward_request endpoint request io with
            | (io, Ok response) => run endpoint rest io (out ++ [response])
            | (io, Raise e) => (io, out, Some e)
            end
        end
  end.

(** [MCPBridge.__init__]: the two environment variables give the endpoint;
    [None] is the [ValueError] raised when the API key is missing or
    empty. *)
Definition new_bridge (modelgate_url modelgate_api_key : option string)
  : option string :=
  let base_url := or_default "http://localhost:8080" modelgate_url in
  let api_key := or_default "" modelgate_api_key in
  if api_key =? "" then None else Some (mcp_endpoint base_url).

(** How [main] ends: it returns, or calls [sys.exit]. *)
Inductive Exit : Type :=
| Returned
| Exited (code : Z).

(** [main]: what is printed on standard output and how the program ends.
    [str_exception] is [str(e)] of the exception that left [run].  The
    clause [except ValueError] comes first: it takes the [ValueError] of
    [__init__] and every exception of [run] that is a [ValueError]; the
    clause [except Exception] takes the others. *)
Definition main {E : Env} (str_exception : exn -> string)
           (modelgate_url modelgate_api_key : option string)
           (lines : list string) (io : IO E) : IO E * list Json * Exit :=
  match new_bridge modelgate_url modelgate_api_key with
  | None =>
      (io,
       [JObj [("jsonrpc", JStr "2.0");
              ("id", JNull);
              ("error",
               JObj [("code", JNum (-32000));
                     ("message",
                      JStr "MODELGATE_API_KEY environment variable is required")])]],
       Exited 1)
  | Some endpoint =>
      match run endpoint lines io [] with
      | (io, out, None) => (io, out, Returned)
      | (io, out, Some e) =>
          if is_value_error e then
            (io,
             out ++ [JObj [("jsonrpc", JStr "2.0");
                           ("id", JNull);
                           ("error",
                            JObj [("code", JNum (-32000));
                                  ("message", JStr (str_exception e))])]],
             Exited 1)
          else
            (io,
             out ++ [JObj [("jsonrpc", JStr "2.0");
                           ("id", JNull);
                           ("error",
                            JObj [("code", JNum (-32603));
                                  ("message",
                                   JStr ("Internal error: " ++ str_exception e)%string)])]],
             Exited 1)
      end
  end.

End Bridge.

(* ================================================================== *)
(** * Vocabulary of the properties *)

(** Number of descriptors with a given name in a tool list. *)
Definition count_named (name : string) (tools : list LLMTool) : nat :=
  List.length (filter (fun t => fn_name t =? name) tools).

Definition has_name (name : string) (tool : RawTool) : bool :=
  match rt_name tool with
  | Some n => n =? name
  | None => false
  end.

Definition count_named_raw (name : string) (tools : list RawTool) : nat :=
  List.length (filter (has_name name) tools).

(** A decoded search result without an entry named like the bootstrap
    tool. *)
Definition no_bootstrap_entry (tools : list RawTool) : Prop :=
  Forall (fun tool => rt_name tool <> Some BOOTSTRAP) tools.


(** Operations on the demo's tool context. *)
Inductive CtxOp : Type :=
| OpSearch (search_result_text : string)
| OpClear.

Definition apply_op (E : Env) (ctx : Demo.DynamicToolContext) (op : CtxOp)
  : Demo.DynamicToolContext :=
  match op with
  | OpSearch text => fst (Demo.add_tools_from_search E ctx text)
  | OpClear => Demo.clear ctx
  end.

Definition apply_ops (E : Env) (ops : list CtxOp)
           (ctx : Demo.DynamicToolContext) : Demo.DynamicToolContext :=
  fold_left (apply_op E) ops ctx.

(** Operations on the agent. *)
Inductive AgentOp : Type :=
| AgInitialize (client_name client_version : string)
| AgSearch (query : string) (category : option string) (max_results : Z)
           (add_context : bool)
| AgCall (name : string) (arguments : Json)
| AgClear.

Definition agent_op (E : Env) (endpoint : string)
           (sio : Agent.State * IO E) (op : AgentOp) : Agent.State * IO E :=
  match op with
  | AgInitialize n v => fst (Agent.initialize endpoint n v (fst sio) (snd sio))
  | AgSearch q c n a =>
      fst (Agent.search_tools endpoint q c n a (fst sio) (snd sio))
  | AgCall n a => fst (Agent.call_tool endpoint n a (fst sio) (snd sio))
  | AgClear => (Agent.clear_context (fst sio), snd sio)
  end.

Definition agent_ops (E : Env) (endpoint : string) (ops : list AgentOp)
           (sio : Agent.State * IO E) : Agent.State * IO E :=
  fold_left (agent_op E endpoint) ops sio.

(** The search results merged by a sequence of operations have no entry
    named like the bootstrap tool: in the demo the texts given to
    [add_tools_from_search], in the agent the lists that the calls of
    [search_tools] return. *)
Definition merges_no_bootstrap (E : Env) (ops : list CtxOp) : Prop :=
  Forall (fun op =>
            match op with
            | OpSearch text =>
                match json_loads_search E text with
                | Some result =>
                    no_bootstrap_entry (or_default [] (sr_tools result))
                | None => True
                end
            | OpClear => True
            end) ops.

Fixpoint searches_no_bootstrap (E : Env) (endpoint : string)
         (ops : list AgentOp) (sio : Agent.State * IO E) : Prop :=
  match ops with
  | [] => True
  | op :: rest =>
      match op with
      | AgSearch q c n a =>
          match snd (Agent.search_tools endpoint q c n a (fst sio) (snd sio)) with
          | Ok tools => no_bootstrap_entry tools
          | Raise _ => True
          end
      | _ => True
      end
      /\ searches_no_bootstrap E endpoint rest (agent_op E endpoint sio op)
  end.

(** Text blocks of a tool result and their text. *)
Definition is_text_block (block : ContentBlock) : bool :=
  match blk_type block with
  | Some ty => ty =? "text"
  | None => false
  end.

Definition block_text (block : ContentBlock) : string :=
  or_default "" (blk_text block).

Definition text_blocks (result : RpcResult) : list string :=
  map block_text (filter is_text_block (or_default [] (r_content result))).

(** The envelope the bridge prints for a line it cannot decode. *)
Definition parse_error_envelope : Json :=
  JObj [("jsonrpc", JStr "2.0");
        ("id", JNull);
        ("error", JObj [("code", JNum (-32700)); ("message", JStr "Parse error")])].

(** A line that [run] skips without a word. *)
Definition blank_line (line : string) : bool := strip line =? "".

(** Counting the requests of a trace. *)
Definition is_chat_event (ev : Event) : bool :=
  match ev with
  | EvChat _ => true
  | _ => false
  end.

Definition chat_calls (tr : list Event) : nat :=
  List.length (filter is_chat_event tr).

(** The model answers with at least one tool call. *)
Definition returns_tool_calls (reply : HttpReply (Shape ChatBody)) : bool :=
  match reply with
  | ReplyStatus status (Loaded (Dict body)) =>
      ok status
      && match cb_choices body with
         | Some (choice :: _) =>
             match cm_tool_calls (ch_message choice) with
             | Some (_ :: _) => true
             | _ => false
             end
         | _ => false
         end
  | _ => false
  end.

Definition model_always_calls_tools (E : Env) : Prop :=
  forall w payload, returns_tool_calls (snd (chat_post E w payload)) = true.

(** Kinds of messages. *)
Definition is_tool_message (m : Message) : bool :=
  match m with
  | MsgTool _ _ _ => true
  | _ => false
  end.

Definition is_plain_assistant (m : Message) : bool :=
  match m with
  | MsgAssistant _ None => true
  | _ => false
  end.

(** The call a tool message answers: its [tool_call_id] and [name]. *)
Definition answered_call (m : Message) : option (string * string) :=
  match m with
  | MsgTool id name _ => Some (id, name)
  | _ => None
  end.

Definition call_key (tc : ToolCall) : option (string * string) :=
  Some (tc_id tc, tc_name tc).

(** The tool calls requested by the assistant messages of a log. *)
Fixpoint requested_calls (log : list Message) : list ToolCall :=
  match log with
  | [] => []
  | MsgAssistant _ (Some tool_calls) :: rest => tool_calls ++ requested_calls rest
  | _ :: rest => requested_calls rest
  end.


(** Every stored descriptor carries the name it is stored under, and that
    name is not the bootstrap name. *)
Definition demo_coherent (d : dict LLMTool) : Prop :=
  Forall (fun kv => fn_name (snd kv) = fst kv /\ fst kv <> BOOTSTRAP) d.

Definition agent_coherent (d : dict RawTool) : Prop :=
  Forall (fun kv => rt_name (snd kv) = Some (fst kv) /\ fst kv <> BOOTSTRAP) d.


(** The cleaned form of the last entry of [tools] stored under [k], if
    there is one. *)
Fixpoint last_clean (tools : list RawTool) (k : string) : option RawTool :=
  match tools with
  | [] => None
  | tool :: rest =>
      match last_clean rest k with
      | Some v => Some v
      | None =>
          match rt_name tool with
          | Some n =>
              if negb (n =? "") && (n =? k)
              then Some (Agent.clean_tool tool) else None
          | None => None
          end
      end
  end.

(* ================================================================== *)
(** * Environments of the examples *)

(** The double quote character. *)
Definition dq : string := String (ascii_of_nat 34) EmptyString.

(** An environment whose world is the number of requests sent so far; the
    replies are functions of that number and of the request, and the JSON
    decoders are tables from texts to values. *)
Definition example_env
           (mcp : nat -> RpcRequest -> HttpReply (Shape RpcBody))
           (chat : nat -> ChatPayload -> HttpReply (Shape ChatBody))
           (bridge : nat -> Json -> HttpReply Json)
           (loads : dict (Loads Json)) (loads_search : dict SearchResult) : Env :=
  {| World := nat;
     mcp_post := fun n payload => (S n, mcp n payload);
     chat_post := fun n payload => (S n, chat n payload);
     bridge_post := fun n request => (S n, bridge n request);
     json_loads := fun text => or_default NotJson (get text loads);
     json_loads_search := fun text => get text loads_search;
     repr_members := fun _ => "...";
     str_error := fun _ => "error";
     str_http_error := fun _ => "HTTP error status" |}.

Definition io0 {E : Env} (w : World E) : IO E := {| world := w; trace := [] |}.

(** The text [{"tools": [{"name": "tool_search"}]}] and its decoding. *)
Definition text_bootstrap_entry : string :=
  ("{" ++ dq ++ "tools" ++ dq ++ ": [{" ++ dq ++ "name" ++ dq ++ ": "
   ++ dq ++ "tool_search" ++ dq ++ "}]}")%string.

Definition tool_named (name : string) : RawTool :=
  {| rt_name := Some name; rt_fields := [] |}.

Definition env_bootstrap_entry : Env :=
  example_env (fun _ _ => ReplyConnectionError)
              (fun _ _ => ReplyConnectionError)
              (fun _ _ => ReplyConnectionError)
              []
              [(text_bootstrap_entry,
                {| sr_tools := Some [tool_named "tool_search"] |})].

(** An environment in which no text decodes. *)
Definition env_offline : Env :=
  example_env (fun _ _ => ReplyConnectionError)
              (fun _ _ => ReplyConnectionError)
              (fun _ _ => ReplyConnectionError)
              [] [].

(** An MCP client after [initialize], as [main] hands it to the session. *)
Definition client_ready : Demo.MCPClient :=
  {| Demo.endpoint := "http://localhost:8080/mcp"; Demo.request_id := 1;
     Demo.initialized := true; Demo.server_info := Some (JObj []) |}.

Definition system_message : Message := MsgSystem "You are a helpful assistant.".

Definition session0 {E : Env} (w : World E) : Demo.Session E :=
  {| Demo.messages := [system_message]; Demo.tool_context := Demo.init;
     Demo.mcp_client := client_ready; Demo.io := io0 w |}.


(** A chat response with the given tool calls. *)
Definition tool_call_response (tool_calls : list ToolCall)
  : HttpReply (Shape ChatBody) :=
  ReplyStatus 200
    (Loaded (Dict {| cb_error := None;
                     cb_choices :=
                       Some [{| ch_message :=
                                  {| cm_content := Some None;
                                     cm_tool_calls := Some tool_calls |} |}] |})).

(** A tool result with one text block. *)
Definition text_result (text : string) : HttpReply (Shape RpcBody) :=
  ReplyStatus 200
    (Loaded
       (Dict {| rb_error := None;
                rb_result :=
                  Some (Dict {| r_content :=
                                  Some [{| blk_type := Some "text";
                                           blk_text := Some text |}];
                                r_isError := None; r_serverInfo := None;
                                r_capabilities := None; r_tools := None |}) |})).

Definition call_search : ToolCall :=
  {| tc_id := "call_1"; tc_name := "tool_search"; tc_arguments := "{}" |}.

Definition call_calculator : ToolCall :=
  {| tc_id := "call_2"; tc_name := "calculator"; tc_arguments := "{}" |}.

(** The model asks for two tool calls every time; the MCP gateway answers
    every request of the clients with the given reply, and every request of
    the bridge with the given status and a body that is not JSON. *)
Definition env_tools (mcp_reply : HttpReply (Shape RpcBody)) (status : Z) : Env :=
  example_env (fun _ _ => mcp_reply)
              (fun _ _ => tool_call_response [call_search; call_calculator])
              (fun _ _ => ReplyStatus status NotJson)
              [("{}", Loaded (JObj []))] [].

(** A tool result with three blocks, two of them text. *)
Definition result_two_texts : RpcResult :=
  {| r_content :=
       Some [{| blk_type := Some "text"; blk_text := Some "4" |};
             {| blk_type := Some "image"; blk_text := None |};
             {| blk_type := Some "text"; blk_text := Some "done" |}];
     r_isError := None; r_serverInfo := None; r_capabilities := None;
     r_tools := None |}.

(** An initialized agent with an empty tool context. *)
Definition agent_ready : Agent.State :=
  {| Agent.request_id := 1; Agent.initialized := true;
     Agent.server_info := Some (JObj []); Agent.capabilities := Some (JObj []);
     Agent.discovered_tools := [] |}.

Definition io_offline : IO env_offline := @mkIO env_offline 0%nat [].

(** The chat endpoint rejects every request with status 400 and an error
    body. *)
Definition chat_error_reply : HttpReply (Shape ChatBody) :=
  ReplyStatus 400
    (Loaded
       (Dict {| cb_error :=
                  Some (Dict {| ce_message := Some "Invalid request";
                                ce_type := Some "invalid_request_error" |});
                cb_choices := None |})).


(** The chat endpoint answers every request with status 401 and the body
    [{"error": "Unauthorized"}]. *)
Definition env_string_error : Env :=
  example_env (fun _ _ => ReplyConnectionError)
              (fun _ _ =>
                 ReplyStatus 401
                   (Loaded (Dict {| cb_error :=
                                      Some (NotDict (NdStr "Unauthorized"));
                                    cb_choices := None |})))
              (fun _ _ => ReplyConnectionError)
              [] [].

(** The gateway answers every request with [{"result": null}]. *)
Definition null_result : HttpReply (Shape RpcBody) :=
  ReplyStatus 200
    (Loaded (Dict {| rb_error := None; rb_result := Some (NotDict NdNull) |})).

Definition env_null_result : Env :=
  example_env (fun _ _ => null_result)
              (fun _ _ => ReplyConnectionError)
              (fun _ _ => ReplyConnectionError)
              [] [].

Definition env_tools_ok : Env := env_tools (text_result "ok") 200.
Definition env_tools_500 : Env := env_tools (ReplyStatus 500 NotJson) 500.
Definition env_tools_garbled : Env := env_tools (ReplyStatus 200 NotJson) 200.




Definition session_tools_ok : Demo.Session env_tools_ok :=
  @Demo.mkSession env_tools_ok [system_message] Demo.init client_ready
                  (@mkIO env_tools_ok 0%nat []).

Definition session_tools_500 : Demo.Session env_tools_500 :=
  @Demo.mkSession env_tools_500 [system_message] Demo.init client_ready
                  (@mkIO env_tools_500 0%nat []).

Definition session_tools_garbled : Demo.Session env_tools_garbled :=
  @Demo.mkSession env_tools_garbled [system_message] Demo.init client_ready
                  (@mkIO env_tools_garbled 0%nat []).

(* ================================================================== *)
(** * Vocabulary of the further properties *)

(** The descriptor the demo builds from the first entry of [tools] that is
    named [k]. *)
Fixpoint first_format (tools : list RawTool) (k : string) : option LLMTool :=
  match tools with
  | [] => None
  | tool :: rest =>
      match rt_name tool with
      | Some n =>
          if negb (n =? "") && (n =? k)
          then Some (Demo.to_llm_format n tool)
          else first_format rest k
      | None => first_format rest k
      end
  end.

(** No member of the tool is private metadata (a key that starts with an
    underscore). *)
Definition no_private_key (tool : RawTool) : Prop :=
  Forall (fun kv => startswith_char "_"%char (fst kv) = false) (rt_fields tool).

(** The requests of a trace, by kind. *)
Fixpoint mcp_requests (tr : list Event) : list RpcRequest :=
  match tr with
  | [] => []
  | EvMcp payload :: rest => payload :: mcp_requests rest
  | _ :: rest => mcp_requests rest
  end.

Fixpoint chat_payloads (tr : list Event) : list ChatPayload :=
  match tr with
  | [] => []
  | EvChat payload :: rest => payload :: chat_payloads rest
  | _ :: rest => chat_payloads rest
  end.

Fixpoint bridge_requests (tr : list Event) : list Json :=
  match tr with
  | [] => []
  | EvBridge request :: rest => request :: bridge_requests rest
  | _ :: rest => bridge_requests rest
  end.

(** The [count] request ids that follow [id]. *)
Fixpoint ids_after (id : Z) (count : nat) : list Z :=
  match count with
  | O => []
  | S n => (id + 1)%Z :: ids_after (id + 1) n
  end.

(** The arguments the demo sends for a tool call: the decoded text, or [{}]
    when it does not decode or decodes to something false. *)
Definition sent_arguments (E : Env) (tc : ToolCall) : Json :=
  match json_loads E (tc_arguments tc) with
  | Loaded args => if truthy args then args else JObj []
  | _ => JObj []
  end.

(** The [tools/call] requests for a list of tool calls, the first with the
    id after [id]. *)
Fixpoint tool_requests (E : Env) (id : Z) (tool_calls : list ToolCall)
  : list RpcRequest :=
  match tool_calls with
  | [] => []
  | tc :: rest =>
      {| rq_id := id + 1; rq_method := "tools/call";
         rq_params := Some (JObj [("name", JStr (tc_name tc));
                                  ("arguments", sent_arguments E tc)]) |}
      :: tool_requests E (id + 1) rest
  end.

(** A line the bridge can handle: blank, rejected by [json.loads] with
    [JSONDecodeError], or a JSON object. *)
Definition harmless_line (E : Env) (line : string) : Prop :=
  blank_line line = true
  \/ json_loads E (strip line) = NotJson
  \/ exists members, json_loads E (strip line) = Loaded (JObj members).

(** The gateway as the bridge can handle it: [requests.post] raises
    nothing but [ConnectionError] and [Timeout], and [response.json()]
    nothing but [JSONDecodeError]. *)
Definition quiet_reply {B} (reply : HttpReply B) : bool :=
  match reply with
  | ReplyException _ => false
  | ReplyStatus _ (LoadsRaises _) => false
  | _ => true
  end.

Definition quiet_gateway (E : Env) : Prop :=
  forall w request, quiet_reply (snd (bridge_post E w request)) = true.

Definition is_object (j : Json) : bool :=
  match j with
  | JObj _ => true
  | _ => false
  end.

(** The requests the bridge forwards for a list of lines: the decoded
    objects of the lines that are not blank, in order. *)
Fixpoint forwarded_requests (E : Env) (lines : list string) : list Json :=
  match lines with
  | [] => []
  | line :: rest =>
      if blank_line line then forwarded_requests E rest
      else
        match json_loads E (strip line) with
        | Loaded (JObj members) => JObj members :: forwarded_requests E rest
        | _ => forwarded_requests E rest
        end
  end.

(** The lines for which the bridge prints something. *)
Definition printing_lines (lines : list string) : list string :=
  filter (fun line => negb (blank_line line)) lines.


(** The envelope [main] prints for an exception that left [run]: the
    clause [except ValueError] prints the text of the exception under code
    -32000, the clause [except Exception] prints it under -32603. *)
Definition exception_envelope (str_exception : exn -> string) (e : exn) : Json :=
  if is_value_error e
  then Bridge._error_response JNull (-32000) (str_exception e)
  else Bridge._error_response JNull (-32603)
         ("Internal error: " ++ str_exception e)%string.

(** [s.endswith(c)] for a single character. *)
Fixpoint ends_with_char (c : ascii) (s : string) : bool :=
  match s with
  | EmptyString => false
  | String a EmptyString => Ascii.eqb a c
  | String _ rest => ends_with_char c rest
  end.

(** Environments of the further examples.  In the first the model asks
    for a search at the first request of the session, the gateway answers
    with a text that decodes to one tool named [calculator], and the chat
    endpoint rejects every later request. *)
Definition env_discover_then_reject : Env :=
  example_env (fun _ _ => text_result "found")
              (fun n _ =>
                 match n with
                 | O => tool_call_response [call_search]
                 | S _ => chat_error_reply
                 end)
              (fun _ _ => ReplyConnectionError)
              [("{}", Loaded (JObj []))]
              [("found", {| sr_tools := Some [tool_named "calculator"] |})].

Definition session_discover_then_reject : Demo.Session env_discover_then_reject :=
  @Demo.mkSession env_discover_then_reject [system_message] Demo.init
                  client_ready (@mkIO env_discover_then_reject 0%nat []).

(** The model answers in plain text. *)
Definition answer_response (text : string) : HttpReply (Shape ChatBody) :=
  ReplyStatus 200
    (Loaded (Dict {| cb_error := None;
                     cb_choices :=
                       Some [{| ch_message :=
                                  {| cm_content := Some (Some text);
                                     cm_tool_calls := None |} |}] |})).

(** The model asks for the calculator once and then answers. *)
Definition env_calculate : Env :=
  example_env (fun _ _ => text_result "4")
              (fun n _ =>
                 match n with
                 | O => tool_call_response [call_calculator]
                 | S _ => answer_response "The result is 4."
                 end)
              (fun _ _ => ReplyConnectionError)
              [("{}", Loaded (JObj []))] [].

Definition session_calculate : Demo.Session env_calculate :=
  @Demo.mkSession env_calculate [system_message] Demo.init client_ready
                  (@mkIO env_calculate 0%nat []).

(** The text [5] decodes to a number and the text [{}] to an object; the
    gateway is out of reach. *)
Definition env_number_line : Env :=
  example_env (fun _ _ => ReplyConnectionError)
              (fun _ _ => ReplyConnectionError)
              (fun _ _ => ReplyConnectionError)
              [("5", Loaded (JNum 5)); ("{}", Loaded (JObj []))] [].

(** The base URL has no scheme: [requests.post] raises [InvalidSchema]. *)
Definition env_no_scheme : Env :=
  example_env (fun _ _ => ReplyException InvalidSchema)
              (fun _ _ => ReplyException InvalidSchema)
              (fun _ _ => ReplyException InvalidSchema)
              [("{}", Loaded (JObj []))] [].

Definition io_number_line : IO env_number_line := @mkIO env_number_line 0%nat [].





(** A rendering of exceptions for [main]. *)
Definition exception_text (e : exn) : string :=
  match e with
  | AttributeError => "'int' object has no attribute 'get'"
  | RequestException InvalidSchema =>
      "No connection adapters were found for 'localhost:8080/mcp'"
  | _ => "error"
  end.

(* ================================================================== *)
(** * Properties *)

(* ================================================================== *)
(** * Facts about dictionaries *)

Section DictFacts.
Context {V : Type}.
Implicit Types (d : dict V) (k : string) (v : V).

Lemma mem_app k d d' : mem k (d ++ d') = mem k d || mem k d'.
Proof. unfold mem. apply existsb_app. Qed.

Lemma mem_singleton k k' v : mem k [(k', v)] = (k' =? k).
Proof. unfold mem. simpl. apply orb_false_r. Qed.

Lemma mem_In k d : mem k d = true <-> In k (keys d).
Proof.
  unfold mem, keys. rewrite existsb_exists, in_map_iff. split.
  - intros [kv [Hin Heq]]. exists kv. split; [|exact Hin].
    now apply String.eqb_eq.
  - intros [kv [Heq Hin]]. exists kv. split; [exact Hin|].
    now apply String.eqb_eq.
Qed.

Lemma keys_set_present k v d :
  mem k d = true -> keys (set k v d) = keys d.
Proof.
  intros Hm. unfold set, keys. rewrite Hm, map_map.
  apply map_ext_in. intros [k' v'] _. simpl.
  destruct (k' =? k) eqn:Hk; simpl; [|reflexivity].
  symmetry. now apply String.eqb_eq.
Qed.

Lemma mem_set k k' v d : mem k' (set k v d) = (k =? k') || mem k' d.
Proof.
  unfold set. destruct (mem k d) eqn:Hm.
  - assert (Hk : keys (set k v d) = keys d) by now apply keys_set_present.
    unfold set in Hk. rewrite Hm in Hk.
    destruct (k =? k') eqn:Hkk; simpl.
    + apply String.eqb_eq in Hkk. subst k'.
      apply mem_In. rewrite Hk. now apply mem_In.
    + destruct (mem k' d) eqn:Hm'.
      * apply mem_In. rewrite Hk. now apply mem_In.
      * destruct (mem k' (map _ d)) eqn:Hm''; [|reflexivity].
        apply mem_In in Hm''. rewrite Hk in Hm''. apply mem_In in Hm''.
        congruence.
  - rewrite mem_app, mem_singleton. apply orb_comm.
Qed.
End DictFacts.

(* ================================================================== *)
(** * The demo's tool context *)

Section DemoContext.
Import Demo.

Lemma add_tools_mem_mono tools : forall d added k,
  mem k d = true -> mem k (fst (add_tools tools d added)) = true.
Proof.
  induction tools as [|tool rest IH]; intros d added k Hk; simpl; [exact Hk|].
  destruct (rt_name tool) as [name|]; [|now apply IH].
  destruct (negb (name =? "") && negb (mem name d)); apply IH; [|exact Hk].
  rewrite mem_app, Hk. reflexivity.
Qed.

Lemma add_tools_names_mem tools : forall d added tool name,
  In tool tools -> rt_name tool = Some name -> name <> "" ->
  mem name (fst (add_tools tools d added)) = true.
Proof.
  induction tools as [|t rest IH]; intros d added tool name Hin Hn Hne;
    simpl in *; [contradiction|].
  destruct Hin as [->|Hin].
  - rewrite Hn. apply String.eqb_neq in Hne. rewrite Hne. simpl.
    destruct (mem name d) eqn:Hm; simpl.
    + now apply add_tools_mem_mono.
    + apply add_tools_mem_mono. rewrite mem_app, mem_singleton.
      rewrite String.eqb_refl. apply orb_true_r.
  - destruct (rt_name t) as [n|]; [|now apply IH with tool].
    destruct (negb (n =? "") && negb (mem n d)); now apply IH with tool.
Qed.

Lemma add_tools_fixed tools : forall d added,
  (forall tool name, In tool tools -> rt_name tool = Some name ->
                     name <> "" -> mem name d = true) ->
  fst (add_tools tools d added) = d.
Proof.
  induction tools as [|t rest IH]; intros d added H; simpl; [reflexivity|].
  assert (Hrest : forall tool name, In tool rest -> rt_name tool = Some name ->
                                    name <> "" -> mem name d = true).
  { intros tool name Hin. apply H. now right. }
  destruct (rt_name t) as [n|] eqn:Hn; [|now apply IH].
  destruct (n =? "") eqn:Hempty; simpl; [now apply IH|].
  rewrite (H t n); simpl; [now apply IH|now left|exact Hn|].
  now apply String.eqb_neq.
Qed.

Lemma add_tools_idempotent tools d added added' :
  fst (add_tools tools (fst (add_tools tools d added)) added')
  = fst (add_tools tools d added).
Proof.
  apply add_tools_fixed. intros tool name Hin Hn Hne.
  now apply add_tools_names_mem with tool.
Qed.

Lemma add_tools_from_search_discovered E ctx text :
  discovered_tools (fst (add_tools_from_search E ctx text))
  = match json_loads_search E text with
    | Some result =>
        fst (add_tools (or_default [] (sr_tools result))
                       (discovered_tools ctx) [])
    | None => discovered_tools ctx
    end.
Proof.
  unfold add_tools_from_search.
  destruct (json_loads_search E text) as [result|]; [|reflexivity].
  destruct (add_tools _ _ _) as [d added]. reflexivity.
Qed.
End DemoContext.

(* ================================================================== *)
(** * The agent's tool context *)

Section AgentContext.
Import Agent.

Lemma set_In_same k (v v' : RawTool) d : In (k, v') (set k v d) -> v' = v.
Proof.
  unfold set. destruct (mem k d) eqn:Hm.
  - rewrite in_map_iff. intros [[k0 v0] [Heq Hin]]. simpl in Heq.
    destruct (k0 =? k) eqn:Hk.
    + congruence.
    + apply String.eqb_neq in Hk. congruence.
  - rewrite in_app_iff. intros [Hin|[Heq|[]]]; [|congruence].
    assert (mem k d = true) by (apply mem_In, in_map_iff; now exists (k, v')).
    congruence.
Qed.

Lemma set_In_other k k' (v v' : RawTool) d :
  In (k', v') (set k v d) -> k' <> k -> In (k', v') d.
Proof.
  unfold set. destruct (mem k d) eqn:Hm.
  - rewrite in_map_iff. intros [[k0 v0] [Heq Hin]] Hne. simpl in Heq.
    destruct (k0 =? k) eqn:Hk; congruence.
  - rewrite in_app_iff. intros [Hin|[Heq|[]]] Hne; [exact Hin|congruence].
Qed.

Lemma add_to_context_mem_mono tools : forall d k,
  mem k d = true -> mem k (add_to_context tools d) = true.
Proof.
  induction tools as [|tool rest IH]; intros d k Hk; simpl; [exact Hk|].
  destruct (rt_name tool) as [name|]; [|now apply IH].
  destruct (negb (name =? "")); apply IH; [|exact Hk].
  rewrite mem_set, Hk. apply orb_true_r.
Qed.

Lemma add_to_context_names_mem tools : forall d tool name,
  In tool tools -> rt_name tool = Some name -> name <> "" ->
  mem name (add_to_context tools d) = true.
Proof.
  induction tools as [|t rest IH]; intros d tool name Hin Hn Hne;
    simpl in *; [contradiction|].
  destruct Hin as [->|Hin].
  - rewrite Hn. apply String.eqb_neq in Hne. rewrite Hne. simpl.
    apply add_to_context_mem_mono. rewrite mem_set, String.eqb_refl.
    reflexivity.
  - destruct (rt_name t) as [n|]; [|now apply IH with tool].
    destruct (negb (n =? "")); now apply IH with tool.
Qed.

(** With every name already present, merging rewrites the values in
    place. *)
Lemma add_to_context_present tools : forall d,
  (forall tool name, In tool tools -> rt_name tool = Some name ->
                     name <> "" -> mem name d = true) ->
  add_to_context tools d
  = map (fun kv => (fst kv, or_default (snd kv) (last_clean tools (fst kv)))) d.
Proof.
  induction tools as [|t rest IH]; intros d H; simpl.
  - rewrite <- (map_id d) at 1. apply map_ext. now intros [k v].
  - assert (Hrest : forall d' : dict RawTool,
              (forall k, mem k d = true -> mem k d' = true) ->
              forall tool name, In tool rest -> rt_name tool = Some name ->
                                name <> "" -> mem name d' = true).
    { intros d' Hd' tool name Hin Hn Hne. apply Hd'.
      apply (H tool name); auto. now right. }
    destruct (rt_name t) as [n|] eqn:Hn.
    + destruct (n =? "") eqn:Hempty; simpl.
      * rewrite IH by (apply Hrest; auto). apply map_ext. intros [k v]. simpl.
        now destruct (last_clean rest k).
      * assert (Hm : mem n d = true).
        { apply (H t n); [now left|exact Hn|now apply String.eqb_neq]. }
        rewrite IH.
        2:{ apply Hrest. intros k Hk. rewrite mem_set, Hk. apply orb_true_r. }
        unfold set. rewrite Hm, map_map. apply map_ext. intros [k v]. simpl.
        rewrite (String.eqb_sym n k).
        destruct (k =? n) eqn:Hk; simpl.
        -- apply String.eqb_eq in Hk. subst k.
           now destruct (last_clean rest n).
        -- now destruct (last_clean rest k).
    + rewrite IH by (apply Hrest; auto). apply map_ext. intros [k v]. simpl.
      now destruct (last_clean rest k).
Qed.

Lemma add_to_context_untouched tools : forall d k v,
  In (k, v) (add_to_context tools d) -> last_clean tools k = None ->
  In (k, v) d.
Proof.
  induction tools as [|t rest IH]; intros d k v Hin Hl; simpl in *;
    [exact Hin|].
  destruct (last_clean rest k) eqn:Hr; [discriminate|].
  destruct (rt_name t) as [n|]; [|now apply IH].
  destruct (n =? "") eqn:Hempty; simpl in *; [now apply IH|].
  destruct (n =? k) eqn:Hk; [discriminate|].
  apply String.eqb_neq in Hk.
  apply set_In_other with n (clean_tool t); [now apply IH|congruence].
Qed.

Lemma add_to_context_last tools : forall d k v x,
  In (k, v) (add_to_context tools d) -> last_clean tools k = Some x -> v = x.
Proof.
  induction tools as [|t rest IH]; intros d k v x Hin Hl; simpl in *;
    [discriminate|].
  destruct (last_clean rest k) eqn:Hr.
  - injection Hl as <-.
    destruct (rt_name t) as [n|]; [|now apply IH with d k].
    destruct (negb (n =? "")); now eapply IH; eauto.
  - destruct (rt_name t) as [n|]; [|discriminate].
    destruct (n =? "") eqn:Hempty; simpl in *; [discriminate|].
    destruct (n =? k) eqn:Hk; [|discriminate].
    apply String.eqb_eq in Hk. subst k. injection Hl as <-.
    apply set_In_same with n d.
    now apply add_to_context_untouched with rest.
Qed.

Lemma add_to_context_idempotent tools d :
  add_to_context tools (add_to_context tools d) = add_to_context tools d.
Proof.
  rewrite add_to_context_present.
  - rewrite <- (map_id (add_to_context tools d)) at 2.
    apply map_ext_in. intros [k v] Hin. simpl.
    destruct (last_clean tools k) as [x|] eqn:Hl; [|reflexivity].
    simpl. f_equal. symmetry. now apply add_to_context_last with tools d k.
  - intros tool name Hin Hn Hne. now apply add_to_context_names_mem with tool.
Qed.
End AgentContext.

(** C5.  Merging a list of discovered descriptors is idempotent: in the demo
    ([add_tools_from_search], on the text of a search result and on the
    decoded list) and in the agent (the loop of [search_tools]), merging the
    same list a second time leaves the tool list offered to the model as it
    was after the first merge, whatever the state of the context. *)
Theorem merge_discovered_idempotent :
  (forall E ctx text,
      let ctx1 := fst (Demo.add_tools_from_search E ctx text) in
      Demo.get_tools_for_llm (fst (Demo.add_tools_from_search E ctx1 text))
      = Demo.get_tools_for_llm ctx1)
  /\ (forall tools d added added',
         let d1 := fst (Demo.add_tools tools d added) in
         fst (Demo.add_tools tools d1 added') = d1)
  /\ (forall tools st,
         let st1 :=
           Agent.with_discovered st
             (Agent.add_to_context tools (Agent.discovered_tools st)) in
         Agent.get_context_tools
           (Agent.with_discovered st1
              (Agent.add_to_context tools (Agent.discovered_tools st1)))
         = Agent.get_context_tools st1).
Proof.
  split; [|split].
  - intros E ctx text ctx1. unfold Demo.get_tools_for_llm. f_equal. f_equal.
    rewrite add_tools_from_search_discovered. subst ctx1.
    rewrite add_tools_from_search_discovered.
    destruct (json_loads_search E text) as [result|]; [|reflexivity].
    apply add_tools_idempotent.
  - intros tools d added added' d1. apply add_tools_idempotent.
  - intros tools st st1. unfold Agent.get_context_tools. f_equal. f_equal.
    simpl. apply add_to_context_idempotent.
Qed.


(* ================================================================== *)
(** * The bootstrap descriptor *)

(** C3.  The tool list offered to the model starts with the bootstrap
    [tool_search] descriptor: in every state of the demo's context and of
    the agent, so in the initial state and after any sequence of searches
    and clears; after [clear] it is the only entry. *)
Theorem bootstrap_descriptor_first :
  (forall ctx,
      hd_error (Demo.get_tools_for_llm ctx) = Some Demo.tool_search_spec)
  /\ Demo.get_tools_for_llm Demo.init = [Demo.tool_search_spec]
  /\ (forall E ops,
         hd_error (Demo.get_tools_for_llm (apply_ops E ops Demo.init))
         = Some Demo.tool_search_spec)
  /\ (forall ctx,
         Demo.get_tools_for_llm (Demo.clear ctx) = [Demo.tool_search_spec])
  /\ (forall st,
         hd_error (Agent.get_context_tools st)
         = Some Agent.tool_search_definition)
  /\ Agent.get_context_tools Agent.init = [Agent.tool_search_definition]
  /\ (forall E endpoint ops io,
         hd_error (Agent.get_context_tools
                     (fst (agent_ops E endpoint ops (Agent.init, io))))
         = Some Agent.tool_search_definition)
  /\ (forall st,
         Agent.get_context_tools (Agent.clear_context st)
         = [Agent.tool_search_definition]).
Proof.
  repeat split; intros; reflexivity.
Qed.

(** ** No second descriptor with the bootstrap name *)

Section BootstrapUnique.
Import Demo.

Lemma demo_coherent_count d :
  demo_coherent d -> count_named BOOTSTRAP (values d) = 0.
Proof.
  unfold count_named, values. induction 1 as [|[k v] d [Hn Hk] _ IH];
    simpl in *; [reflexivity|].
  rewrite Hn. apply String.eqb_neq in Hk. now rewrite Hk.
Qed.

Lemma agent_coherent_count d :
  agent_coherent d -> count_named_raw BOOTSTRAP (values d) = 0.
Proof.
  unfold count_named_raw, values, has_name.
  induction 1 as [|[k v] d [Hn Hk] _ IH]; simpl in *; [reflexivity|].
  rewrite Hn. apply String.eqb_neq in Hk. now rewrite Hk.
Qed.

Lemma add_tools_coherent tools : forall d added,
  no_bootstrap_entry tools -> demo_coherent d ->
  demo_coherent (fst (add_tools tools d added)).
Proof.
  induction tools as [|t rest IH]; intros d added Hno Hd; simpl; [exact Hd|].
  inversion Hno as [|? ? Ht Hrest]; subst.
  destruct (rt_name t) as [n|] eqn:Hn; [|now apply IH].
  destruct (negb (n =? "") && negb (mem n d)); [|now apply IH].
  apply IH; [exact Hrest|]. apply Forall_app. split; [exact Hd|].
  constructor; [|constructor]. simpl. split; [reflexivity|].
  unfold BOOTSTRAP in *. congruence.
Qed.

Lemma set_coherent k v d :
  rt_name v = Some k -> k <> BOOTSTRAP ->
  agent_coherent d -> agent_coherent (set k v d).
Proof.
  intros Hv Hk Hd. unfold set. destruct (mem k d).
  - unfold agent_coherent in *. rewrite Forall_map.
    eapply Forall_impl; [|exact Hd]. intros [k' v'] [Hn Hk']. simpl in *.
    destruct (k' =? k); simpl; auto.
  - apply Forall_app. split; [exact Hd|]. constructor; [|constructor].
    simpl. auto.
Qed.

Lemma add_to_context_coherent tools : forall d,
  no_bootstrap_entry tools -> agent_coherent d ->
  agent_coherent (Agent.add_to_context tools d).
Proof.
  induction tools as [|t rest IH]; intros d Hno Hd; simpl; [exact Hd|].
  inversion Hno as [|? ? Ht Hrest]; subst.
  destruct (rt_name t) as [n|] eqn:Hn; [|now apply IH].
  destruct (negb (n =? "")); [|now apply IH].
  apply IH; [exact Hrest|]. apply set_coherent; [exact Hn| |exact Hd].
  unfold BOOTSTRAP in *. congruence.
Qed.

Lemma send_request_discovered E endpoint method params st (io : IO E) :
  Agent.discovered_tools
    (fst (fst (Agent._send_request endpoint method params st io)))
  = Agent.discovered_tools st.
Proof.
  unfold Agent._send_request. simpl.
  destruct (post_mcp io _) as [io' reply].
  destruct reply as [| |e|status body]; try reflexivity.
  destruct (raises_for_status status); [reflexivity|].
  destruct body as [[result|v]| |e]; try reflexivity.
  destruct (rb_error result) as [[error|v]|]; reflexivity.
Qed.

Lemma agent_op_coherent E endpoint sio op :
  match op with
  | AgSearch q c n a =>
      match snd (Agent.search_tools endpoint q c n a (fst sio) (snd sio)) with
      | Ok tools => no_bootstrap_entry tools
      | Raise _ => True
      end
  | _ => True
  end ->
  agent_coherent (Agent.discovered_tools (fst sio)) ->
  agent_coherent (Agent.discovered_tools (fst (agent_op E endpoint sio op))).
Proof.
  intros Hop Hd. destruct sio as [st io]. simpl in Hd, Hop.
  destruct op as [n v|q c n a|n a|]; simpl.
  - unfold Agent.initialize.
    pose proof (send_request_discovered E endpoint "initialize"
      (Some (JObj [("protocolVersion", JStr "2024-11-05");
                   ("capabilities", JObj [("tools", JObj [])]);
                   ("clientInfo", JObj [("name", JStr n);
                                        ("version", JStr v)])])) st io) as Hs.
    destruct (Agent._send_request _ _ _ _ _) as [[st' io'] [[r|nd]|e]];
      simpl in *; now rewrite Hs.
  - revert Hop. unfold Agent.search_tools.
    destruct (negb (Agent.initialized st)); [intros _; exact Hd|].
    match goal with
    | |- context [Agent._send_request ?ep ?m ?p st io] =>
        pose proof (send_request_discovered E ep m p st io) as Hs;
        destruct (Agent._send_request ep m p st io) as [[st' io'] [[r|nd]|e]]
    end; simpl in *; try (intros _; now rewrite Hs).
    destruct a; simpl; [|intros _; now rewrite Hs].
    destruct (Agent.parse_blocks E _ []) as [|t ts]; simpl;
      [intros _; now rewrite Hs|].
    intros Hno.
    apply (add_to_context_coherent (t :: ts) (Agent.discovered_tools st'));
      [exact Hno|now rewrite Hs].
  - unfold Agent.call_tool.
    destruct (negb (Agent.initialized st)); [exact Hd|].
    destruct (negb (n =? "tool_search") && _); [exact Hd|].
    rewrite send_request_discovered. exact Hd.
  - constructor.
Qed.

Lemma agent_ops_coherent E endpoint ops : forall sio,
  searches_no_bootstrap E endpoint ops sio ->
  agent_coherent (Agent.discovered_tools (fst sio)) ->
  agent_coherent
    (Agent.discovered_tools (fst (agent_ops E endpoint ops sio))).
Proof.
  induction ops as [|op ops IH]; intros sio HE Hd; simpl; [exact Hd|].
  destruct HE as [Hop Hrest].
  apply IH; [exact Hrest|]. now apply agent_op_coherent.
Qed.

Lemma apply_ops_coherent E ops : forall ctx,
  merges_no_bootstrap E ops ->
  demo_coherent (discovered_tools ctx) ->
  demo_coherent (discovered_tools (apply_ops E ops ctx)).
Proof.
  induction ops as [|op ops IH]; intros ctx HE Hd; simpl; [exact Hd|].
  inversion HE as [|? ? Hop Hrest]; subst.
  apply IH; [exact Hrest|]. destruct op as [text|]; simpl; [|constructor].
  rewrite add_tools_from_search_discovered.
  destruct (json_loads_search E text) as [r|] eqn:Hr; [|exact Hd].
  apply add_tools_coherent; [exact Hop|exact Hd].
Qed.

(** What [add_tools] stores was there before or is a named entry of the
    list. *)
Lemma add_tools_stores_named tools : forall d added k,
  mem k (fst (add_tools tools d added)) = true ->
  mem k d = true
  \/ (k <> "" /\ exists tool, In tool tools /\ rt_name tool = Some k).
Proof.
  induction tools as [|t rest IH]; intros d added k Hk; simpl in *;
    [now left|].
  assert (Hlift : mem k d = true
                  \/ (k <> "" /\ exists tool, In tool rest /\ rt_name tool = Some k)
                  -> mem k d = true
                     \/ (k <> "" /\ exists tool,
                            (t = tool \/ In tool rest) /\ rt_name tool = Some k)).
  { intros [H|[Hne [tool [Hin Hn]]]]; [now left|right].
    split; [exact Hne|]. exists tool. auto. }
  destruct (rt_name t) as [n|] eqn:Hn; [|now apply Hlift, IH with added].
  destruct (n =? "") eqn:He; simpl in Hk; [now apply Hlift, IH with added|].
  destruct (mem n d) eqn:Hm; simpl in Hk; [now apply Hlift, IH with added|].
  apply IH in Hk. destruct Hk as [Hk|Hk]; [|now apply Hlift; right].
  rewrite mem_app, mem_singleton in Hk. apply orb_prop in Hk.
  destruct Hk as [Hk|Hk]; [now left|]. apply String.eqb_eq in Hk. subst k.
  right. split; [now apply String.eqb_neq|]. exists t. auto.
Qed.

Lemma add_to_context_stores_named tools : forall d k,
  mem k (Agent.add_to_context tools d) = true ->
  mem k d = true
  \/ (k <> "" /\ exists tool, In tool tools /\ rt_name tool = Some k).
Proof.
  induction tools as [|t rest IH]; intros d k Hk; simpl in *; [now left|].
  assert (Hlift : mem k d = true
                  \/ (k <> "" /\ exists tool, In tool rest /\ rt_name tool = Some k)
                  -> mem k d = true
                     \/ (k <> "" /\ exists tool,
                            (t = tool \/ In tool rest) /\ rt_name tool = Some k)).
  { intros [H|[Hne [tool [Hin Hn]]]]; [now left|right].
    split; [exact Hne|]. exists tool. auto. }
  destruct (rt_name t) as [n|] eqn:Hn; [|now apply Hlift, IH].
  destruct (n =? "") eqn:He; simpl in Hk; [now apply Hlift, IH|].
  apply IH in Hk. destruct Hk as [Hk|Hk]; [|now apply Hlift; right].
  rewrite mem_set in Hk. apply orb_prop in Hk.
  destruct Hk as [Hk|Hk]; [|now left]. apply String.eqb_eq in Hk. subst k.
  right. split; [now apply String.eqb_neq|]. exists t. auto.
Qed.
End BootstrapUnique.

(** C4, as the code has it.  Merging stores entries by name when the name
    is present and not empty, and nothing else; an entry named like the
    bootstrap tool is not filtered out.  When none of the search results
    that are merged contains an entry with the bootstrap name, the list
    offered to the model has exactly one descriptor with that name after
    any sequence of searches and clears, in the demo and in the agent. *)
Theorem bootstrap_descriptor_unique (E : Env) :
  (forall ops,
      merges_no_bootstrap E ops ->
      count_named BOOTSTRAP
        (Demo.get_tools_for_llm (apply_ops E ops Demo.init)) = 1)
  /\ (forall endpoint ops io,
         searches_no_bootstrap E endpoint ops (Agent.init, io) ->
         count_named_raw BOOTSTRAP
           (Agent.get_context_tools
              (fst (agent_ops E endpoint ops (Agent.init, io)))) = 1)
  /\ (forall tools d added k,
         mem k (fst (Demo.add_tools tools d added)) = true ->
         mem k d = true
         \/ (k <> "" /\ exists tool, In tool tools /\ rt_name tool = Some k))
  /\ (forall tools d k,
         mem k (Agent.add_to_context tools d) = true ->
         mem k d = true
         \/ (k <> "" /\ exists tool, In tool tools /\ rt_name tool = Some k)).
Proof.
  split; [|split; [|split]].
  - intros ops HE. unfold Demo.get_tools_for_llm, count_named. simpl.
    fold (count_named BOOTSTRAP
            (values (Demo.discovered_tools (apply_ops E ops Demo.init)))).
    rewrite demo_coherent_count; [reflexivity|].
    apply apply_ops_coherent; [exact HE|constructor].
  - intros endpoint ops io HE. unfold Agent.get_context_tools, count_named_raw.
    simpl.
    fold (count_named_raw BOOTSTRAP
            (values (Agent.discovered_tools
                       (fst (agent_ops E endpoint ops (Agent.init, io)))))).
    rewrite agent_coherent_count; [reflexivity|].
    apply agent_ops_coherent; [exact HE|constructor].
  - apply add_tools_stores_named.
  - apply add_to_context_stores_named.
Qed.

(** A search that finds the calculator, a clear and the same search again
    in the demo; in the agent, [initialize] and a search that finds the
    calculator.  Each time the model is offered two tools, one of them
    named [tool_search]. *)
Lemma bootstrap_descriptor_unique_witness :
  (merges_no_bootstrap env_discover_then_reject
     [OpSearch "found"; OpClear; OpSearch "found"]
   /\ map fn_name
        (Demo.get_tools_for_llm
           (apply_ops env_discover_then_reject
              [OpSearch "found"; OpClear; OpSearch "found"] Demo.init))
      = ["tool_search"; "calculator"]
   /\ count_named BOOTSTRAP
        (Demo.get_tools_for_llm
           (apply_ops env_discover_then_reject
              [OpSearch "found"; OpClear; OpSearch "found"] Demo.init)) = 1)
  /\ (searches_no_bootstrap env_discover_then_reject
        "http://localhost:8080/mcp"
        [AgInitialize "agent" "1.0.0"; AgSearch "math" None 5 true]
        (Agent.init, io0 (E := env_discover_then_reject) 0%nat)
      /\ map rt_name
           (Agent.get_context_tools
              (fst (agent_ops env_discover_then_reject
                      "http://localhost:8080/mcp"
                      [AgInitialize "agent" "1.0.0"; AgSearch "math" None 5 true]
                      (Agent.init, io0 (E := env_discover_then_reject) 0%nat))))
         = [Some "tool_search"; Some "calculator"]
      /\ count_named_raw BOOTSTRAP
           (Agent.get_context_tools
              (fst (agent_ops env_discover_then_reject
                      "http://localhost:8080/mcp"
                      [AgInitialize "agent" "1.0.0"; AgSearch "math" None 5 true]
                      (Agent.init, io0 (E := env_discover_then_reject) 0%nat))))
         = 1).
Proof.
  assert (Hcalc : no_bootstrap_entry [tool_named "calculator"]).
  { constructor; [discriminate|constructor]. }
  assert (Hd : merges_no_bootstrap env_discover_then_reject
                 [OpSearch "found"; OpClear; OpSearch "found"]).
  { constructor; [exact Hcalc|]. constructor; [exact I|].
    constructor; [exact Hcalc|constructor]. }
  assert (Ha : searches_no_bootstrap env_discover_then_reject
                 "http://localhost:8080/mcp"
                 [AgInitialize "agent" "1.0.0"; AgSearch "math" None 5 true]
                 (Agent.init, io0 (E := env_discover_then_reject) 0%nat)).
  { split; [exact I|]. split; [exact Hcalc|exact I]. }
  split.
  - split; [exact Hd|]. split; [reflexivity|].
    exact (proj1 (bootstrap_descriptor_unique env_discover_then_reject) _ Hd).
  - split; [exact Ha|]. split; [reflexivity|].
    exact (proj1 (proj2 (bootstrap_descriptor_unique env_discover_then_reject))
                 _ _ _ Ha).
Defined.

(** A search result with an entry named [tool_search] is stored like any
    other: the model is then offered two descriptors with the bootstrap
    name, in the demo and in the agent. *)
Lemma bootstrap_name_discovered_twice :
  count_named BOOTSTRAP
    (Demo.get_tools_for_llm
       (fst (Demo.add_tools_from_search env_bootstrap_entry Demo.init
               text_bootstrap_entry))) = 2
  /\ count_named_raw BOOTSTRAP
       (Agent.get_context_tools
          (Agent.with_discovered Agent.init
             (Agent.add_to_context [tool_named "tool_search"]
                (Agent.discovered_tools Agent.init)))) = 2.
Proof.
  split; vm_compute; reflexivity.
Qed.

(* ================================================================== *)
(** * The text of a tool result *)

Lemma collect_texts_filter content : forall texts,
  Demo.collect_texts content texts
  = texts ++ map block_text (filter is_text_block content).
Proof.
  induction content as [|b rest IH]; intros texts; simpl.
  - now rewrite app_nil_r.
  - unfold is_text_block at 1. destruct (blk_type b) as [ty|]; [|apply IH].
    destruct (ty =? "text"); [|apply IH].
    rewrite IH, <- app_assoc. reflexivity.
Qed.

Lemma str_result_not_empty E result : Demo.str_result E result <> "".
Proof. unfold Demo.str_result. discriminate. Qed.

(** C10.  [extract_tool_result] returns the texts of the text-typed blocks
    of the result, in their order, joined by newlines; when there is no such
    block it returns [str(result)], which is not the empty string. *)
Theorem extract_tool_result_text E result :
  (text_blocks result <> [] ->
   Demo.extract_tool_result E result = join newline (text_blocks result))
  /\ (text_blocks result = [] ->
      Demo.extract_tool_result E result = Demo.str_result E result
      /\ Demo.extract_tool_result E result <> "").
Proof.
  unfold Demo.extract_tool_result, text_blocks.
  rewrite collect_texts_filter. simpl.
  destruct (map block_text _) as [|t ts] eqn:Hts.
  - split; [congruence|]. intros _. split; [reflexivity|].
    apply str_result_not_empty.
  - split; [reflexivity|discriminate].
Qed.

(** Three blocks, two of them text; and a result without content. *)
Lemma extract_tool_result_text_witness :
  Demo.extract_tool_result env_offline result_two_texts
  = ("4" ++ newline ++ "done")%string
  /\ Demo.extract_tool_result env_offline empty_result <> "".
Proof.
  split.
  - change (Demo.extract_tool_result env_offline result_two_texts
            = join newline (text_blocks result_two_texts)).
    apply (proj1 (extract_tool_result_text env_offline result_two_texts)).
    discriminate.
  - apply (proj2 (extract_tool_result_text env_offline empty_result)).
    reflexivity.
Defined.

(* ================================================================== *)
(** * Calling a tool that is not in context *)

(** C6, as the code has it.  In the agent, calling a tool that is neither
    [tool_search] nor in the discovered tools raises an [MCPError] with
    code -1 and leaves the agent and the outside world as they were: no
    request is sent and no request id is used.  On an initialized agent the
    message says that the tool is not in context. *)
Theorem unknown_tool_fails_locally (E : Env) endpoint name arguments
        (st : Agent.State) (io : IO E) :
  name <> BOOTSTRAP ->
  mem name (Agent.discovered_tools st) = false ->
  exists message,
    Agent.call_tool endpoint name arguments st io
    = (st, io, Raise (MCPError (-1) message))
    /\ (Agent.initialized st = true ->
        message
        = ("Tool '" ++ name
           ++ "' not in context. Use search_tools() to discover it first.")%string).
Proof.
  intros Hname Hmem. unfold Agent.call_tool.
  destruct (Agent.initialized st) eqn:Hinit; simpl.
  - apply String.eqb_neq in Hname. unfold BOOTSTRAP in Hname.
    rewrite Hname, Hmem. simpl. eexists. split; [reflexivity|].
    intros _. reflexivity.
  - eexists. split; [reflexivity|]. discriminate.
Qed.

Lemma unknown_tool_fails_locally_witness :
  exists message,
    Agent.call_tool "http://localhost:8080/mcp" "calculator" (JObj [])
      agent_ready (io0 (E := env_offline) 0%nat)
    = (agent_ready, io0 (E := env_offline) 0%nat,
       Raise (MCPError (-1) message))
    /\ (Agent.initialized agent_ready = true ->
        message
        = ("Tool '" ++ "calculator"
           ++ "' not in context. Use search_tools() to discover it first.")%string).
Proof.
  apply (unknown_tool_fails_locally env_offline "http://localhost:8080/mcp"
           "calculator" (JObj []) agent_ready).
  - discriminate.
  - reflexivity.
Defined.

(** The demo has no such check: a call that the model requests for a tool
    that is not in the context goes to the gateway, uses a request id, and
    its result is appended.  In the agent, before [initialize], the error
    raised for such a name is not the one about the context. *)
Lemma demo_calls_unknown_tool :
  Demo.is_known_tool (Demo.tool_context session_tools_ok) "calculator" = false
  /\ (let s := fst (Demo.execute_tools [call_calculator] session_tools_ok) in
      trace (Demo.io s)
      = [EvMcp {| rq_id := 2; rq_method := "tools/call";
                  rq_params :=
                    Some (JObj [("name", JStr "calculator");
                                ("arguments", JObj [])]) |}]
      /\ Demo.request_id (Demo.mcp_client s) = 2%Z
      /\ Demo.messages s
         = [system_message; MsgTool "call_2" "calculator" "ok"])
  /\ Agent.call_tool "http://localhost:8080/mcp" "calculator" (JObj [])
       Agent.init io_offline
     = (Agent.init, io_offline,
        Raise (MCPError (-1) "Must call initialize() first")).
Proof.
  repeat split.
Qed.

(* ================================================================== *)
(** * Transport failures and error codes *)

Section FailureMapping.
Variable E : Env.

End FailureMapping.




(* ================================================================== *)
(** * The bridge loop and lines that are not JSON *)

Section BridgeLoop.
Variable E : Env.
Variable endpoint : string.

Lemma run_blank line rest (io : IO E) out :
  blank_line line = true ->
  Bridge.run endpoint (line :: rest) io out = Bridge.run endpoint rest io out.
Proof. unfold blank_line. intros H. simpl. now rewrite H. Qed.

Lemma run_parse_error line rest (io : IO E) out :
  blank_line line = false ->
  json_loads E (strip line) = NotJson ->
  Bridge.run endpoint (line :: rest) io out
  = Bridge.run endpoint rest io (out ++ [parse_error_envelope]).
Proof. unfold blank_line. intros Hb Hj. simpl. now rewrite Hb, Hj. Qed.


Lemma run_not_object line rest (io : IO E) out v :
  blank_line line = false ->
  json_loads E (strip line) = Loaded v ->
  is_object v = false ->
  Bridge.run endpoint (line :: rest) io out = (io, out, Some AttributeError).
Proof.
  unfold blank_line. intros Hb Hj Hv. simpl. rewrite Hb, Hj.
  destruct v; try reflexivity. discriminate Hv.
Qed.

End BridgeLoop.




(* ================================================================== *)
(** * The chat turn *)

(** Case analysis on what a [match] or an [if] of the goal looks at. *)
Ltac break_match :=
  match goal with
  | |- context [match ?x with _ => _ end] => destruct x
  | |- context [if ?x then _ else _] => destruct x
  end.

Section Turn.
Variable E : Env.
Variable model : string.
Import Demo.

Lemma chat_calls_snoc_chat tr p :
  chat_calls (tr ++ [EvChat p]) = S (chat_calls tr).
Proof. unfold chat_calls. rewrite filter_app, length_app. simpl. lia. Qed.

Lemma chat_calls_snoc_mcp tr p : chat_calls (tr ++ [EvMcp p]) = chat_calls tr.
Proof. unfold chat_calls. rewrite filter_app, length_app. simpl. lia. Qed.

Lemma chat_counts_one msgs tools (io : IO E) :
  chat_calls (trace (fst (chat model msgs tools io)))
  = S (chat_calls (trace io)).
Proof.
  unfold chat, post_chat.
  destruct (chat_post E (world io) _) as [w reply].
  assert (H : chat_calls (trace io ++ [EvChat
                {| cp_model := model; cp_messages := msgs;
                   cp_tools := match tools with [] => None | _ => Some tools end |}])
              = S (chat_calls (trace io))).
  { apply chat_calls_snoc_chat. }
  destruct reply as [| |e|status body]; simpl; try exact H.
  destruct (negb (ok status)).
  - destruct body as [[b|v]| |e]; simpl; try exact H.
    + destruct (cb_error b) as [[error|v]|]; exact H.
    + destruct (has_member "error" v) as [[|]|]; exact H.
    + destruct (is_value_error (loads_exn e)); exact H.
  - destruct body; exact H.
Qed.

Lemma request_no_chat method params c (io : IO E) :
  chat_calls (trace (snd (fst (_request method params c io))))
  = chat_calls (trace io).
Proof.
  unfold _request, _next_id, post_mcp. simpl.
  destruct (mcp_post E (world io) _) as [w reply].
  assert (H : forall p, chat_calls (trace io ++ [EvMcp p])
                        = chat_calls (trace io)).
  { intros p. apply chat_calls_snoc_mcp. }
  destruct reply as [| |e|status body]; simpl; try apply H.
  destruct (status =? 401)%Z; [apply H|].
  destruct (status =? 404)%Z; [apply H|].
  destruct (raises_for_status status); [apply H|].
  destruct body as [[b|v]| |e]; try apply H.
  destruct (rb_error b) as [[error|v]|]; apply H.
Qed.

Lemma call_tool_no_chat name arguments c (io : IO E) :
  chat_calls (trace (snd (fst (call_tool name arguments c io))))
  = chat_calls (trace io).
Proof.
  unfold call_tool. destruct (initialized c); [apply request_no_chat|].
  unfold initialize.
  pose proof (request_no_chat "initialize" (Some initialize_params) c io) as H.
  destruct (_request "initialize" _ c io) as [[c1 io1] [[r|v]|e]]; simpl in *.
  - rewrite request_no_chat. exact H.
  - exact H.
  - exact H.
Qed.

(** [_request], and so [call_tool], never raises [ChatError]. *)
Lemma request_not_chat_error method params c (io : IO E) m :
  snd (_request method params c io) <> Raise (ChatError m).
Proof.
  unfold _request, _next_id, post_mcp, read_non_dict, loads_exn. simpl.
  destruct (mcp_post E (world io) _) as [w reply].
  repeat break_match; simpl; discriminate.
Qed.

Lemma call_tool_not_chat_error name arguments c (io : IO E) m :
  snd (call_tool name arguments c io) <> Raise (ChatError m).
Proof.
  unfold call_tool. destruct (initialized c);
    [apply request_not_chat_error|].
  unfold initialize.
  pose proof (request_not_chat_error "initialize" (Some initialize_params)
                c io m) as H.
  destruct (_request "initialize" _ c io) as [[c1 io1] [[r|v]|e]]; simpl in *.
  - apply request_not_chat_error.
  - discriminate.
  - exact H.
Qed.

(** The tool loop sends no chat request and appends tool messages only,
    one for each call in the order of the calls when no exception leaves
    it; the exception that leaves it is never a [ChatError]. *)
Lemma execute_tools_appends tool_calls : forall (s s' : Session E) e,
  execute_tools tool_calls s = (s', e) ->
  chat_calls (trace (io s')) = chat_calls (trace (io s))
  /\ (forall m, e <> Some (ChatError m))
  /\ exists extra,
      messages s' = messages s ++ extra
      /\ Forall (fun m => is_tool_message m = true) extra
      /\ (e = None -> map answered_call extra = map call_key tool_calls).
Proof.
  induction tool_calls as [|tc rest IH]; intros s s' e H; simpl in H.
  - injection H as <- <-. split; [reflexivity|]. split; [discriminate|].
    exists []. rewrite app_nil_r. repeat split; constructor.
  - assert (Hstop : forall s1 ex,
               (forall m, ex <> ChatError m) ->
               chat_calls (trace (io s1)) = chat_calls (trace (io s)) ->
               messages s1 = messages s ->
               (s1, Some ex) = (s', e) ->
               chat_calls (trace (io s')) = chat_calls (trace (io s))
               /\ (forall m, e <> Some (ChatError m))
               /\ exists extra,
                   messages s' = messages s ++ extra
                   /\ Forall (fun m => is_tool_message m = true) extra
                   /\ (e = None ->
                       map answered_call extra = map call_key (tc :: rest))).
    { intros s1 ex Hex Hn Hm Heq. injection Heq as <- <-.
      split; [exact Hn|]. split.
      - intros m Hm'. injection Hm' as Hm'. now apply (Hex m).
      - exists []. rewrite app_nil_r. repeat split;
          [exact Hm|constructor|discriminate]. }
    unfold tool_arguments in H.
    destruct (json_loads E (tc_arguments tc)) as [args| |le].
    2: { match type of H with
         | context [call_tool ?n ?a ?c ?i] =>
             pose proof (call_tool_no_chat n a c i) as Hc;
             pose proof (call_tool_not_chat_error n a c i) as Hne;
             destruct (call_tool n a c i) as [[c' io'] r]
         end. simpl in Hc, Hne.
         assert (Hstep : forall s1 text,
                    messages s1
                    = messages s ++ [MsgTool (tc_id tc) (tc_name tc) text] ->
                    io s1 = io' ->
                    execute_tools rest s1 = (s', e) ->
                    chat_calls (trace (io s')) = chat_calls (trace (io s))
                    /\ (forall m, e <> Some (ChatError m))
                    /\ exists extra,
                        messages s' = messages s ++ extra
                        /\ Forall (fun m => is_tool_message m = true) extra
                        /\ (e = None ->
                            map answered_call extra
                            = map call_key (tc :: rest))).
         { intros s1 text Hm Hio Hrun. apply IH in Hrun.
           destruct Hrun as [Hn [Hnc [extra [Hmsg [Hall Hkeys]]]]].
           split; [rewrite Hn, Hio; exact Hc|]. split; [exact Hnc|].
           exists (MsgTool (tc_id tc) (tc_name tc) text :: extra).
           split; [rewrite Hmsg, Hm, <- app_assoc; reflexivity|].
           split; [constructor; [reflexivity|exact Hall]|].
           intros He. simpl. f_equal. now apply Hkeys. }
         destruct r as [[result|nd]|ex].
         - eapply Hstep; [| |exact H]; reflexivity.
         - eapply Hstop; [| | |exact H]; [discriminate|exact Hc|reflexivity].
         - destruct ex;
             try (eapply Hstop; [| | |exact H];
                  [discriminate|exact Hc|reflexivity]).
           + eapply Hstep; [| |exact H]; reflexivity.
           + exfalso. now apply (Hne message). }
    + match type of H with
      | context [call_tool ?n ?a ?c ?i] =>
          pose proof (call_tool_no_chat n a c i) as Hc;
          pose proof (call_tool_not_chat_error n a c i) as Hne;
          destruct (call_tool n a c i) as [[c' io'] r]
      end. simpl in Hc, Hne.
      assert (Hstep : forall s1 text,
                 messages s1
                 = messages s ++ [MsgTool (tc_id tc) (tc_name tc) text] ->
                 io s1 = io' ->
                 execute_tools rest s1 = (s', e) ->
                 chat_calls (trace (io s')) = chat_calls (trace (io s))
                 /\ (forall m, e <> Some (ChatError m))
                 /\ exists extra,
                     messages s' = messages s ++ extra
                     /\ Forall (fun m => is_tool_message m = true) extra
                     /\ (e = None ->
                         map answered_call extra
                         = map call_key (tc :: rest))).
      { intros s1 text Hm Hio Hrun. apply IH in Hrun.
        destruct Hrun as [Hn [Hnc [extra [Hmsg [Hall Hkeys]]]]].
        split; [rewrite Hn, Hio; exact Hc|]. split; [exact Hnc|].
        exists (MsgTool (tc_id tc) (tc_name tc) text :: extra).
        split; [rewrite Hmsg, Hm, <- app_assoc; reflexivity|].
        split; [constructor; [reflexivity|exact Hall]|].
        intros He. simpl. f_equal. now apply Hkeys. }
      destruct r as [[result|nd]|ex].
      * eapply Hstep; [| |exact H]; reflexivity.
      * eapply Hstop; [| | |exact H]; [discriminate|exact Hc|reflexivity].
      * destruct ex;
          try (eapply Hstop; [| | |exact H];
               [discriminate|exact Hc|reflexivity]).
        -- eapply Hstep; [| |exact H]; reflexivity.
        -- exfalso. now apply (Hne message).
    + eapply Hstop; [| | |exact H];
        [destruct le; discriminate|reflexivity|reflexivity].
Qed.

(** A turn sends at most [remaining] chat requests. *)
Lemma turn_loop_calls remaining : forall before (s s' : Session E) o,
  turn_loop model remaining before s = (s', o) ->
  chat_calls (trace (io s')) <= chat_calls (trace (io s)) + remaining.
Proof.
  induction remaining as [|n IH]; intros before s s' o H; simpl in H.
  - injection H as <- <-. lia.
  - pose proof (chat_counts_one (messages s)
                  (get_tools_for_llm (tool_context s)) (io s)) as Hc.
    destruct (chat model _ _ (io s)) as [io' r]. simpl in Hc.
    destruct r as [[response|nd]|ex].
    + destruct (cb_choices response) as [[|choice choices]|];
        try (injection H as <- <-; simpl; lia).
      destruct (cm_tool_calls (ch_message choice)) as [[|tc tcs]|];
        try (injection H as <- <-; simpl; lia).
      destruct (execute_tools (tc :: tcs) _) as [s2 [e2|]] eqn:Hex;
        apply execute_tools_appends in Hex; destruct Hex as [Hn _];
        simpl in Hn.
      * injection H as <- <-. lia.
      * apply IH in H. lia.
    + injection H as <- <-. simpl. lia.
    + destruct ex; injection H as <- <-; simpl; lia.
Qed.

(** After a rollback the log is the log up to [before]. *)
Lemma turn_loop_rollback remaining : forall before (s s' : Session E),
  turn_loop model remaining before s = (s', RolledBack) ->
  before <= List.length (messages s) ->
  messages s' = firstn before (messages s).
Proof.
  induction remaining as [|n IH]; intros before s s' H Hlen; simpl in H.
  - discriminate.
  - destruct (chat model _ _ (io s)) as [io' r].
    destruct r as [[response|nd]|ex].
    + destruct (cb_choices response) as [[|choice choices]|];
        try discriminate.
      destruct (cm_tool_calls (ch_message choice)) as [[|tc tcs]|];
        try discriminate.
      destruct (execute_tools (tc :: tcs) _) as [s2 [e2|]] eqn:Hex;
        [discriminate|].
      apply execute_tools_appends in Hex.
      destruct Hex as [_ [_ [extra [Hmsg _]]]]. simpl in Hmsg.
      apply IH in H.
      * rewrite H, Hmsg, <- app_assoc.
        rewrite firstn_app.
        replace (before - List.length (messages s)) with 0 by lia.
        simpl. now rewrite app_nil_r.
      * rewrite Hmsg, !length_app. lia.
    + discriminate.
    + destruct ex; try discriminate. injection H as <-. reflexivity.
Qed.



(** When the model asks for tools every time, a turn that is not left by an
    exception uses all its iterations and appends no plain assistant
    message. *)
Lemma turn_loop_ceiling remaining : forall before (s s' : Session E) o,
  model_always_calls_tools E ->
  turn_loop model remaining before s = (s', o) ->
  (forall e, o <> Aborted e) ->
  o = CeilingReached
  /\ chat_calls (trace (io s')) = chat_calls (trace (io s)) + remaining
  /\ exists extra,
      messages s' = messages s ++ extra
      /\ Forall (fun m => is_plain_assistant m = false) extra.
Proof.
  induction remaining as [|n IH]; intros before s s' o HE H Hna; simpl in H.
  - injection H as <- <-. repeat split; [lia|]. exists [].
    rewrite app_nil_r. split; [reflexivity|constructor].
  - pose proof (chat_counts_one (messages s)
                  (get_tools_for_llm (tool_context s)) (io s)) as Hc.
    unfold chat, post_chat in *.
    specialize (HE (world (io s))
                   {| cp_model := model; cp_messages := messages s;
                      cp_tools :=
                        match get_tools_for_llm (tool_context s) with
                        | [] => None
                        | _ => Some (get_tools_for_llm (tool_context s))
                        end |}) as Hreply.
    destruct (chat_post E (world (io s)) _) as [w reply].
    simpl in Hreply, Hc.
    destruct reply as [| |ex|status [[body|nd]| |le]]; try discriminate Hreply.
    simpl in Hreply. apply andb_prop in Hreply. destruct Hreply as [Hok Hb].
    rewrite Hok in *. simpl in H, Hc.
    destruct (cb_choices body) as [[|choice choices]|]; try discriminate Hb.
    destruct (cm_tool_calls (ch_message choice)) as [[|tc tcs]|];
      try discriminate Hb.
    destruct (execute_tools (tc :: tcs) _) as [s2 [e2|]] eqn:Hex.
    + injection H as <- <-. exfalso. now apply (Hna e2).
    + apply execute_tools_appends in Hex.
      destruct Hex as [Hn [_ [extra [Hmsg [Htool _]]]]]. simpl in Hn, Hmsg.
      rewrite chat_calls_snoc_chat in Hn.
      apply IH in H; [|exact HE|exact Hna].
      destruct H as [Ho [Hcalls [extra' [Hmsg' Hplain]]]].
      split; [exact Ho|]. split; [lia|].
      eexists. split.
      * rewrite Hmsg', Hmsg, <- !app_assoc. reflexivity.
      * simpl. constructor; [reflexivity|].
        apply Forall_app. split; [|exact Hplain].
        eapply Forall_impl; [|exact Htool].
        intros m Hm. now destruct m.
Qed.

Lemma filter_all {A} (f : A -> bool) l :
  Forall (fun x => f x = true) l -> filter f l = l.
Proof.
  induction 1 as [|x l Hx _ IH]; simpl; [reflexivity|].
  now rewrite Hx, IH.
Qed.

Lemma requested_calls_tools extra rest :
  Forall (fun m => is_tool_message m = true) extra ->
  requested_calls (extra ++ rest) = requested_calls rest.
Proof.
  induction 1 as [|m l Hm _ IH]; simpl; [reflexivity|].
  destruct m; try discriminate. exact IH.
Qed.

(** In a turn that ends with an answer, without a response or at the
    ceiling, the tool messages appended answer the requested tool calls,
    one for one and in the same order. *)
Lemma turn_loop_tool_messages remaining : forall before (s s' : Session E) o,
  turn_loop model remaining before s = (s', o) ->
  o = Answered \/ o = NoResponse \/ o = CeilingReached ->
  exists extra,
    messages s' = messages s ++ extra
    /\ map answered_call (filter is_tool_message extra)
       = map call_key (requested_calls extra).
Proof.
  induction remaining as [|n IH]; intros before s s' o H Ho; simpl in H.
  - injection H as <- <-. exists []. now rewrite app_nil_r.
  - destruct (chat model _ _ (io s)) as [io' r].
    destruct r as [[response|nd]|ex].
    + destruct (cb_choices response) as [[|choice choices]|];
        try (injection H as <- <-; exists []; now rewrite app_nil_r).
      destruct (cm_tool_calls (ch_message choice)) as [[|tc tcs]|];
        try (injection H as <- <-; eexists; split; reflexivity).
      destruct (execute_tools (tc :: tcs) _) as [s2 [e2|]] eqn:Hex.
      * injection H as <- <-. destruct Ho as [Ho|[Ho|Ho]]; discriminate.
      * apply execute_tools_appends in Hex.
        destruct Hex as [_ [_ [extra [Hmsg [Htool Hkeys]]]]]. simpl in Hmsg.
        apply IH in H; [|exact Ho]. destruct H as [extra' [Hmsg' Hk']].
        eexists. split.
        -- rewrite Hmsg', Hmsg, <- !app_assoc. reflexivity.
        -- simpl. rewrite filter_app, map_app, (filter_all _ _ Htool).
           rewrite (requested_calls_tools _ _ Htool), map_app.
           rewrite Hk', (Hkeys eq_refl). reflexivity.
    + injection H as <- <-. destruct Ho as [Ho|[Ho|Ho]]; discriminate.
    + destruct ex; injection H as <- <-;
        destruct Ho as [Ho|[Ho|Ho]]; discriminate.
Qed.
End Turn.

(** In a completed turn the number of tool messages appended is the number
    of tool calls requested. *)
Lemma completed_turn_tool_messages E model user_input (s s' : Demo.Session E) o :
  Demo.run_turn model user_input s = (s', o) ->
  o = Demo.Answered \/ o = Demo.NoResponse \/ o = Demo.CeilingReached ->
  exists extra,
    Demo.messages s' = Demo.messages s ++ MsgUser user_input :: extra
    /\ map answered_call (filter is_tool_message extra)
       = map call_key (requested_calls extra)
    /\ List.length (filter is_tool_message extra)
       = List.length (requested_calls extra).
Proof.
  unfold Demo.run_turn. intros H Ho.
  apply turn_loop_tool_messages in H; [|exact Ho].
  destruct H as [extra [Hmsg Hk]]. exists extra. simpl in Hmsg.
  split; [rewrite Hmsg, <- app_assoc; reflexivity|]. split; [exact Hk|].
  rewrite <- (length_map answered_call), Hk. apply length_map.
Qed.

(** [chat] raises [ChatError] exactly for a response with an error status
    whose body decodes to a dictionary with an error member that is a
    dictionary. *)
Lemma chat_error_origin E model msgs tools (io : IO E) :
  (exists message,
      snd (Demo.chat model msgs tools io) = Raise (ChatError message))
  <-> exists status body error,
      snd (chat_post E (world io)
             {| cp_model := model; cp_messages := msgs;
                cp_tools := match tools with [] => None | _ => Some tools end |})
      = ReplyStatus status (Loaded (Dict body))
      /\ ok status = false
      /\ cb_error body = Some (Dict error).
Proof.
  unfold Demo.chat, post_chat.
  destruct (chat_post E (world io) _) as [w reply]. simpl.
  split.
  - intros [message H].
    destruct reply as [| |e|status body]; try discriminate.
    destruct (ok status) eqn:Hok; simpl in H.
    + destruct body as [r| |e]; simpl in H; try discriminate.
      destruct e; discriminate.
    + destruct body as [[b|v]| |e]; simpl in H; try discriminate.
      * destruct (cb_error b) as [[error|v]|] eqn:He; simpl in H;
          try discriminate.
        now exists status, b, error.
      * destruct (has_member "error" v) as [[|]|]; simpl in H; discriminate.
      * destruct e; simpl in H; discriminate.
  - intros [status [body [error [-> [Hok He]]]]].
    rewrite Hok, He. simpl. eexists. reflexivity.
Qed.




(** A turn sends at most [max_iterations] = 10 chat requests.  When every
    chat request is answered with tool calls and no exception leaves the
    turn, the loop stops after exactly 10 chat requests and no plain
    assistant message is appended. *)
Lemma turn_chat_calls_bounded E model user_input (s s' : Demo.Session E) o :
  Demo.run_turn model user_input s = (s', o) ->
  chat_calls (trace (Demo.io s')) <= chat_calls (trace (Demo.io s)) + 10
  /\ (model_always_calls_tools E ->
      (forall e, o <> Demo.Aborted e) ->
      o = Demo.CeilingReached
      /\ chat_calls (trace (Demo.io s')) = chat_calls (trace (Demo.io s)) + 10
      /\ exists extra,
          Demo.messages s' = Demo.messages s ++ MsgUser user_input :: extra
          /\ Forall (fun m => is_plain_assistant m = false) extra).
Proof.
  unfold Demo.run_turn. intros H. split.
  - apply turn_loop_calls in H. exact H.
  - intros HE Hna. apply turn_loop_ceiling in H; [|exact HE|exact Hna].
    destruct H as [Ho [Hc [extra [Hmsg Hplain]]]]. simpl in Hc, Hmsg.
    split; [exact Ho|]. split; [exact Hc|]. exists extra.
    split; [rewrite Hmsg, <- app_assoc; reflexivity|exact Hplain].
Qed.

(** The model asks for two tools at every request and the gateway answers
    every call: the turn stops at the ceiling. *)
Lemma turn_reaches_ceiling :
  snd (Demo.run_turn "openai/gpt-4o" "hello" session_tools_ok)
  = Demo.CeilingReached
  /\ chat_calls
       (trace (Demo.io
                 (fst (Demo.run_turn "openai/gpt-4o" "hello" session_tools_ok))))
     = chat_calls (trace (Demo.io session_tools_ok)) + 10.
Proof.
  assert (H : model_always_calls_tools env_tools_ok)
    by (intros w payload; reflexivity).
  assert (Hna : forall e,
             snd (Demo.run_turn "openai/gpt-4o" "hello" session_tools_ok)
             <> Demo.Aborted e)
    by (intros e; vm_compute; discriminate).
  destruct (proj2 (turn_chat_calls_bounded env_tools_ok "openai/gpt-4o" "hello"
                     session_tools_ok _ _ (surjective_pairing _)) H Hna)
    as [Ho [Hc _]].
  split; [exact Ho|exact Hc].
Qed.

(** C2 at its failing input.  Every chat request is answered with two tool
    calls, and the gateway answers the first tool call with status 500.
    The [HTTPError] of [raise_for_status] is not caught by [_request] nor
    by the tool loop: it leaves the turn after one chat request instead of
    ten, with no tool message for the two calls requested, and the loop
    does not stop at its ceiling. *)
Theorem ceiling_not_reached_after_http_error :
  model_always_calls_tools env_tools_500
  /\ (let r := Demo.run_turn "openai/gpt-4o" "hello" session_tools_500 in
      snd r = Demo.Aborted (HTTPError 500)
      /\ snd r <> Demo.CeilingReached
      /\ chat_calls (trace (Demo.io (fst r))) = 1
      /\ chat_calls (trace (Demo.io (fst r)))
         <> chat_calls (trace (Demo.io session_tools_500)) + Demo.max_iterations
      /\ Demo.messages (fst r)
         = [system_message; MsgUser "hello";
            MsgAssistant None (Some [call_search; call_calculator])]).
Proof.
  split; [intros w payload; reflexivity|].
  repeat split; try reflexivity; discriminate.
Qed.

(** C7 at its failing inputs.  The model requests two tool calls and the
    gateway answers the first with status 500, or with status 200 and a
    body that is not JSON: [_request] lets the exception through, no tool
    message is appended for either call, the second call is never sent, and
    the turn ends. *)
Theorem tool_transport_error_aborts_turn :
  (let r := Demo.run_turn "openai/gpt-4o" "hello" session_tools_500 in
   snd r = Demo.Aborted (HTTPError 500)
   /\ Demo.messages (fst r)
      = [system_message; MsgUser "hello";
         MsgAssistant None (Some [call_search; call_calculator])]
   /\ List.length (filter is_tool_message (Demo.messages (fst r))) = 0
   /\ List.length (requested_calls (Demo.messages (fst r))) = 2
   /\ List.length (trace (Demo.io (fst r))) = 2)
  /\ (let r := Demo.run_turn "openai/gpt-4o" "hello" session_tools_garbled in
      snd r = Demo.Aborted JSONDecodeError
      /\ List.length (filter is_tool_message (Demo.messages (fst r))) = 0
      /\ List.length (requested_calls (Demo.messages (fst r))) = 2).
Proof.
  repeat split.
Qed.

(* ================================================================== *)
(** * Further properties of the tool contexts *)

Section ContextStores.
Context {V : Type}.
Implicit Types (d : dict V) (k : string) (v : V).

Lemma get_app k d d' :
  get k (d ++ d') = match get k d with Some v => Some v | None => get k d' end.
Proof.
  induction d as [|[k0 v0] d IH]; simpl; [reflexivity|].
  destruct (k0 =? k); [reflexivity|exact IH].
Qed.

Lemma get_None_mem k d : get k d = None <-> mem k d = false.
Proof.
  unfold mem. induction d as [|[k0 v0] d IH]; simpl; [tauto|].
  destruct (k0 =? k); simpl; [split; discriminate|exact IH].
Qed.

Lemma get_set_same k v d : get k (set k v d) = Some v.
Proof.
  unfold set. destruct (mem k d) eqn:Hm.
  - unfold mem in Hm. induction d as [|[k0 v0] d IH]; simpl in *;
      [discriminate|].
    destruct (k0 =? k) eqn:Hk; simpl.
    + now rewrite String.eqb_refl.
    + rewrite Hk. apply IH. exact Hm.
  - rewrite get_app. apply get_None_mem in Hm. rewrite Hm. simpl.
    now rewrite String.eqb_refl.
Qed.

Lemma get_set_other k k' v d : k <> k' -> get k' (set k v d) = get k' d.
Proof.
  intros Hne. unfold set. destruct (mem k d).
  - induction d as [|[k0 v0] d IH]; simpl; [reflexivity|].
    destruct (k0 =? k) eqn:Hk; simpl.
    + apply String.eqb_eq in Hk. subst k0.
      apply String.eqb_neq in Hne. now rewrite Hne.
    + destruct (k0 =? k'); [reflexivity|exact IH].
  - rewrite get_app. destruct (get k' d); [reflexivity|]. simpl.
    apply String.eqb_neq in Hne. now rewrite Hne.
Qed.

Lemma keys_app d d' : keys (d ++ d') = keys d ++ keys d'.
Proof. unfold keys. apply map_app. Qed.

Lemma keys_set k v d :
  keys (set k v d) = if mem k d then keys d else keys d ++ [k].
Proof.
  destruct (mem k d) eqn:Hm; [now apply keys_set_present|].
  unfold set. rewrite Hm. apply keys_app.
Qed.

Lemma NoDup_keys_set k v d : NoDup (keys d) -> NoDup (keys (set k v d)).
Proof.
  intros Hd. rewrite keys_set. destruct (mem k d) eqn:Hm; [exact Hd|].
  apply NoDup_app; [exact Hd|repeat constructor; intros []|].
  intros x Hx [<-|[]].
  apply mem_In in Hx. congruence.
Qed.
End ContextStores.

Section DemoStore.
Import Demo.

(** What [add_tools] does to the dictionary and to [added]: new entries go
    to the end, under names that are not empty, were not keys before and
    differ from each other; [added] receives exactly those names. *)
Lemma add_tools_extends tools : forall d added,
  exists more,
    fst (add_tools tools d added) = d ++ more
    /\ snd (add_tools tools d added) = added ++ keys more
    /\ NoDup (keys more)
    /\ Forall (fun kv => mem (fst kv) d = false /\ fst kv <> ""
                         /\ fn_name (snd kv) = fst kv) more.
Proof.
  induction tools as [|t rest IH]; intros d added; simpl.
  - exists []. rewrite !app_nil_r. repeat split; constructor.
  - destruct (rt_name t) as [n|]; [|apply IH].
    destruct (n =? "") eqn:Hempty; simpl; [apply IH|].
    destruct (mem n d) eqn:Hm; simpl; [apply IH|].
    destruct (IH (d ++ [(n, to_llm_format n t)]) (added ++ [n]))
      as [more [Hd [Ha [Hnd Hall]]]].
    exists ((n, to_llm_format n t) :: more).
    rewrite Hd, Ha, <- !app_assoc. simpl. repeat split.
    + constructor; [|exact Hnd].
      intros Hin. apply in_map_iff in Hin. destruct Hin as [[k v] [Hk Hin]].
      simpl in Hk. subst k.
      rewrite Forall_forall in Hall. destruct (Hall _ Hin) as [Hmem _].
      simpl in Hmem. rewrite mem_app, mem_singleton, String.eqb_refl in Hmem.
      rewrite orb_true_r in Hmem. discriminate.
    + constructor.
      * simpl. split; [exact Hm|]. split; [now apply String.eqb_neq|reflexivity].
      * eapply Forall_impl; [|exact Hall]. intros [k v] [Hmem Hrest].
        split; [|exact Hrest]. simpl in *. rewrite mem_app in Hmem.
        now apply orb_false_elim in Hmem.
Qed.

Lemma add_tools_get tools : forall d added k,
  get k (fst (add_tools tools d added))
  = match get k d with
    | Some v => Some v
    | None => first_format tools k
    end.
Proof.
  induction tools as [|t rest IH]; intros d added k; simpl.
  - now destruct (get k d).
  - destruct (rt_name t) as [n|]; [|apply IH].
    destruct (n =? "") eqn:Hempty; simpl; [apply IH|].
    destruct (mem n d) eqn:Hm; simpl.
    + rewrite IH. destruct (get k d) eqn:Hg; [reflexivity|].
      destruct (n =? k) eqn:Hk; [|reflexivity].
      apply String.eqb_eq in Hk. subst k.
      apply get_None_mem in Hg. congruence.
    + rewrite IH, get_app. destruct (get k d); [reflexivity|]. simpl.
      destruct (n =? k) eqn:Hk; [|reflexivity].
      apply String.eqb_eq in Hk. now subst k.
Qed.
End DemoStore.

(** X1.  [add_tools_from_search] returns exactly the names it has added:
    the keys of the context afterwards are the keys before followed by the
    returned names, which are not empty, were not in the context and differ
    from each other; the count shown by [get_stats] grows by their number.
    A text that is not JSON adds nothing. *)
Theorem added_names_account_for_growth E ctx text :
  let ctx' := fst (Demo.add_tools_from_search E ctx text) in
  let added := snd (Demo.add_tools_from_search E ctx text) in
  keys (Demo.discovered_tools ctx') = keys (Demo.discovered_tools ctx) ++ added
  /\ NoDup added
  /\ Forall (fun name => name <> ""
                         /\ mem name (Demo.discovered_tools ctx) = false
                         /\ Demo.is_known_tool ctx' name = true) added
  /\ Demo.total ctx' = Demo.total ctx + List.length added
  /\ (json_loads_search E text = None -> ctx' = ctx /\ added = []).
Proof.
  unfold Demo.add_tools_from_search.
  destruct (json_loads_search E text) as [result|]; simpl.
  - destruct (add_tools_extends (or_default [] (sr_tools result))
                (Demo.discovered_tools ctx) [])
      as [more [Hd [Ha [Hnd Hall]]]].
    destruct (Demo.add_tools _ _ _) as [d added]. simpl in *. subst d added.
    split; [apply keys_app|]. split; [exact Hnd|].
    split; [|split; [|discriminate]].
    + unfold keys. rewrite Forall_map. rewrite Forall_forall in *.
      intros [k v] Hin. destruct (Hall _ Hin) as [Hm [Hne _]]. simpl in *.
      split; [exact Hne|]. split; [exact Hm|].
      unfold Demo.is_known_tool. simpl. rewrite mem_app.
      replace (mem k more) with true; [now rewrite !orb_true_r|].
      symmetry. apply mem_In. apply in_map_iff. now exists (k, v).
    + unfold Demo.total, keys. simpl. rewrite length_app, length_map. lia.
  - split; [now rewrite app_nil_r|]. split; [constructor|].
    split; [constructor|]. split; [unfold Demo.total; simpl; lia|].
    intros _. now destruct ctx.
Qed.

(** X2.  The demo keeps the first definition of a name: a descriptor that
    is in the context is never replaced, the tool list offered before is a
    prefix of the list offered after a merge, and a new name gets the
    descriptor built from the first entry of the result with that name. *)
Theorem demo_merge_keeps_first E ctx text :
  let ctx' := fst (Demo.add_tools_from_search E ctx text) in
  (exists more,
      Demo.get_tools_for_llm ctx' = Demo.get_tools_for_llm ctx ++ more)
  /\ (forall k,
         get k (Demo.discovered_tools ctx')
         = match get k (Demo.discovered_tools ctx) with
           | Some v => Some v
           | None =>
               match json_loads_search E text with
               | Some result => first_format (or_default [] (sr_tools result)) k
               | None => None
               end
           end).
Proof.
  simpl. rewrite add_tools_from_search_discovered. split.
  - unfold Demo.get_tools_for_llm. rewrite add_tools_from_search_discovered.
    destruct (json_loads_search E text) as [result|].
    + destruct (add_tools_extends (or_default [] (sr_tools result))
                  (Demo.discovered_tools ctx) []) as [more [Hd _]].
      rewrite Hd. exists (values more). unfold values.
      now rewrite map_app.
    + exists []. now rewrite app_nil_r.
  - intros k. destruct (json_loads_search E text) as [result|].
    + apply add_tools_get.
    + now destruct (get k (Demo.discovered_tools ctx)).
Qed.

(** X3.  The agent keeps the last definition of a name: after the merge
    loop of [search_tools], looking a name up gives the cleaned form of the
    last entry of the result with that name, and what was stored before for
    every other name. *)
Theorem agent_merge_keeps_last tools : forall d k,
  get k (Agent.add_to_context tools d)
  = match last_clean tools k with
    | Some v => Some v
    | None => get k d
    end.
Proof.
  induction tools as [|t rest IH]; intros d k; simpl; [reflexivity|].
  destruct (rt_name t) as [n|].
  - destruct (n =? "") eqn:Hempty; simpl.
    + rewrite IH. now destruct (last_clean rest k).
    + rewrite IH. destruct (last_clean rest k); [reflexivity|].
      destruct (n =? k) eqn:Hk.
      * apply String.eqb_eq in Hk. subst k. apply get_set_same.
      * apply get_set_other. now apply String.eqb_neq.
  - rewrite IH. now destruct (last_clean rest k).
Qed.

(** ** What every reachable context satisfies *)

Section ReachableContexts.

(** The demo's dictionary: distinct keys, each descriptor under its own
    name, no empty name. *)
Definition demo_store_ok (d : dict LLMTool) : Prop :=
  NoDup (keys d)
  /\ Forall (fun kv => fn_name (snd kv) = fst kv /\ fst kv <> "") d.

(** The agent's dictionary: distinct keys, each tool under its own name, no
    empty name, no private member. *)
Definition agent_store_ok (d : dict RawTool) : Prop :=
  NoDup (keys d)
  /\ Forall (fun kv => rt_name (snd kv) = Some (fst kv) /\ fst kv <> ""
                       /\ no_private_key (snd kv)) d.

Lemma add_tools_store_ok tools d added :
  demo_store_ok d -> demo_store_ok (fst (Demo.add_tools tools d added)).
Proof.
  intros [Hnd Hall].
  destruct (add_tools_extends tools d added) as [more [Hd [_ [Hnd' Hall']]]].
  rewrite Hd. split.
  - rewrite keys_app. apply NoDup_app; [exact Hnd|exact Hnd'|].
    intros k Hk Hk'. apply in_map_iff in Hk'.
    destruct Hk' as [[k0 v0] [Heq Hin]]. simpl in Heq. subst k0.
    rewrite Forall_forall in Hall'. destruct (Hall' _ Hin) as [Hm _].
    simpl in Hm. apply mem_In in Hk. congruence.
  - apply Forall_app. split; [exact Hall|].
    eapply Forall_impl; [|exact Hall']. intros kv [_ [Hne Hn]]. now split.
Qed.

Lemma apply_ops_store_ok E ops : forall ctx,
  demo_store_ok (Demo.discovered_tools ctx) ->
  demo_store_ok (Demo.discovered_tools (apply_ops E ops ctx)).
Proof.
  induction ops as [|op ops IH]; intros ctx H; simpl; [exact H|].
  apply IH. destruct op as [text|]; simpl.
  - rewrite add_tools_from_search_discovered.
    destruct (json_loads_search E text); [|exact H].
    now apply add_tools_store_ok.
  - split; constructor.
Qed.

Lemma clean_tool_no_private tool : no_private_key (Agent.clean_tool tool).
Proof.
  unfold no_private_key, Agent.clean_tool. simpl.
  apply Forall_forall. intros kv Hin. apply filter_In in Hin.
  destruct Hin as [_ H]. now apply negb_true_iff in H.
Qed.

Lemma set_store_ok k tool d :
  rt_name tool = Some k -> k <> "" ->
  agent_store_ok d -> agent_store_ok (set k (Agent.clean_tool tool) d).
Proof.
  intros Hn Hk [Hnd Hall]. split; [now apply NoDup_keys_set|].
  assert (Hnew : rt_name (Agent.clean_tool tool) = Some k /\ k <> ""
                 /\ no_private_key (Agent.clean_tool tool)).
  { split; [exact Hn|]. split; [exact Hk|apply clean_tool_no_private]. }
  unfold set. destruct (mem k d).
  - rewrite Forall_map. eapply Forall_impl; [|exact Hall].
    intros [k0 v0] H0. simpl. destruct (k0 =? k); [exact Hnew|exact H0].
  - apply Forall_app. split; [exact Hall|]. now constructor.
Qed.

Lemma add_to_context_store_ok tools : forall d,
  agent_store_ok d -> agent_store_ok (Agent.add_to_context tools d).
Proof.
  induction tools as [|t rest IH]; intros d Hd; simpl; [exact Hd|].
  destruct (rt_name t) as [n|] eqn:Hn; [|now apply IH].
  destruct (n =? "") eqn:Hempty; simpl; [now apply IH|].
  apply IH. apply set_store_ok; [exact Hn| |exact Hd].
  now apply String.eqb_neq.
Qed.

(** An invariant of the dictionary that the merge loop keeps holds after
    every sequence of operations of the agent. *)
Lemma agent_ops_invariant (P : dict RawTool -> Prop) E endpoint :
  P [] ->
  (forall tools d, P d -> P (Agent.add_to_context tools d)) ->
  forall ops sio,
    P (Agent.discovered_tools (fst sio)) ->
    P (Agent.discovered_tools (fst (agent_ops E endpoint ops sio))).
Proof.
  intros Hnil Hadd. induction ops as [|op ops IH]; intros sio Hd; simpl;
    [exact Hd|].
  apply IH. destruct sio as [st io]. simpl in Hd.
  destruct op as [n v|q c n a|n a|]; simpl.
  - unfold Agent.initialize.
    match goal with
    | |- context [Agent._send_request ?ep ?m ?p st io] =>
        pose proof (send_request_discovered E ep m p st io) as Hs;
        destruct (Agent._send_request ep m p st io) as [[st' io'] [[r|nd]|e]]
    end; simpl in *; now rewrite Hs.
  - unfold Agent.search_tools.
    destruct (negb (Agent.initialized st)); [exact Hd|].
    match goal with
    | |- context [Agent._send_request ?ep ?m ?p st io] =>
        pose proof (send_request_discovered E ep m p st io) as Hs;
        destruct (Agent._send_request ep m p st io) as [[st' io'] [[r|nd]|e]]
    end; simpl in *; [|now rewrite Hs|now rewrite Hs].
    destruct a; simpl; [|now rewrite Hs].
    match goal with
    | |- context [Agent.parse_blocks E ?c []] =>
        destruct (Agent.parse_blocks E c []) as [|t ts]
    end; simpl; [now rewrite Hs|].
    apply (Hadd (t :: ts) (Agent.discovered_tools st')). now rewrite Hs.
  - unfold Agent.call_tool.
    destruct (negb (Agent.initialized st)); [exact Hd|].
    destruct (negb (n =? "tool_search") && _); [exact Hd|].
    rewrite send_request_discovered. exact Hd.
  - exact Hnil.
Qed.

Lemma agent_ops_store_ok E endpoint ops io :
  agent_store_ok
    (Agent.discovered_tools (fst (agent_ops E endpoint ops (Agent.init, io)))).
Proof.
  apply (agent_ops_invariant agent_store_ok).
  - split; constructor.
  - intros tools d. apply add_to_context_store_ok.
  - split; constructor.
Qed.

Lemma store_names (d : dict LLMTool) :
  Forall (fun kv => fn_name (snd kv) = fst kv /\ fst kv <> "") d ->
  map fn_name (values d) = keys d.
Proof.
  unfold values, keys. rewrite map_map. intros H. apply map_ext_in.
  intros kv Hin. rewrite Forall_forall in H. now destruct (H kv Hin).
Qed.

Lemma agent_store_names (d : dict RawTool) :
  Forall (fun kv => rt_name (snd kv) = Some (fst kv) /\ fst kv <> ""
                    /\ no_private_key (snd kv)) d ->
  map rt_name (values d) = map Some (keys d).
Proof.
  unfold values, keys. rewrite !map_map. intros H. apply map_ext_in.
  intros kv Hin. rewrite Forall_forall in H. now destruct (H kv Hin).
Qed.
Lemma NoDup_map_Some {A} (l : list A) : NoDup l -> NoDup (map Some l).
Proof.
  induction 1 as [|x l Hx _ IH]; simpl; constructor; [|exact IH].
  rewrite in_map_iff. intros [y [Hy Hin]]. injection Hy as ->. contradiction.
Qed.
End ReachableContexts.

(** X4.  The discovered tools offered to the model have names that are not
    empty and differ from each other, after any sequence of searches and
    clears, in the demo and in the agent. *)
Theorem discovered_names_distinct E :
  (forall ops,
      let d := Demo.discovered_tools (apply_ops E ops Demo.init) in
      NoDup (map fn_name (values d))
      /\ Forall (fun tool => fn_name tool <> "") (values d))
  /\ (forall endpoint ops io,
         let d := Agent.discovered_tools
                    (fst (agent_ops E endpoint ops (Agent.init, io))) in
         NoDup (map rt_name (values d))
         /\ Forall (fun tool => exists name,
                        rt_name tool = Some name /\ name <> "") (values d)).
Proof.
  split.
  - intros ops d.
    destruct (apply_ops_store_ok E ops Demo.init) as [Hnd Hall];
      [split; constructor|]. fold d in Hnd, Hall.
    split; [now rewrite store_names|].
    unfold values. rewrite Forall_map. eapply Forall_impl; [|exact Hall].
    intros kv [Hn Hne]. congruence.
  - intros endpoint ops io d.
    destruct (agent_ops_store_ok E endpoint ops io) as [Hnd Hall].
    fold d in Hnd, Hall. split.
    + rewrite agent_store_names by exact Hall.
      now apply NoDup_map_Some.
    + unfold values. rewrite Forall_map. eapply Forall_impl; [|exact Hall].
      intros kv [Hn [Hne _]]. now exists (fst kv).
Qed.

(** X5.  In the demo, [is_known_tool] is true of exactly the names of the
    tools offered to the model, after any sequence of searches and
    clears. *)
Theorem known_tools_are_offered E ops name :
  let ctx := apply_ops E ops Demo.init in
  Demo.is_known_tool ctx name = true
  <-> In name (map fn_name (Demo.get_tools_for_llm ctx)).
Proof.
  intros ctx.
  destruct (apply_ops_store_ok E ops Demo.init) as [_ Hall];
    [split; constructor|]. fold ctx in Hall.
  unfold Demo.is_known_tool, Demo.get_tools_for_llm. simpl.
  rewrite store_names by exact Hall. rewrite orb_true_iff, String.eqb_eq.
  rewrite mem_In. split; intros [H|H]; auto.
Qed.

(** X6.  The agent never stores private metadata: after any sequence of
    operations, no tool of the context has a member whose key starts with
    an underscore. *)
Theorem no_private_metadata_in_context E endpoint ops io :
  Forall no_private_key
    (Agent.get_context_tools (fst (agent_ops E endpoint ops (Agent.init, io)))).
Proof.
  unfold Agent.get_context_tools. constructor.
  - unfold no_private_key. simpl. repeat constructor.
  - destruct (agent_ops_store_ok E endpoint ops io) as [_ Hall].
    unfold values. rewrite Forall_map. eapply Forall_impl; [|exact Hall].
    now intros kv [_ [_ H]].
Qed.

(** ** The agent's requests and its function-calling format *)

Section AgentRequests.
Variable E : Env.
Variable endpoint : string.

(** Every call of [_send_request] sends one request, under the next id, and
    changes nothing else in the agent. *)
Lemma send_request_effect method params st (io : IO E) :
  let r := Agent._send_request endpoint method params st io in
  fst (fst r)
  = {| Agent.request_id := Agent.request_id st + 1;
       Agent.initialized := Agent.initialized st;
       Agent.server_info := Agent.server_info st;
       Agent.capabilities := Agent.capabilities st;
       Agent.discovered_tools := Agent.discovered_tools st |}
  /\ trace (snd (fst r))
     = trace io ++ [EvMcp {| rq_id := Agent.request_id st + 1;
                             rq_method := method;
                             rq_params := payload_params params |}].
Proof.
  unfold Agent._send_request, Agent._next_id, post_mcp. simpl.
  destruct (mcp_post E (world io) _) as [w reply].
  destruct reply as [| |ex|status body]; simpl; try (split; reflexivity).
  destruct (raises_for_status status); [split; reflexivity|].
  destruct body as [[b|nd]| |le]; try (split; reflexivity).
  destruct (rb_error b) as [[error|nd]|]; split; reflexivity.
Qed.

Lemma get_filter_public k (d : dict Json) :
  startswith_char "_"%char k = false ->
  get k (filter (fun kv => negb (startswith_char "_"%char (fst kv))) d)
  = get k d.
Proof.
  intros Hk. induction d as [|[k0 v0] d IH]; simpl; [reflexivity|].
  destruct (startswith_char "_"%char k0) eqn:H0; simpl.
  - destruct (k0 =? k) eqn:Heq; [|exact IH].
    apply String.eqb_eq in Heq. congruence.
  - destruct (k0 =? k); [reflexivity|exact IH].
Qed.

Lemma llm_tools_loop_named tools : forall acc,
  Forall (fun tool => rt_name tool <> None) tools ->
  exists l,
    Agent.llm_tools_loop tools acc = Some (acc ++ l)
    /\ map (fun t => Some (fn_name t)) l = map rt_name tools.
Proof.
  induction tools as [|t rest IH]; intros acc H; simpl.
  - exists []. now rewrite app_nil_r.
  - inversion H as [|? ? Ht Hrest]; subst. unfold Agent.llm_tool.
    destruct (rt_name t) as [n|] eqn:Hn; [|congruence].
    destruct (IH (acc ++ [{| fn_name := n;
                             fn_description :=
                               get_default "description" (JStr "") (rt_fields t);
                             fn_parameters :=
                               get_default "inputSchema"
                                 (JObj [("type", JStr "object");
                                        ("properties", JObj [])])
                                 (rt_fields t);
                             fn_input_examples :=
                               get "inputExamples" (rt_fields t) |}]) Hrest)
      as [l [Hl Hnames]].
    eexists. split; [rewrite Hl, <- app_assoc; reflexivity|].
    simpl. now rewrite Hnames.
Qed.
End AgentRequests.

(** X7.  [get_context_tools_for_llm] does not fail on a context reached by
    the agent's operations ([tool["name"]] is always there), and the list it
    returns has the names of [get_context_tools], in the same order.  For a
    discovered tool the descriptor is the one the demo builds from the raw
    entry: dropping the private members changes none of the members the
    format reads. *)
Theorem agent_llm_format E endpoint ops io :
  (let st := fst (agent_ops E endpoint ops (Agent.init, io)) in
   exists l,
     Agent.get_context_tools_for_llm st = Some l
     /\ map (fun t => Some (fn_name t)) l
        = map rt_name (Agent.get_context_tools st))
  /\ (forall tool name,
         rt_name tool = Some name ->
         Agent.llm_tool (Agent.clean_tool tool)
         = Some (Demo.to_llm_format name tool)).
Proof.
  split.
  - intros st. unfold Agent.get_context_tools_for_llm.
    destruct (llm_tools_loop_named (Agent.get_context_tools st) [])
      as [l [Hl Hn]]; [|exists l; split; assumption].
    unfold Agent.get_context_tools. constructor; [discriminate|].
    destruct (agent_ops_store_ok E endpoint ops io) as [_ Hall].
    unfold values. rewrite Forall_map. eapply Forall_impl; [|exact Hall].
    intros kv [Hn _]. fold st. congruence.
  - intros tool name Hn. unfold Agent.llm_tool, Demo.to_llm_format. simpl.
    rewrite Hn. unfold get_default.
    rewrite !get_filter_public by reflexivity. reflexivity.
Qed.

(** A tool with a private member, cleaned and converted. *)
Lemma agent_llm_format_witness :
  Agent.llm_tool
    (Agent.clean_tool
       {| rt_name := Some "calculator";
          rt_fields := [("_score", JNum 3); ("description", JStr "Adds")] |})
  = Some (Demo.to_llm_format "calculator"
            {| rt_name := Some "calculator";
               rt_fields := [("_score", JNum 3); ("description", JStr "Adds")] |}).
Proof.
  apply (proj2 (agent_llm_format env_offline "http://localhost:8080/mcp" []
                  io_offline)).
  reflexivity.
Defined.

(** X8.  On an initialized agent reached by its operations, [call_tool]
    sends a request exactly for the names of the tools in context: for such
    a name one [tools/call] request goes out under the next id; for any
    other name nothing is sent and the error is the one about the
    context. *)
Theorem agent_call_sent_iff_in_context E endpoint ops io name arguments :
  let st := fst (agent_ops E endpoint ops (Agent.init, io)) in
  let io1 := snd (agent_ops E endpoint ops (Agent.init, io)) in
  let r := Agent.call_tool endpoint name arguments st io1 in
  Agent.initialized st = true ->
  (In (Some name) (map rt_name (Agent.get_context_tools st)) ->
   trace (snd (fst r))
   = trace io1
     ++ [EvMcp {| rq_id := Agent.request_id st + 1;
                  rq_method := "tools/call";
                  rq_params :=
                    Some (JObj [("name", JStr name);
                                ("arguments",
                                 if truthy arguments then arguments
                                 else JObj [])]) |}])
  /\ (~ In (Some name) (map rt_name (Agent.get_context_tools st)) ->
      r = (st, io1,
           Raise (MCPError (-1)
                    ("Tool '" ++ name
                     ++ "' not in context. Use search_tools() to discover it first.")%string))).
Proof.
  intros st io1 r Hinit. subst r.
  destruct (agent_ops_store_ok E endpoint ops io) as [_ Hall].
  fold st in Hall.
  assert (Hoffered : In (Some name) (map rt_name (Agent.get_context_tools st))
                     <-> name = "tool_search"
                         \/ mem name (Agent.discovered_tools st) = true).
  { unfold Agent.get_context_tools. simpl.
    rewrite agent_store_names by exact Hall. rewrite mem_In, in_map_iff.
    split.
    - intros [H|[k [Hk Hin]]]; [left; congruence|right; congruence].
    - intros [H|H]; [left; congruence|right; now exists name]. }
  unfold Agent.call_tool. rewrite Hinit. simpl. split.
  - intros Hin. apply Hoffered in Hin.
    assert (Hguard : negb (name =? "tool_search")
                     && negb (mem name (Agent.discovered_tools st)) = false).
    { destruct Hin as [->|Hm]; [reflexivity|]. rewrite Hm.
      apply andb_false_r. }
    rewrite Hguard.
    apply (send_request_effect E endpoint "tools/call").
  - intros Hnot.
    assert (Hguard : negb (name =? "tool_search")
                     && negb (mem name (Agent.discovered_tools st)) = true).
    { destruct (name =? "tool_search") eqn:Hn.
      - apply String.eqb_eq in Hn. exfalso. apply Hnot, Hoffered. now left.
      - destruct (mem name (Agent.discovered_tools st)) eqn:Hm; [|reflexivity].
        exfalso. apply Hnot, Hoffered. now right. }
    rewrite Hguard. reflexivity.
Qed.

(** After [initialize] on an agent whose gateway answers, a call of a tool
    that was never discovered. *)
Lemma agent_call_sent_iff_in_context_witness :
  Agent.call_tool (E := env_tools_ok) "http://localhost:8080/mcp"
    "calculator" (JObj [])
    (fst (agent_ops env_tools_ok "http://localhost:8080/mcp"
            [AgInitialize "agent" "1.0"]
            (Agent.init, @mkIO env_tools_ok 0%nat [])))
    (snd (agent_ops env_tools_ok "http://localhost:8080/mcp"
            [AgInitialize "agent" "1.0"]
            (Agent.init, @mkIO env_tools_ok 0%nat [])))
  = (fst (agent_ops env_tools_ok "http://localhost:8080/mcp"
            [AgInitialize "agent" "1.0"]
            (Agent.init, @mkIO env_tools_ok 0%nat [])),
     snd (agent_ops env_tools_ok "http://localhost:8080/mcp"
            [AgInitialize "agent" "1.0"]
            (Agent.init, @mkIO env_tools_ok 0%nat [])),
     Raise (MCPError (-1)
              "Tool 'calculator' not in context. Use search_tools() to discover it first.")).
Proof.
  apply (proj2 (agent_call_sent_iff_in_context env_tools_ok
                  "http://localhost:8080/mcp" [AgInitialize "agent" "1.0"]
                  (@mkIO env_tools_ok 0%nat []) "calculator" (JObj [])
                  eq_refl)).
  vm_compute. intros [H|[]]. discriminate H.
Defined.

(* ================================================================== *)
(** * Further properties of the demo's client and turn *)

Section ClientRequests.
Variable E : Env.
Import Demo.

(** Every call of [_request] sends one request, under the next id, and
    changes nothing else in the client. *)
Lemma request_effect method params c (io : IO E) :
  let r := _request method params c io in
  fst (fst r)
  = {| endpoint := endpoint c; request_id := request_id c + 1;
       initialized := initialized c; server_info := server_info c |}
  /\ trace (snd (fst r))
     = trace io ++ [EvMcp {| rq_id := request_id c + 1; rq_method := method;
                             rq_params := payload_params params |}].
Proof.
  unfold _request, _next_id, post_mcp. simpl.
  destruct (mcp_post E (world io) _) as [w reply].
  destruct reply as [| |ex|status body]; simpl; try (split; reflexivity).
  destruct (status =? 401)%Z; [split; reflexivity|].
  destruct (status =? 404)%Z; [split; reflexivity|].
  destruct (raises_for_status status); [split; reflexivity|].
  destruct body as [[b|nd]| |le]; try (split; reflexivity).
  destruct (rb_error b) as [[error|nd]|]; split; reflexivity.
Qed.

Definition initialize_request (c : MCPClient) : RpcRequest :=
  {| rq_id := request_id c + 1; rq_method := "initialize";
     rq_params := Some initialize_params |}.

Definition call_request (id : Z) (name : string) (arguments : Json)
  : RpcRequest :=
  {| rq_id := id; rq_method := "tools/call";
     rq_params :=
       Some (JObj [("name", JStr name);
                   ("arguments",
                    if truthy arguments then arguments else JObj [])]) |}.

(** [initialize] sends one request.  The client is marked initialized as
    soon as the request returns, also when what it returns is not a
    dictionary and [initialize] raises [AttributeError]. *)
Lemma initialize_effect c (io : IO E) :
  let r := initialize c io in
  trace (snd (fst r)) = trace io ++ [EvMcp (initialize_request c)]
  /\ endpoint (fst (fst r)) = endpoint c
  /\ request_id (fst (fst r)) = (request_id c + 1)%Z
  /\ match snd (_request "initialize" (Some initialize_params) c io) with
     | Ok (Dict result) =>
         snd r = Ok result /\ initialized (fst (fst r)) = true
     | Ok (NotDict _) =>
         snd r = Raise AttributeError
         /\ initialized (fst (fst r)) = true
         /\ server_info (fst (fst r)) = server_info c
     | Raise e =>
         snd r = Raise e
         /\ initialized (fst (fst r)) = initialized c
         /\ server_info (fst (fst r)) = server_info c
     end.
Proof.
  unfold initialize.
  destruct (request_effect "initialize" (Some initialize_params) c io)
    as [Hc Ht].
  destruct (_request "initialize" _ c io) as [[c1 io1] [[result|nd]|e]];
    simpl in *; subst c1; simpl; repeat split; exact Ht.
Qed.

(** The requests [call_tool] sends: the call itself on an initialized
    client; on a client that is not initialized, [initialize] first, and the
    call only when that succeeded. *)
Lemma call_tool_effect name arguments c (io : IO E) :
  let r := call_tool name arguments c io in
  endpoint (fst (fst r)) = endpoint c
  /\ ((initialized c = true
       /\ trace (snd (fst r))
          = trace io ++ [EvMcp (call_request (request_id c + 1) name arguments)]
       /\ request_id (fst (fst r)) = (request_id c + 1)%Z
       /\ initialized (fst (fst r)) = true)
      \/ (initialized c = false
          /\ (exists e, snd (initialize c io) = Raise e /\ snd r = Raise e)
          /\ trace (snd (fst r)) = trace io ++ [EvMcp (initialize_request c)]
          /\ request_id (fst (fst r)) = (request_id c + 1)%Z)
      \/ (initialized c = false
          /\ (exists result, snd (initialize c io) = Ok result)
          /\ trace (snd (fst r))
             = trace io
               ++ [EvMcp (initialize_request c);
                   EvMcp (call_request (request_id c + 2) name arguments)]
          /\ request_id (fst (fst r)) = (request_id c + 2)%Z
          /\ initialized (fst (fst r)) = true)).
Proof.
  unfold call_tool.
  destruct (initialized c) eqn:Hinit.
  - destruct (request_effect "tools/call"
                (Some (JObj [("name", JStr name);
                             ("arguments",
                              if truthy arguments then arguments else JObj [])]))
                c io) as [Hc Ht].
    rewrite Hc. simpl. split; [reflexivity|]. left.
    repeat split; [exact Ht|exact Hinit].
  - destruct (initialize_effect c io) as [Ht [He [Hid Hres]]].
    destruct (initialize c io) as [[c1 io1] [result|e]] eqn:Hini; simpl in *.
    + destruct (request_effect "tools/call"
                  (Some (JObj [("name", JStr name);
                               ("arguments",
                                if truthy arguments then arguments else JObj [])]))
                  c1 io1) as [Hc2 Ht2].
      rewrite Hc2. simpl. split; [exact He|]. right. right.
      split; [reflexivity|]. split; [now exists result|].
      split; [|split; [lia|]].
      * rewrite Ht2, Ht, <- app_assoc, Hid. simpl.
        now replace (request_id c + 1 + 1)%Z with (request_id c + 2)%Z by lia.
      * destruct (snd (_request "initialize" _ c io)) as [[res|nd]|e'];
          [apply Hres| |]; destruct Hres as [Hres _]; discriminate Hres.
    + split; [exact He|]. right. left. split; [reflexivity|].
      split; [now exists e|]. split; [exact Ht|exact Hid].
Qed.
End ClientRequests.

(** X9.  [call_tool] initializes a client only when it has to.  On an
    initialized client it sends the call alone.  On a client that is not
    initialized it sends the [initialize] request first, under the next id.
    When that request raises, the call is not sent, the same exception is
    raised and the client stays uninitialized.  When it returns something
    that is not a dictionary, [initialize] raises [AttributeError] after it
    has marked the client initialized: the call is not sent, and the next
    call will go out without a new [initialize].  When it returns a
    dictionary the call follows under the id after that and the client is
    initialized. *)
Theorem call_tool_initializes_lazily E name arguments c (io : IO E) :
  let r := Demo.call_tool name arguments c io in
  (Demo.initialized c = true ->
   trace (snd (fst r))
   = trace io
     ++ [EvMcp (call_request (Demo.request_id c + 1) name arguments)]
   /\ Demo.initialized (fst (fst r)) = true)
  /\ (Demo.initialized c = false ->
      match snd (Demo._request "initialize" (Some Demo.initialize_params)
                   c io) with
      | Raise e =>
          snd r = Raise e
          /\ trace (snd (fst r)) = trace io ++ [EvMcp (initialize_request c)]
          /\ Demo.initialized (fst (fst r)) = false
      | Ok (NotDict _) =>
          snd r = Raise AttributeError
          /\ trace (snd (fst r)) = trace io ++ [EvMcp (initialize_request c)]
          /\ Demo.initialized (fst (fst r)) = true
      | Ok (Dict _) =>
          trace (snd (fst r))
          = trace io
            ++ [EvMcp (initialize_request c);
                EvMcp (call_request (Demo.request_id c + 2) name arguments)]
          /\ Demo.initialized (fst (fst r)) = true
      end).
Proof.
  intros r. subst r. split.
  - intros Hi.
    destruct (call_tool_effect E name arguments c io)
      as [_ [[_ [Ht [_ Hi']]]|[[Hf _]|[Hf _]]]]; try congruence.
    now split.
  - intros Hi. unfold Demo.call_tool. rewrite Hi.
    destruct (initialize_effect E c io) as [Ht [_ [Hid Hres]]].
    destruct (snd (Demo._request "initialize" (Some Demo.initialize_params)
                     c io)) as [[result|nd]|e].
    + destruct Hres as [Hr Hini].
      destruct (Demo.initialize c io) as [[c1 io1] r1]. simpl in *. subst r1.
      destruct (request_effect E "tools/call"
                  (Some (JObj [("name", JStr name);
                               ("arguments",
                                if truthy arguments then arguments else JObj [])]))
                  c1 io1) as [Hc2 Ht2].
      rewrite Hc2. simpl. split; [|exact Hini].
      rewrite Ht2, Ht, <- app_assoc, Hid. simpl.
      now replace (Demo.request_id c + 1 + 1)%Z
        with (Demo.request_id c + 2)%Z by lia.
    + destruct Hres as [Hr [Hini _]].
      destruct (Demo.initialize c io) as [[c1 io1] r1]. simpl in *. subst r1.
      simpl. repeat split; assumption.
    + destruct Hres as [Hr [Hini _]].
      destruct (Demo.initialize c io) as [[c1 io1] r1]. simpl in *. subst r1.
      simpl. repeat split; [exact Ht|congruence].
Qed.

(** A client that is not initialized.  With the gateway out of reach the
    call raises the error of the [initialize] request and one request has
    been sent.  With a gateway whose results are [null] the call raises
    [AttributeError] and leaves the client marked initialized, so that a
    second call sends the tool call at once. *)
Lemma call_tool_initializes_lazily_witness :
  (snd (Demo.call_tool (E := env_offline) "calculator" (JObj [])
          (Demo.new_client "http://localhost:8080/mcp") io_offline)
   = Raise (MCPError (-1)
              "Cannot connect to MCP Gateway at http://localhost:8080/mcp")
   /\ List.length
        (trace (snd (fst (Demo.call_tool (E := env_offline) "calculator"
                            (JObj [])
                            (Demo.new_client "http://localhost:8080/mcp")
                            io_offline))))
      = 1)
  /\ (let r := Demo.call_tool (E := env_null_result) "calculator" (JObj [])
                 (Demo.new_client "http://localhost:8080/mcp")
                 (@mkIO env_null_result 0%nat []) in
      snd r = Raise AttributeError
      /\ Demo.initialized (fst (fst r)) = true
      /\ trace (snd (fst (Demo.call_tool "calculator" (JObj [])
                            (fst (fst r)) (snd (fst r)))))
         = [EvMcp (initialize_request
                     (Demo.new_client "http://localhost:8080/mcp"));
            EvMcp (call_request 2 "calculator" (JObj []))]).
Proof.
  split.
  - destruct (proj2 (call_tool_initializes_lazily env_offline "calculator"
                       (JObj [])
                       (Demo.new_client "http://localhost:8080/mcp")
                       io_offline)
                eq_refl) as [Hr [Ht _]].
    split; [exact Hr|]. rewrite Ht. reflexivity.
  - destruct (proj2 (call_tool_initializes_lazily env_null_result "calculator"
                       (JObj [])
                       (Demo.new_client "http://localhost:8080/mcp")
                       (@mkIO env_null_result 0%nat []))
                eq_refl) as [Hr [Ht Hi]].
    split; [exact Hr|]. split; [exact Hi|]. reflexivity.
Defined.

(** ** What holds from the start of a turn to its end *)

Section TurnRelation.
Variable E : Env.
Variable model : string.
Import Demo.

Lemma mcp_requests_app tr tr' :
  mcp_requests (tr ++ tr') = mcp_requests tr ++ mcp_requests tr'.
Proof.
  induction tr as [|ev tr IH]; simpl; [reflexivity|].
  destruct ev; simpl; now rewrite IH.
Qed.

Lemma chat_payloads_app tr tr' :
  chat_payloads (tr ++ tr') = chat_payloads tr ++ chat_payloads tr'.
Proof.
  induction tr as [|ev tr IH]; simpl; [reflexivity|].
  destruct ev; simpl; now rewrite IH.
Qed.

Lemma ids_after_app a : forall id b,
  ids_after id (a + b) = ids_after id a ++ ids_after (id + Z.of_nat a) b.
Proof.
  induction a as [|a IH]; intros id b.
  - simpl. now rewrite Z.add_0_r.
  - cbn [Nat.add ids_after app]. rewrite IH. do 3 f_equal. lia.
Qed.

Lemma chat_trace msgs tools (io : IO E) :
  trace (fst (chat model msgs tools io))
  = trace io
    ++ [EvChat {| cp_model := model; cp_messages := msgs;
                  cp_tools := match tools with [] => None | _ => Some tools end |}].
Proof.
  unfold chat, post_chat.
  destruct (chat_post E (world io) _) as [w reply].
  destruct reply as [| |ex|status body]; simpl; try reflexivity.
  destruct (negb (ok status)).
  - destruct body as [[b|nd]| |le]; simpl; try reflexivity.
    + destruct (cb_error b) as [[error|nd]|]; reflexivity.
    + destruct (has_member "error" nd) as [[|]|]; reflexivity.
    + destruct (is_value_error (loads_exn le)); reflexivity.
  - destruct body; reflexivity.
Qed.

(** A relation between sessions that contains the steps of a turn (a chat
    request, a tool call, a change of the log, a merge into the context)
    and is closed under composition relates the start of every tool loop
    and of every turn to its end. *)
Section Principle.
Variable R : Session E -> Session E -> Prop.
Hypothesis R_refl : forall s, R s s.
Hypothesis R_trans : forall a b c, R a b -> R b c -> R a c.
Hypothesis R_chat : forall s,
  R s {| messages := messages s; tool_context := tool_context s;
         mcp_client := mcp_client s;
         io := fst (chat model (messages s)
                      (get_tools_for_llm (tool_context s)) (io s)) |}.
Hypothesis R_call : forall s name arguments,
  R s {| messages := messages s; tool_context := tool_context s;
         mcp_client :=
           fst (fst (call_tool name arguments (mcp_client s) (io s)));
         io := snd (fst (call_tool name arguments (mcp_client s) (io s))) |}.
Hypothesis R_log : forall s log,
  R s {| messages := log; tool_context := tool_context s;
         mcp_client := mcp_client s; io := io s |}.
Hypothesis R_merge : forall s text,
  R s {| messages := messages s;
         tool_context := fst (add_tools_from_search E (tool_context s) text);
         mcp_client := mcp_client s; io := io s |}.

Ltac log_step :=
  unfold append_message;
  lazymatch goal with
  | |- R ?a (@mkSession _ ?log _ _ _) => exact (R_log a log)
  end.

Lemma execute_tools_related tool_calls : forall s s' e,
  execute_tools tool_calls s = (s', e) -> R s s'.
Proof.
  induction tool_calls as [|tc rest IH]; intros s s' e H; simpl in H.
  - injection H as <- _. apply R_refl.
  - destruct (tool_arguments E tc) as [tool_args|ex0];
      [|injection H as <- _; apply R_refl].
    pose proof (R_call s (tc_name tc) tool_args) as Hc.
    destruct (call_tool _ _ _ _) as [[c io'] r]. simpl in Hc.
    destruct r as [[result|nd]|ex].
    + apply IH in H. eapply R_trans; [|exact H].
      eapply R_trans; [exact Hc|].
      destruct (tc_name tc =? "tool_search").
      * eapply R_trans;
          [apply (R_merge _ (extract_tool_result E result))|]. log_step.
      * log_step.
    + injection H as <- _. exact Hc.
    + destruct ex; try (injection H as <- _; exact Hc).
      apply IH in H. eapply R_trans; [|exact H].
      eapply R_trans; [exact Hc|]. log_step.
Qed.

Lemma turn_loop_related remaining : forall before s s' o,
  turn_loop model remaining before s = (s', o) -> R s s'.
Proof.
  induction remaining as [|n IH]; intros before s s' o H; simpl in H.
  - injection H as <- _. apply R_refl.
  - pose proof (R_chat s) as Hc.
    destruct (chat model _ _ (io s)) as [io' r]. simpl in Hc.
    destruct r as [[response|nd]|ex].
    + destruct (cb_choices response) as [[|choice choices]|];
        try (injection H as <- _; exact Hc).
      destruct (cm_tool_calls (ch_message choice)) as [[|tc tcs]|];
        try (injection H as <- _; eapply R_trans; [exact Hc|log_step]).
      destruct (execute_tools (tc :: tcs) _) as [s2 [e2|]] eqn:Hex;
        apply execute_tools_related in Hex.
      * injection H as <- _. eapply R_trans; [exact Hc|].
        eapply R_trans; [|exact Hex]. log_step.
      * apply IH in H. eapply R_trans; [exact Hc|].
        eapply R_trans; [|eapply R_trans; [exact Hex|exact H]]. log_step.
    + injection H as <- _. exact Hc.
    + destruct ex; try (injection H as <- _; exact Hc).
      injection H as <- _. eapply R_trans; [exact Hc|log_step].
Qed.

Lemma run_turn_related user_input s s' o :
  run_turn model user_input s = (s', o) -> R s s'.
Proof.
  unfold run_turn. intros H. apply turn_loop_related in H.
  apply R_trans with (append_message s (MsgUser user_input));
    [exact (R_log s _)|exact H].
Qed.
End Principle.

(** The tools a chat request offers: the bootstrap tool, the tools known at
    the start, and more. *)
Definition offers_from (s : Session E) (payload : ChatPayload) : Prop :=
  cp_model payload = model
  /\ exists more,
      cp_tools payload = Some (get_tools_for_llm (tool_context s) ++ more).

(** From one session to a later one of the same turn: the context has only
    grown at its end, the requests sent to the gateway carry consecutive
    ids, and every chat request offers at least the tools of the earlier
    session. *)
Definition turn_rel (s s' : Session E) : Prop :=
  endpoint (mcp_client s') = endpoint (mcp_client s)
  /\ (exists more,
         discovered_tools (tool_context s')
         = discovered_tools (tool_context s) ++ more)
  /\ exists new,
      trace (io s') = trace (io s) ++ new
      /\ map rq_id (mcp_requests new)
         = ids_after (request_id (mcp_client s))
                     (List.length (mcp_requests new))
      /\ request_id (mcp_client s')
         = (request_id (mcp_client s)
            + Z.of_nat (List.length (mcp_requests new)))%Z
      /\ Forall (offers_from s) (chat_payloads new).

Lemma turn_rel_same s s' :
  endpoint (mcp_client s') = endpoint (mcp_client s) ->
  tool_context s' = tool_context s ->
  request_id (mcp_client s') = request_id (mcp_client s) ->
  io s' = io s ->
  turn_rel s s'.
Proof.
  intros He Hc Hid Hio. split; [exact He|]. split.
  - exists []. now rewrite Hc, app_nil_r.
  - exists []. rewrite Hio, app_nil_r. simpl.
    repeat split; [lia|constructor].
Qed.

Lemma turn_rel_trans a b c : turn_rel a b -> turn_rel b c -> turn_rel a c.
Proof.
  intros [He1 [[m1 Hm1] [n1 [Ht1 [Hi1 [Hr1 Hp1]]]]]]
         [He2 [[m2 Hm2] [n2 [Ht2 [Hi2 [Hr2 Hp2]]]]]].
  split; [congruence|]. split.
  - exists (m1 ++ m2). now rewrite Hm2, Hm1, app_assoc.
  - exists (n1 ++ n2). split; [now rewrite Ht2, Ht1, app_assoc|].
    rewrite mcp_requests_app, chat_payloads_app, length_app, map_app.
    split; [|split].
    + rewrite ids_after_app, Hi1, Hi2, Hr1. reflexivity.
    + rewrite Hr2, Hr1. lia.
    + apply Forall_app. split; [exact Hp1|].
      eapply Forall_impl; [|exact Hp2].
      intros p [Hmodel [more Htools]]. split; [exact Hmodel|].
      exists (values m1 ++ more). rewrite Htools.
      unfold get_tools_for_llm, values. rewrite Hm1, map_app.
      simpl. now rewrite <- app_assoc.
Qed.

Lemma turn_rel_chat s :
  turn_rel s {| messages := messages s; tool_context := tool_context s;
                mcp_client := mcp_client s;
                io := fst (chat model (messages s)
                             (get_tools_for_llm (tool_context s)) (io s)) |}.
Proof.
  split; [reflexivity|]. split; [exists []; now rewrite app_nil_r|].
  eexists. split; [apply chat_trace|]. simpl.
  repeat split; [lia|]. constructor; [|constructor].
  split; [reflexivity|]. exists []. simpl. now rewrite app_nil_r.
Qed.

Lemma mcp_requests_map reqs : mcp_requests (map EvMcp reqs) = reqs.
Proof. induction reqs as [|r reqs IH]; simpl; [reflexivity|now rewrite IH]. Qed.

Lemma chat_payloads_map reqs : chat_payloads (map EvMcp reqs) = [].
Proof. induction reqs as [|r reqs IH]; simpl; [reflexivity|exact IH]. Qed.

Lemma turn_rel_requests s s' reqs :
  endpoint (mcp_client s') = endpoint (mcp_client s) ->
  tool_context s' = tool_context s ->
  trace (io s') = trace (io s) ++ map EvMcp reqs ->
  map rq_id reqs = ids_after (request_id (mcp_client s)) (List.length reqs) ->
  request_id (mcp_client s')
  = (request_id (mcp_client s) + Z.of_nat (List.length reqs))%Z ->
  turn_rel s s'.
Proof.
  intros He Hc Ht Hi Hr. split; [exact He|]. split.
  - exists []. now rewrite Hc, app_nil_r.
  - exists (map EvMcp reqs). rewrite mcp_requests_map, chat_payloads_map.
    repeat split; [exact Ht|exact Hi|exact Hr|constructor].
Qed.

Lemma turn_rel_call s name arguments :
  turn_rel s
    {| messages := messages s; tool_context := tool_context s;
       mcp_client :=
         fst (fst (call_tool name arguments (mcp_client s) (io s)));
       io := snd (fst (call_tool name arguments (mcp_client s) (io s))) |}.
Proof.
  destruct (call_tool_effect E name arguments (mcp_client s) (io s))
    as [He [[_ [Ht [Hid _]]]|[[_ [_ [Ht Hid]]]|[_ [_ [Ht [Hid _]]]]]]].
  - apply turn_rel_requests
      with (reqs := [call_request (request_id (mcp_client s) + 1)
                       name arguments]);
      simpl; [exact He|reflexivity|exact Ht|reflexivity|exact Hid].
  - apply turn_rel_requests with (reqs := [initialize_request (mcp_client s)]);
      simpl; [exact He|reflexivity|exact Ht|reflexivity|exact Hid].
  - apply turn_rel_requests
      with (reqs := [initialize_request (mcp_client s);
                     call_request (request_id (mcp_client s) + 2)
                       name arguments]);
      simpl; [exact He|reflexivity|exact Ht| |exact Hid].
    do 2 f_equal. lia.
Qed.

Lemma turn_rel_merge s text :
  turn_rel s
    {| messages := messages s;
       tool_context := fst (add_tools_from_search E (tool_context s) text);
       mcp_client := mcp_client s; io := io s |}.
Proof.
  split; [reflexivity|]. split.
  - simpl. rewrite add_tools_from_search_discovered.
    destruct (json_loads_search E text) as [result|].
    + destruct (add_tools_extends (or_default [] (sr_tools result))
                  (discovered_tools (tool_context s)) []) as [more [Hd _]].
      now exists more.
    + exists []. now rewrite app_nil_r.
  - exists []. simpl. rewrite app_nil_r. repeat split; [lia|constructor].
Qed.

Lemma run_turn_turn_rel user_input s s' o :
  run_turn model user_input s = (s', o) -> turn_rel s s'.
Proof.
  apply run_turn_related with (R := turn_rel).
  - intros s0. now apply turn_rel_same.
  - apply turn_rel_trans.
  - apply turn_rel_chat.
  - apply turn_rel_call.
  - intros s0 log. now apply turn_rel_same.
  - apply turn_rel_merge.
Qed.
End TurnRelation.

(** X10.  The requests a turn sends to the gateway carry consecutive ids
    that continue from the id of the client before the turn, whatever the
    replies and however the turn ends; the client's id afterwards is the
    last one used. *)
Theorem turn_request_ids_consecutive E model user_input
        (s s' : Demo.Session E) o :
  Demo.run_turn model user_input s = (s', o) ->
  exists new,
    trace (Demo.io s') = trace (Demo.io s) ++ new
    /\ map rq_id (mcp_requests new)
       = ids_after (Demo.request_id (Demo.mcp_client s))
                   (List.length (mcp_requests new))
    /\ Demo.request_id (Demo.mcp_client s')
       = (Demo.request_id (Demo.mcp_client s)
          + Z.of_nat (List.length (mcp_requests new)))%Z.
Proof.
  intros H. apply run_turn_turn_rel in H.
  destruct H as [_ [_ [new [Ht [Hi [Hr _]]]]]]. now exists new.
Qed.

(** Ten iterations with two tool calls each: the ids 2 to 21. *)
Lemma turn_request_ids_consecutive_witness :
  map rq_id
    (mcp_requests
       (trace (Demo.io (fst (Demo.run_turn "openai/gpt-4o" "hello"
                               session_tools_ok)))))
  = ids_after 1 20.
Proof.
  destruct (turn_request_ids_consecutive env_tools_ok "openai/gpt-4o" "hello"
              session_tools_ok _ _ (surjective_pairing _))
    as [new [Ht [Hi _]]].
  rewrite Ht. simpl app. rewrite Hi. f_equal.
  apply (f_equal (fun tr => List.length (mcp_requests tr))) in Ht.
  simpl app in Ht. rewrite <- Ht. vm_compute. reflexivity.
Defined.

(** X11.  Every chat request of a turn names the configured model and
    offers the bootstrap tool first, then the tools that were in context
    when the turn began, in their order, then the tools discovered since. *)
Theorem turn_offers_known_tools E model user_input (s s' : Demo.Session E) o :
  Demo.run_turn model user_input s = (s', o) ->
  exists new,
    trace (Demo.io s') = trace (Demo.io s) ++ new
    /\ Forall (fun payload =>
                 cp_model payload = model
                 /\ exists more,
                     cp_tools payload
                     = Some (Demo.tool_search_spec
                               :: values (Demo.discovered_tools
                                            (Demo.tool_context s)) ++ more))
              (chat_payloads new).
Proof.
  intros H. apply run_turn_turn_rel in H.
  destruct H as [_ [_ [new [Ht [_ [_ Hp]]]]]]. exists new.
  split; [exact Ht|]. exact Hp.
Qed.

Lemma turn_offers_known_tools_witness :
  exists new,
    trace (Demo.io (fst (Demo.run_turn "openai/gpt-4o" "hello"
                           session_discover_then_reject)))
    = trace (Demo.io session_discover_then_reject) ++ new
    /\ Forall (fun payload =>
                 cp_model payload = "openai/gpt-4o"
                 /\ exists more,
                     cp_tools payload
                     = Some (Demo.tool_search_spec
                               :: values (Demo.discovered_tools
                                            (Demo.tool_context
                                               session_discover_then_reject))
                                  ++ more))
              (chat_payloads new).
Proof.
  exact (turn_offers_known_tools env_discover_then_reject "openai/gpt-4o"
           "hello" session_discover_then_reject _ _ (surjective_pairing _)).
Defined.

(** X12.  A turn never removes a tool from the context, however it ends:
    the tool list offered before the turn is a prefix of the list offered
    after it, and every known tool is still known.  This includes a turn
    that is rolled back: the log is cut back, the tools discovered in the
    turn stay. *)
Theorem turn_keeps_discovered_tools E model user_input
        (s s' : Demo.Session E) o :
  Demo.run_turn model user_input s = (s', o) ->
  (exists more,
      Demo.get_tools_for_llm (Demo.tool_context s')
      = Demo.get_tools_for_llm (Demo.tool_context s) ++ more)
  /\ (forall name,
         Demo.is_known_tool (Demo.tool_context s) name = true ->
         Demo.is_known_tool (Demo.tool_context s') name = true).
Proof.
  intros H. apply run_turn_turn_rel in H.
  destruct H as [_ [[more Hm] _]]. split.
  - exists (values more). unfold Demo.get_tools_for_llm, values.
    rewrite Hm, map_app. reflexivity.
  - intros name. unfold Demo.is_known_tool. rewrite Hm, mem_app.
    intros Hk. apply orb_prop in Hk. destruct Hk as [Hk|Hk]; rewrite Hk;
      [reflexivity|].
    apply orb_true_r.
Qed.

(** A search discovers the calculator, then the chat endpoint rejects the
    next request: the turn is rolled back and the calculator stays. *)
Lemma turn_keeps_discovered_tools_witness :
  snd (Demo.run_turn "openai/gpt-4o" "hello" session_discover_then_reject)
  = Demo.RolledBack
  /\ Demo.is_known_tool
       (Demo.tool_context
          (fst (Demo.run_turn "openai/gpt-4o" "hello"
                  session_discover_then_reject))) "calculator" = true
  /\ (Demo.is_known_tool (Demo.tool_context session_discover_then_reject)
        "tool_search" = true ->
      Demo.is_known_tool
        (Demo.tool_context
           (fst (Demo.run_turn "openai/gpt-4o" "hello"
                   session_discover_then_reject))) "tool_search" = true).
Proof.
  split; [reflexivity|]. split; [reflexivity|].
  exact (proj2 (turn_keeps_discovered_tools env_discover_then_reject
                  "openai/gpt-4o" "hello" session_discover_then_reject _ _
                  (surjective_pairing _)) "tool_search").
Defined.

(** ** The tool loop *)

Section ToolLoop.
Variable E : Env.
Import Demo.

Lemma sent_arguments_eq tc args :
  tool_arguments E tc = Ok args ->
  (if truthy args then args else JObj []) = sent_arguments E tc.
Proof.
  unfold tool_arguments, sent_arguments.
  destruct (json_loads E (tc_arguments tc)); intros H; inversion H; subst;
    reflexivity.
Qed.

(** The requests of the tool loop on an initialized client: one
    [tools/call] per executed call, in the order of the calls. *)
Lemma execute_tools_requests tool_calls : forall (s s' : Session E) e,
  initialized (mcp_client s) = true ->
  execute_tools tool_calls s = (s', e) ->
  exists k,
    k <= List.length tool_calls
    /\ trace (io s')
       = trace (io s)
         ++ map EvMcp (tool_requests E (request_id (mcp_client s))
                         (firstn k tool_calls))
    /\ (e = None -> k = List.length tool_calls)
    /\ initialized (mcp_client s') = true.
Proof.
  induction tool_calls as [|tc rest IH]; intros s s' e Hinit H; simpl in H.
  - injection H as <- <-. exists 0. simpl. rewrite app_nil_r.
    repeat split; [lia|exact Hinit].
  - destruct (tool_arguments E tc) as [tool_args|ex0] eqn:Hargs.
    2: { injection H as <- <-. exists 0. simpl. rewrite app_nil_r.
         repeat split; [lia|discriminate|exact Hinit]. }
    destruct (call_tool_effect E (tc_name tc) tool_args (mcp_client s) (io s))
      as [_ [[_ [Ht [Hid Hi']]]|[[Hf _]|[Hf _]]]]; try congruence.
    unfold call_request in Ht.
    rewrite (sent_arguments_eq tc tool_args Hargs) in Ht.
    destruct (call_tool _ _ _ _) as [[c io'] r]. simpl in Ht, Hid, Hi'.
    assert (Hstep : forall s1,
               mcp_client s1 = c -> io s1 = io' ->
               execute_tools rest s1 = (s', e) ->
               exists k,
                 k <= List.length (tc :: rest)
                 /\ trace (io s')
                    = trace (io s)
                      ++ map EvMcp (tool_requests E (request_id (mcp_client s))
                                      (firstn k (tc :: rest)))
                 /\ (e = None -> k = List.length (tc :: rest))
                 /\ initialized (mcp_client s') = true).
    { intros s1 Hc Hio Hrun. apply IH in Hrun; [|now rewrite Hc].
      destruct Hrun as [k [Hk [Htr [Hall Hinit']]]]. exists (S k).
      split; [simpl; lia|]. split; [|split; [|exact Hinit']].
      - rewrite Htr, Hio, Ht, Hc, Hid, <- app_assoc. reflexivity.
      - intros He. simpl. f_equal. now apply Hall. }
    assert (Hstop : forall ex,
               ({| messages := messages s; tool_context := tool_context s;
                   mcp_client := c; io := io' |}, Some ex) = (s', e) ->
               exists k,
                 k <= List.length (tc :: rest)
                 /\ trace (io s')
                    = trace (io s)
                      ++ map EvMcp (tool_requests E (request_id (mcp_client s))
                                      (firstn k (tc :: rest)))
                 /\ (e = None -> k = List.length (tc :: rest))
                 /\ initialized (mcp_client s') = true).
    { intros ex Heq. injection Heq as <- <-. exists 1. simpl.
      rewrite Ht. repeat split; [lia|discriminate|exact Hi']. }
    destruct r as [[result|nd]|ex].
    + eapply Hstep; [| |exact H]; reflexivity.
    + now apply Hstop with (ex := AttributeError).
    + destruct ex; try (now eapply Hstop; exact H).
      eapply Hstep; [| |exact H]; reflexivity.
Qed.

(** Only a call of [tool_search] changes the tool context. *)
Lemma execute_tools_context tool_calls : forall (s : Session E),
  Forall (fun tc => tc_name tc <> "tool_search") tool_calls ->
  tool_context (fst (execute_tools tool_calls s)) = tool_context s.
Proof.
  induction tool_calls as [|tc rest IH]; intros s H; simpl; [reflexivity|].
  inversion H as [|? ? Hn Hrest]; subst.
  apply String.eqb_neq in Hn.
  destruct (tool_arguments E tc) as [tool_args|ex0]; [|reflexivity].
  destruct (call_tool _ _ _ _) as [[c io'] r].
  destruct r as [[result|nd]|ex].
  - rewrite Hn. now rewrite IH.
  - reflexivity.
  - destruct ex; try reflexivity. now rewrite IH.
Qed.


End ToolLoop.

(** X13.  On an initialized client the tool loop sends one [tools/call]
    request for each tool call it executes, in the order the model listed
    them and under consecutive ids; the arguments sent are the decoded
    arguments, or [{}] when the text does not decode.  When no exception
    leaves the loop all the calls have been sent; otherwise the calls up to
    the failing one. *)
Theorem tool_calls_sent_in_order E tool_calls (s s' : Demo.Session E) e :
  Demo.initialized (Demo.mcp_client s) = true ->
  Demo.execute_tools tool_calls s = (s', e) ->
  (e = None ->
   trace (Demo.io s')
   = trace (Demo.io s)
     ++ map EvMcp (tool_requests E (Demo.request_id (Demo.mcp_client s))
                     tool_calls))
  /\ exists k,
      k <= List.length tool_calls
      /\ trace (Demo.io s')
         = trace (Demo.io s)
           ++ map EvMcp (tool_requests E (Demo.request_id (Demo.mcp_client s))
                           (firstn k tool_calls)).
Proof.
  intros Hinit H.
  destruct (execute_tools_requests E tool_calls s s' e Hinit H)
    as [k [Hk [Ht [Hall _]]]].
  split.
  - intros He. rewrite Ht, (Hall He), firstn_all. reflexivity.
  - now exists k.
Qed.

(** Two calls whose arguments are the text of an empty object. *)
Lemma tool_calls_sent_in_order_witness :
  trace (Demo.io (fst (Demo.execute_tools [call_search; call_calculator]
                         session_tools_ok)))
  = trace (Demo.io session_tools_ok)
    ++ map EvMcp (tool_requests env_tools_ok 1 [call_search; call_calculator]).
Proof.
  apply (proj1 (tool_calls_sent_in_order env_tools_ok
                  [call_search; call_calculator] session_tools_ok
                  (fst (Demo.execute_tools [call_search; call_calculator]
                          session_tools_ok))
                  None eq_refl eq_refl)).
  reflexivity.
Defined.

(** X14.  Only a call of [tool_search] can change the tool context: a
    batch of calls of other tools leaves it as it was, whatever the gateway
    answers. *)
Theorem other_tools_leave_context E tool_calls (s : Demo.Session E) :
  Forall (fun tc => tc_name tc <> "tool_search") tool_calls ->
  Demo.tool_context (fst (Demo.execute_tools tool_calls s))
  = Demo.tool_context s.
Proof. apply execute_tools_context. Qed.

Lemma other_tools_leave_context_witness :
  Demo.tool_context
    (fst (Demo.execute_tools [call_calculator] session_discover_then_reject))
  = Demo.tool_context session_discover_then_reject.
Proof.
  apply (other_tools_leave_context env_discover_then_reject [call_calculator]).
  repeat constructor. discriminate.
Defined.



(** ** The log at the end of a turn *)

Section TurnLog.
Variable E : Env.
Variable model : string.
Import Demo.

Lemma turn_loop_log remaining : forall before (s s' : Session E) o,
  turn_loop model remaining before s = (s', o) ->
  match o with
  | RolledBack => True
  | Answered =>
      exists mid content,
        messages s' = messages s ++ mid ++ [MsgAssistant content None]
        /\ Forall (fun m => is_plain_assistant m = false) mid
  | _ =>
      exists extra,
        messages s' = messages s ++ extra
        /\ Forall (fun m => is_plain_assistant m = false) extra
  end.
Proof.
  induction remaining as [|n IH]; intros before s s' o H; simpl in H.
  - injection H as <- <-. exists []. rewrite app_nil_r. now split.
  - destruct (chat model _ _ (io s)) as [io' r].
    destruct r as [[response|nd]|ex].
    2: { injection H as <- <-. exists []. simpl. rewrite app_nil_r.
         now split. }
    + destruct (cb_choices response) as [[|choice choices]|];
        try (injection H as <- <-; exists []; simpl; rewrite app_nil_r;
             now split).
      destruct (cm_tool_calls (ch_message choice)) as [[|tc tcs]|];
        try (injection H as <- <-; exists [];
             eexists; split; [reflexivity|constructor]).
      destruct (execute_tools (tc :: tcs) _) as [s2 [e2|]] eqn:Hex;
        apply execute_tools_appends in Hex;
        destruct Hex as [_ [_ [extra [Hmsg [Htool _]]]]]; simpl in Hmsg;
        assert (Hnp : Forall (fun m => is_plain_assistant m = false)
                        (MsgAssistant
                           (or_default None (cm_content (ch_message choice)))
                           (Some (tc :: tcs)) :: extra))
          by (constructor; [reflexivity|];
              eapply Forall_impl; [|exact Htool]; intros m Hm; now destruct m).
      * injection H as <- <-. eexists. split; [|exact Hnp].
        rewrite Hmsg, <- app_assoc. reflexivity.
      * apply IH in H. destruct o.
        -- destruct H as [mid [content [Hm Hmid]]].
           exists ((MsgAssistant
                      (or_default None (cm_content (ch_message choice)))
                      (Some (tc :: tcs)) :: extra) ++ mid), content.
           split; [|now apply Forall_app].
           rewrite Hm, Hmsg, <- !app_assoc. reflexivity.
        -- destruct H as [more [Hm Hmore]]. eexists.
           split; [|apply Forall_app; split; [exact Hnp|exact Hmore]].
           rewrite Hm, Hmsg, <- !app_assoc. reflexivity.
        -- exact I.
        -- destruct H as [more [Hm Hmore]]. eexists.
           split; [|apply Forall_app; split; [exact Hnp|exact Hmore]].
           rewrite Hm, Hmsg, <- !app_assoc. reflexivity.
        -- destruct H as [more [Hm Hmore]]. eexists.
           split; [|apply Forall_app; split; [exact Hnp|exact Hmore]].
           rewrite Hm, Hmsg, <- !app_assoc. reflexivity.
    + destruct ex; try (injection H as <- <-; exists []; simpl;
                        rewrite app_nil_r; now split).
      injection H as <- <-. exact I.
Qed.
End TurnLog.

(** X16.  The log after a turn, by the way the turn ends.  Rolled back: the
    log from before the turn.  Answered: the log from before, the user
    message, what the tool rounds appended, and one plain assistant message
    at the very end, the only one appended.  In every other case: the log
    from before, the user message and what the tool rounds appended, with
    no plain assistant message. *)
Theorem turn_log_by_outcome E model user_input (s s' : Demo.Session E) o :
  Demo.run_turn model user_input s = (s', o) ->
  match o with
  | Demo.RolledBack => Demo.messages s' = Demo.messages s
  | Demo.Answered =>
      exists mid content,
        Demo.messages s'
        = Demo.messages s
          ++ MsgUser user_input :: mid ++ [MsgAssistant content None]
        /\ Forall (fun m => is_plain_assistant m = false) mid
  | _ =>
      exists extra,
        Demo.messages s' = Demo.messages s ++ MsgUser user_input :: extra
        /\ Forall (fun m => is_plain_assistant m = false) extra
  end.
Proof.
  intros H. destruct o.
  - unfold Demo.run_turn in H. apply turn_loop_log in H.
    destruct H as [mid [content [Hm Hmid]]]. exists mid, content.
    split; [|exact Hmid]. rewrite Hm. simpl. now rewrite <- app_assoc.
  - unfold Demo.run_turn in H. apply turn_loop_log in H.
    destruct H as [extra [Hm Hx]]. exists extra. split; [|exact Hx].
    rewrite Hm. simpl. now rewrite <- app_assoc.
  - unfold Demo.run_turn in H. apply turn_loop_rollback in H.
    + rewrite H. simpl. rewrite firstn_app, firstn_all, Nat.sub_diag.
      simpl. apply app_nil_r.
    + simpl. rewrite length_app. lia.
  - unfold Demo.run_turn in H. apply turn_loop_log in H.
    destruct H as [extra [Hm Hx]]. exists extra. split; [|exact Hx].
    rewrite Hm. simpl. now rewrite <- app_assoc.
  - unfold Demo.run_turn in H. apply turn_loop_log in H.
    destruct H as [extra [Hm Hx]]. exists extra. split; [|exact Hx].
    rewrite Hm. simpl. now rewrite <- app_assoc.
Qed.

(** One tool round and an answer. *)
Lemma turn_log_by_outcome_witness :
  exists mid content,
    Demo.messages (fst (Demo.run_turn "openai/gpt-4o" "2+2?" session_calculate))
    = Demo.messages session_calculate
      ++ MsgUser "2+2?" :: mid ++ [MsgAssistant content None]
    /\ Forall (fun m => is_plain_assistant m = false) mid.
Proof.
  exact (turn_log_by_outcome env_calculate "openai/gpt-4o" "2+2?"
           session_calculate
           (fst (Demo.run_turn "openai/gpt-4o" "2+2?" session_calculate))
           Demo.Answered eq_refl).
Defined.

(** X17.  How [chat] sorts the replies of the chat endpoint.  It makes
    one request.  It returns the decoded body, whatever it is, exactly for
    a response with a status that is not an error and a body that decodes.
    It raises [ChatError] exactly for an error status with a body that is a
    dictionary whose error member is a dictionary, and [AttributeError]
    exactly for an error status with a body that is a dictionary whose
    error member is something else.  It never raises [MCPError]. *)
Theorem chat_reply_classification E model msgs tools (io : IO E) :
  let payload :=
    {| cp_model := model; cp_messages := msgs;
       cp_tools := match tools with [] => None | _ => Some tools end |} in
  let reply := snd (chat_post E (world io) payload) in
  let r := snd (Demo.chat model msgs tools io) in
  (forall body,
      r = Ok body
      <-> exists status,
          reply = ReplyStatus status (Loaded body) /\ ok status = true)
  /\ ((exists message, r = Raise (ChatError message))
      <-> exists status body error,
          reply = ReplyStatus status (Loaded (Dict body))
          /\ ok status = false /\ cb_error body = Some (Dict error))
  /\ (r = Raise AttributeError
      <-> exists status body v,
          reply = ReplyStatus status (Loaded (Dict body))
          /\ ok status = false /\ cb_error body = Some (NotDict v))
  /\ (forall code message, r <> Raise (MCPError code message))
  /\ trace (fst (Demo.chat model msgs tools io)) = trace io ++ [EvChat payload].
Proof.
  intros payload reply r.
  split; [|split; [apply chat_error_origin|split; [|split; [|apply chat_trace]]]];
    subst r reply payload; unfold Demo.chat, post_chat, loads_exn;
    destruct (chat_post E (world io) _) as [w reply]; simpl.
  - intros b. destruct reply as [| |ex|status body]; simpl;
      try (split; [discriminate|intros [st [H _]]; discriminate]).
    destruct (ok status) eqn:Hok; simpl.
    + destruct body as [b0| |le]; simpl; split; try discriminate.
      * intros H. injection H as ->. now exists status.
      * intros [st [H _]]. injection H as _ ->. reflexivity.
      * intros [st [H _]]. discriminate.
      * intros [st [H _]]. discriminate.
    + split.
      * repeat break_match; simpl; discriminate.
      * intros [st [H Hst]]. injection H as -> _. congruence.
  - destruct reply as [| |ex|status body]; simpl;
      try (split; [discriminate|intros [st [b [v [H _]]]]; discriminate]).
    destruct (ok status) eqn:Hok; simpl.
    + split.
      * destruct body as [b0| |le]; simpl; try discriminate.
        destruct le; discriminate.
      * intros [st [b [v [H [Hst _]]]]]. injection H as -> _. congruence.
    + destruct body as [[b0|nd]| |le]; simpl.
      * destruct (cb_error b0) as [[err|nd]|] eqn:He; split;
          try discriminate.
        -- intros [st [b [v [H [_ Hb]]]]]. injection H as _ ->. congruence.
        -- intros _. now exists status, b0, nd.
        -- intros _. reflexivity.
        -- intros [st [b [v [H [_ Hb]]]]]. injection H as _ ->. congruence.
      * split.
        -- destruct (has_member "error" nd) as [[|]|]; discriminate.
        -- intros [st [b [v [H _]]]]. discriminate.
      * split; [discriminate|]. intros [st [b [v [H _]]]]. discriminate.
      * split.
        -- destruct le; simpl; discriminate.
        -- intros [st [b [v [H _]]]]. discriminate.
  - intros code message. repeat break_match; simpl; discriminate.
Qed.

(** A chat endpoint that answers with status 401 and the body
    [{"error": "Unauthorized"}]. *)
Lemma chat_reply_classification_witness :
  snd (Demo.chat (E := env_string_error) "openai/gpt-4o"
         [system_message] [Demo.tool_search_spec]
         (@mkIO env_string_error 0%nat []))
  = Raise AttributeError.
Proof.
  apply (proj2 (proj1 (proj2 (proj2
           (chat_reply_classification env_string_error "openai/gpt-4o"
              [system_message] [Demo.tool_search_spec]
              (@mkIO env_string_error 0%nat [])))))).
  eexists _, _, _. repeat split.
Defined.

(* ================================================================== *)
(** * Further properties of the agent *)

(** X18.  An agent that has not been initialized sends nothing:
    [search_tools], [call_tool] and [list_all_tools] raise the same
    [MCPError] and leave the agent, its request id included, and the outside
    world as they were.  (The demo's client initializes itself instead.) *)
Theorem uninitialized_agent_sends_nothing E endpoint (st : Agent.State)
        (io : IO E) :
  Agent.initialized st = false ->
  (forall query category max_results add_context,
      Agent.search_tools endpoint query category max_results add_context st io
      = (st, io, Raise (MCPError (-1) "Must call initialize() first")))
  /\ (forall name arguments,
         Agent.call_tool endpoint name arguments st io
         = (st, io, Raise (MCPError (-1) "Must call initialize() first")))
  /\ Agent.list_all_tools endpoint st io
     = (st, io, Raise (MCPError (-1) "Must call initialize() first")).
Proof.
  intros H. unfold Agent.search_tools, Agent.call_tool, Agent.list_all_tools.
  rewrite H. simpl. repeat split.
Qed.

Lemma uninitialized_agent_sends_nothing_witness :
  Agent.list_all_tools "http://localhost:8080/mcp" Agent.init io_offline
  = (Agent.init, io_offline,
     Raise (MCPError (-1) "Must call initialize() first")).
Proof.
  apply (proj2 (proj2 (uninitialized_agent_sends_nothing env_offline
                         "http://localhost:8080/mcp" Agent.init io_offline
                         eq_refl))).
Defined.

(** X19.  On an initialized agent [search_tools] sends one [tools/call]
    request under the next id.  When it returns a list of tools, the context
    afterwards is the context before with exactly that list merged into it,
    or the context before when [add_to_context] is off.  When it raises an
    exception other than [AttributeError] and [TypeError], which reading a
    result of the wrong form raises, the exception is the one of the request
    and nothing has been merged. *)
Theorem search_tools_merges_what_it_returns E endpoint query category
        max_results add_context (st : Agent.State) (io : IO E) :
  Agent.initialized st = true ->
  let r := Agent.search_tools endpoint query category max_results add_context
             st io in
  (exists params,
      trace (snd (fst r))
      = trace io ++ [EvMcp {| rq_id := Agent.request_id st + 1;
                              rq_method := "tools/call";
                              rq_params := params |}])
  /\ Agent.request_id (fst (fst r)) = (Agent.request_id st + 1)%Z
  /\ (forall tools,
         snd r = Ok tools ->
         Agent.discovered_tools (fst (fst r))
         = if add_context
           then Agent.add_to_context tools (Agent.discovered_tools st)
           else Agent.discovered_tools st)
  /\ (forall e,
         snd r = Raise e -> e <> AttributeError -> e <> TypeError ->
         Agent.discovered_tools (fst (fst r)) = Agent.discovered_tools st).
Proof.
  intros Hinit r. subst r. unfold Agent.search_tools. rewrite Hinit. simpl.
  match goal with
  | |- context [Agent._send_request endpoint ?m ?p st io] =>
      destruct (send_request_effect E endpoint m p st io) as [Hst Ht];
      destruct (Agent._send_request endpoint m p st io)
        as [[st' io'] [[res|nd]|e]]
  end; simpl in *; subst st'; simpl.
  - split; [eexists; exact Ht|]. split.
    + destruct add_context; [|reflexivity].
      destruct (Agent.parse_blocks E _ []); reflexivity.
    + split; [|discriminate].
      intros tools Htools. injection Htools as <-.
      destruct add_context; [|reflexivity].
      destruct (Agent.parse_blocks E _ []); reflexivity.
  - split; [eexists; exact Ht|]. split; [reflexivity|].
    split; [discriminate|]. intros e He. reflexivity.
  - split; [eexists; exact Ht|]. split; [reflexivity|].
    split; [discriminate|]. intros e' He'. reflexivity.
Qed.

(** A search that finds the calculator, on an initialized agent. *)
Lemma search_tools_merges_what_it_returns_witness :
  Agent.discovered_tools
    (fst (fst (Agent.search_tools (E := env_discover_then_reject)
                 "http://localhost:8080/mcp" "math" None 5 true
                 agent_ready (@mkIO env_discover_then_reject 0%nat []))))
  = [("calculator", tool_named "calculator")].
Proof.
  exact (proj1 (proj2 (proj2
           (search_tools_merges_what_it_returns env_discover_then_reject
              "http://localhost:8080/mcp" "math" None 5 true
              agent_ready (@mkIO env_discover_then_reject 0%nat []) eq_refl)))
           [tool_named "calculator"] eq_refl).
Defined.

(** X20.  [ping] answers [True] exactly when the gateway returns, under a
    status that is not an error, a body that is a dictionary without an
    error member that is true; what the result is does not matter.  It
    answers [False] exactly when the request fails to connect or times out,
    when the status is an error, or when the error member is a dictionary.
    It never raises [MCPError]; every other reply makes it raise.  Each
    ping uses one request id. *)
Theorem ping_answers E endpoint (st : Agent.State) (io : IO E) :
  let reply := snd (mcp_post E (world io)
                      {| rq_id := Agent.request_id st + 1;
                         rq_method := "ping"; rq_params := None |}) in
  let r := Agent.ping endpoint st io in
  (snd r = Ok true
   <-> exists status body,
       reply = ReplyStatus status (Loaded (Dict body))
       /\ raises_for_status status = false /\ rb_error body = None)
  /\ (snd r = Ok false
      <-> reply = ReplyConnectionError
          \/ reply = ReplyTimeout
          \/ (exists status body,
                 reply = ReplyStatus status body
                 /\ raises_for_status status = true)
          \/ (exists status body error,
                 reply = ReplyStatus status (Loaded (Dict body))
                 /\ raises_for_status status = false
                 /\ rb_error body = Some (Dict error)))
  /\ (forall code message, snd r <> Raise (MCPError code message))
  /\ Agent.request_id (fst (fst r)) = (Agent.request_id st + 1)%Z.
Proof.
  intros reply r. subst reply r.
  assert (Hid : Agent.request_id (fst (fst (Agent.ping endpoint st io)))
                = (Agent.request_id st + 1)%Z).
  { unfold Agent.ping.
    destruct (send_request_effect E endpoint "ping" None st io) as [Hst _].
    destruct (Agent._send_request endpoint "ping" None st io)
      as [[st' io'] [res|ex]]; simpl in *; subst st'; [reflexivity|].
    destruct ex; reflexivity. }
  revert Hid.
  unfold Agent.ping, Agent._send_request, Agent._next_id, post_mcp,
    read_non_dict, loads_exn. simpl.
  destruct (mcp_post E (world io) _) as [w reply]. simpl. intros Hid.
  split; [|split; [|split; [|exact Hid]]]; clear Hid.
  - split.
    + intros H. destruct reply as [| |ex|status body]; simpl in H;
        try discriminate H.
      destruct (raises_for_status status) eqn:Hs; simpl in H;
        [discriminate H|].
      destruct body as [[b|nd]| |le]; simpl in H.
      * destruct (rb_error b) as [[err|nd]|] eqn:He; simpl in H;
          try discriminate H.
        now exists status, b.
      * destruct (has_member "error" nd) as [[|]|]; discriminate H.
      * discriminate H.
      * destruct le; discriminate H.
    + intros [status [body [-> [Hs He]]]]. simpl. rewrite Hs, He. reflexivity.
  - split.
    + intros H. destruct reply as [| |ex|status body]; simpl in H;
        try discriminate H; auto.
      destruct (raises_for_status status) eqn:Hs; simpl in H.
      * right. right. left. now exists status, body.
      * destruct body as [[b|nd]| |le]; simpl in H.
        -- destruct (rb_error b) as [[err|nd]|] eqn:He; simpl in H;
             try discriminate H.
           right. right. right. now exists status, b, err.
        -- destruct (has_member "error" nd) as [[|]|]; discriminate H.
        -- discriminate H.
        -- destruct le; discriminate H.
    + intros [->|[->|[[status [body [-> Hs]]]
                     |[status [body [err [-> [Hs He]]]]]]]]; simpl;
        try reflexivity.
      * now rewrite Hs.
      * now rewrite Hs, He.
  - intros code message. repeat break_match; simpl; discriminate.
Qed.

(** A gateway that cannot be reached, and one whose answer has a result. *)
Lemma ping_answers_witness :
  snd (Agent.ping (E := env_offline) "http://localhost:8080/mcp" agent_ready
         io_offline) = Ok false
  /\ snd (Agent.ping (E := env_null_result) "http://localhost:8080/mcp"
            agent_ready (@mkIO env_null_result 0%nat [])) = Ok true.
Proof.
  split.
  - apply (proj2 (proj1 (proj2 (ping_answers env_offline
                                  "http://localhost:8080/mcp" agent_ready
                                  io_offline)))).
    left. reflexivity.
  - apply (proj2 (proj1 (ping_answers env_null_result
                           "http://localhost:8080/mcp" agent_ready
                           (@mkIO env_null_result 0%nat [])))).
    eexists _, _. repeat split.
Defined.

(* ================================================================== *)
(** * Further properties of the bridge *)

Section BridgeRun.
Variable E : Env.
Variable endpoint : string.

Lemma bridge_requests_app tr tr' :
  bridge_requests (tr ++ tr') = bridge_requests tr ++ bridge_requests tr'.
Proof.
  induction tr as [|ev tr IH]; simpl; [reflexivity|].
  destruct ev; simpl; now rewrite IH.
Qed.

Lemma bridge_requests_map reqs : bridge_requests (map EvBridge reqs) = reqs.
Proof. induction reqs as [|r reqs IH]; simpl; [reflexivity|now rewrite IH]. Qed.

(** A request that is an object goes out in one HTTP request. *)
Lemma forward_request_trace members (io : IO E) :
  trace (fst (Bridge.forward_request endpoint (JObj members) io))
  = trace io ++ [EvBridge (JObj members)].
Proof.
  unfold Bridge.forward_request, post_bridge.
  destruct (bridge_post E (world io) (JObj members)) as [w reply].
  destruct reply as [| |ex|status body]; simpl; try reflexivity.
  destruct (status =? 401)%Z; [reflexivity|].
  destruct (status =? 404)%Z; [reflexivity|].
  destruct (raises_for_status status); [reflexivity|].
  destruct body; reflexivity.
Qed.

(** It is answered when the gateway is quiet. *)
Lemma forward_request_object members (io : IO E) :
  quiet_reply (snd (bridge_post E (world io) (JObj members))) = true ->
  exists response,
    snd (Bridge.forward_request endpoint (JObj members) io) = Ok response.
Proof.
  unfold Bridge.forward_request, post_bridge.
  destruct (bridge_post E (world io) (JObj members)) as [w reply]. simpl.
  intros Hq.
  destruct reply as [| |ex|status body]; simpl; try (eexists; reflexivity);
    [discriminate Hq|].
  destruct (status =? 401)%Z; [eexists; reflexivity|].
  destruct (status =? 404)%Z; [eexists; reflexivity|].
  destruct (raises_for_status status); [eexists; reflexivity|].
  destruct body; try (eexists; reflexivity). discriminate Hq.
Qed.

(** The loop on a list of lines followed by another: the second list is
    read when no exception has ended the loop on the first. *)
Lemma run_app pre : forall rest (io : IO E) out,
  Bridge.run endpoint (pre ++ rest) io out
  = match Bridge.run endpoint pre io out with
    | (io', out', None) => Bridge.run endpoint rest io' out'
    | (io', out', Some e) => (io', out', Some e)
    end.
Proof.
  induction pre as [|line pre IH]; intros rest io out; [reflexivity|].
  simpl app. cbn [Bridge.run].
  destruct (strip line =? ""); [apply IH|].
  destruct (json_loads E (strip line)) as [request| |le];
    [|apply IH|reflexivity].
  destruct (Bridge.forward_request endpoint request io) as [io1 [response|e]];
    [apply IH|reflexivity].
Qed.

(** What [run] does with a run of harmless lines, whatever follows. *)
Lemma run_harmless_prefix pre : forall (io : IO E),
  quiet_gateway E ->
  Forall (harmless_line E) pre ->
  exists io' responses,
    List.length responses = List.length (printing_lines pre)
    /\ trace io' = trace io ++ map EvBridge (forwarded_requests E pre)
    /\ forall rest out,
        Bridge.run endpoint (pre ++ rest) io out
        = Bridge.run endpoint rest io' (out ++ responses).
Proof.
  induction pre as [|line pre IH]; intros io Hq H.
  - exists io, []. simpl. rewrite app_nil_r. repeat split.
    intros rest out. now rewrite app_nil_r.
  - inversion H as [|? ? Hline Hpre]; subst.
    unfold printing_lines. cbn [filter forwarded_requests].
    destruct (blank_line line) eqn:Hb.
    + destruct (IH io Hq Hpre) as [io' [responses [Hlen [Ht Hrun]]]].
      exists io', responses. repeat split; [exact Hlen|exact Ht|].
      intros rest out. simpl app. rewrite run_blank by exact Hb. apply Hrun.
    + destruct Hline as [Hblank|[Hnone|[members Hobj]]]; [congruence| |].
      * destruct (IH io Hq Hpre) as [io' [responses [Hlen [Ht Hrun]]]].
        exists io', (parse_error_envelope :: responses). rewrite Hnone.
        repeat split; [simpl; now rewrite Hlen|exact Ht|].
        intros rest out. simpl app.
        rewrite run_parse_error by assumption. rewrite Hrun.
        now rewrite <- app_assoc.
      * destruct (forward_request_object members io (Hq _ _)) as [resp Hr].
        pose proof (forward_request_trace members io) as Htr.
        destruct (Bridge.forward_request endpoint (JObj members) io)
          as [io1 r] eqn:Hfw. simpl in Hr, Htr. subst r.
        destruct (IH io1 Hq Hpre) as [io' [responses [Hlen [Ht Hrun]]]].
        exists io', (resp :: responses). rewrite Hobj.
        repeat split; [simpl; now rewrite Hlen| |].
        -- rewrite Ht, Htr, <- app_assoc. reflexivity.
        -- intros rest out. simpl app. unfold blank_line in Hb.
           cbn [Bridge.run]. rewrite Hb, Hobj, Hfw, Hrun.
           now rewrite <- app_assoc.
Qed.
End BridgeRun.

(** X21.  When the gateway is quiet ([requests.post] raises nothing but
    [ConnectionError] and [Timeout], [response.json()] nothing but
    [JSONDecodeError]) and every line is blank, rejected by [json.loads]
    with [JSONDecodeError], or decodes to an object, the bridge loop ends
    normally: it prints exactly one response for each line that is not
    blank, and it forwards to the gateway exactly the decoded objects, in
    the order of the lines. *)
Theorem bridge_answers_every_line E endpoint lines (io : IO E) out :
  quiet_gateway E ->
  Forall (harmless_line E) lines ->
  exists io' responses,
    Bridge.run endpoint lines io out = (io', out ++ responses, None)
    /\ List.length responses = List.length (printing_lines lines)
    /\ bridge_requests (trace io')
       = bridge_requests (trace io) ++ forwarded_requests E lines.
Proof.
  intros Hq H.
  destruct (run_harmless_prefix E endpoint lines io Hq H)
    as [io' [responses [Hlen [Ht Hrun]]]].
  exists io', responses. split; [|split; [exact Hlen|]].
  - rewrite <- (app_nil_r lines). rewrite Hrun. reflexivity.
  - now rewrite Ht, bridge_requests_app, bridge_requests_map.
Qed.

(** A blank line, a line that is not JSON and a request that the gateway,
    out of reach, does not get: two responses, the second with the code of
    the connection failure. *)
Lemma bridge_answers_every_line_witness :
  quiet_gateway env_number_line
  /\ Bridge.run (E := env_number_line) "http://localhost:8080/mcp"
       ["  "; "{oops"; "{}"] io_number_line []
     = (@mkIO env_number_line 1%nat [EvBridge (JObj [])],
        [parse_error_envelope;
         Bridge._error_response JNull (-32003)
           "Failed to connect to ModelGate at http://localhost:8080/mcp"],
        None)
  /\ exists io' responses,
      Bridge.run (E := env_number_line) "http://localhost:8080/mcp"
        ["  "; "{oops"; "{}"] io_number_line []
      = (io', [] ++ responses, None)
      /\ List.length responses
         = List.length (printing_lines ["  "; "{oops"; "{}"])
      /\ bridge_requests (trace io')
         = bridge_requests (trace io_number_line)
           ++ forwarded_requests env_number_line ["  "; "{oops"; "{}"].
Proof.
  assert (Hq : quiet_gateway env_number_line) by (intros w request; reflexivity).
  split; [exact Hq|]. split; [reflexivity|].
  apply (bridge_answers_every_line env_number_line "http://localhost:8080/mcp"
           ["  "; "{oops"; "{}"] io_number_line [] Hq).
  constructor; [left; reflexivity|].
  constructor; [right; left; reflexivity|].
  constructor; [right; right; now exists []|constructor].
Defined.

(** X22.  A line that decodes to JSON that is not an object (a number, a
    string, a list) ends the bridge loop with [AttributeError]: nothing is
    printed for it, nothing is sent for it, and the lines after it are
    never read.  What the lines before it produced stays: after any lines,
    the loop ends as it would after those lines alone, with
    [AttributeError] when they did not end it themselves; after harmless
    lines and with a quiet gateway it ends with [AttributeError], the
    responses for those lines and the requests of those lines. *)
Theorem bridge_stops_at_non_object E endpoint pre line rest (io : IO E) out v :
  blank_line line = false ->
  json_loads E (strip line) = Loaded v ->
  is_object v = false ->
  Bridge.run endpoint (line :: rest) io out = (io, out, Some AttributeError)
  /\ Bridge.run endpoint (pre ++ line :: rest) io out
     = match Bridge.run endpoint pre io out with
       | (io', out', None) => (io', out', Some AttributeError)
       | (io', out', Some e) => (io', out', Some e)
       end
  /\ (quiet_gateway E ->
      Forall (harmless_line E) pre ->
      exists io' responses,
        Bridge.run endpoint (pre ++ line :: rest) io out
        = (io', out ++ responses, Some AttributeError)
        /\ List.length responses = List.length (printing_lines pre)
        /\ trace io' = trace io ++ map EvBridge (forwarded_requests E pre)).
Proof.
  intros Hb Hv Hobj. split; [|split].
  - now apply run_not_object with v.
  - rewrite run_app.
    destruct (Bridge.run endpoint pre io out) as [[io' out'] [e|]];
      [reflexivity|].
    now apply run_not_object with v.
  - intros Hq Hpre.
    destruct (run_harmless_prefix E endpoint pre io Hq Hpre)
      as [io' [responses [Hlen [Ht Hrun]]]].
    exists io', responses. split; [|split; assumption].
    rewrite Hrun. now apply run_not_object with v.
Qed.

Lemma bridge_stops_at_non_object_witness :
  exists io' responses,
    Bridge.run (E := env_number_line) "http://localhost:8080/mcp"
      (["{oops"] ++ "5" :: ["never read"]) io_number_line []
    = (io', [] ++ responses, Some AttributeError)
    /\ List.length responses = List.length (printing_lines ["{oops"])
    /\ trace io'
       = trace io_number_line
         ++ map EvBridge (forwarded_requests env_number_line ["{oops"]).
Proof.
  apply (proj2 (proj2 (bridge_stops_at_non_object env_number_line
                         "http://localhost:8080/mcp"
                         ["{oops"] "5" ["never read"] io_number_line []
                         (JNum 5) eq_refl eq_refl eq_refl))).
  - intros w request. reflexivity.
  - constructor; [right; left; reflexivity|constructor].
Defined.

(** X23.  How the bridge program ends.  Without an API key (the variable
    unset or empty) it prints one error envelope with code -32000 and id
    null and exits with status 1, without reading a line or sending a
    request.  With a key, a quiet gateway and harmless lines it prints one
    response per line that is not blank and returns.  With a key, a quiet
    gateway and a line that decodes to something that is not an object, it
    prints the responses of the lines before it, then one error envelope
    with code -32603 and id null, and exits with status 1.  With a key,
    when [requests.post] raises another exception on the request of the
    first line (a URL without a scheme raises [InvalidSchema]), or when
    [json.loads] raises one on the first line, the program prints one
    envelope and exits with status 1: code -32000 and the text of the
    exception when it is a [ValueError], code -32603 otherwise. *)
Theorem bridge_main_outcomes E str_exception url key lines (io : IO E) :
  ((key = None \/ key = Some "") ->
   Bridge.main str_exception url key lines io
   = (io,
      [Bridge._error_response JNull (-32000)
         "MODELGATE_API_KEY environment variable is required"],
      Bridge.Exited 1))
  /\ (forall k,
         key = Some k -> k <> "" ->
         quiet_gateway E ->
         Forall (harmless_line E) lines ->
         exists io' responses,
           Bridge.main str_exception url key lines io
           = (io', responses, Bridge.Returned)
           /\ List.length responses = List.length (printing_lines lines))
  /\ (forall k pre line rest v,
         key = Some k -> k <> "" ->
         lines = pre ++ line :: rest ->
         quiet_gateway E ->
         Forall (harmless_line E) pre ->
         blank_line line = false ->
         json_loads E (strip line) = Loaded v ->
         is_object v = false ->
         exists io' responses,
           Bridge.main str_exception url key lines io
           = (io',
              responses
              ++ [Bridge._error_response JNull (-32603)
                    ("Internal error: " ++ str_exception AttributeError)%string],
              Bridge.Exited 1)
           /\ List.length responses = List.length (printing_lines pre))
  /\ (forall k line rest members e,
         key = Some k -> k <> "" ->
         lines = line :: rest ->
         blank_line line = false ->
         json_loads E (strip line) = Loaded (JObj members) ->
         snd (bridge_post E (world io) (JObj members)) = ReplyException e ->
         exists io',
           Bridge.main str_exception url key lines io
           = (io', [exception_envelope str_exception (RequestException e)],
              Bridge.Exited 1)
           /\ trace io' = trace io ++ [EvBridge (JObj members)])
  /\ (forall k line rest e,
         key = Some k -> k <> "" ->
         lines = line :: rest ->
         blank_line line = false ->
         json_loads E (strip line) = LoadsRaises e ->
         Bridge.main str_exception url key lines io
         = (io, [exception_envelope str_exception (loads_exn e)],
            Bridge.Exited 1)).
Proof.
  split; [|split; [|split; [|split]]].
  - intros [->| ->]; reflexivity.
  - intros k -> Hk Hq H. unfold Bridge.main, Bridge.new_bridge. simpl.
    apply String.eqb_neq in Hk. rewrite Hk.
    destruct (run_harmless_prefix E
                (mcp_endpoint (or_default "http://localhost:8080" url))
                lines io Hq H) as [io' [responses [Hlen [_ Hrun]]]].
    pose proof (Hrun [] []) as Hr. rewrite app_nil_r in Hr. rewrite Hr.
    simpl. now exists io', responses.
  - intros k pre line rest v -> Hk -> Hq Hpre Hb Hv Hobj.
    unfold Bridge.main, Bridge.new_bridge. simpl.
    apply String.eqb_neq in Hk. rewrite Hk.
    destruct (run_harmless_prefix E
                (mcp_endpoint (or_default "http://localhost:8080" url))
                pre io Hq Hpre) as [io' [responses [Hlen [_ Hrun]]]].
    rewrite Hrun, (run_not_object E _ line rest io' _ v Hb Hv Hobj). simpl.
    now exists io', responses.
  - intros k line rest members e -> Hk -> Hb Hv Hreply.
    unfold Bridge.main, Bridge.new_bridge. simpl.
    apply String.eqb_neq in Hk. rewrite Hk.
    unfold blank_line in Hb. rewrite Hb, Hv.
    unfold Bridge.forward_request, post_bridge.
    destruct (bridge_post E (world io) (JObj members)) as [w reply].
    simpl in Hreply. subst reply. simpl.
    exists {| world := w; trace := trace io ++ [EvBridge (JObj members)] |}.
    split; [|reflexivity]. unfold exception_envelope.
    destruct e; reflexivity.
  - intros k line rest e -> Hk -> Hb Hv.
    unfold Bridge.main, Bridge.new_bridge. simpl.
    apply String.eqb_neq in Hk. rewrite Hk.
    unfold blank_line in Hb. rewrite Hb, Hv. unfold exception_envelope.
    destruct e; reflexivity.
Qed.

(** No key; a number line after a line that is not JSON; and a base URL
    without a scheme, for which [requests.post] raises [InvalidSchema]. *)
Lemma bridge_main_outcomes_witness :
  Bridge.main (E := env_number_line) exception_text None (Some "")
    ["5"] io_number_line
  = (io_number_line,
     [Bridge._error_response JNull (-32000)
        "MODELGATE_API_KEY environment variable is required"],
     Bridge.Exited 1)
  /\ (exists io' responses,
         Bridge.main (E := env_number_line) exception_text None (Some "secret")
           (["{oops"] ++ "5" :: ["never read"]) io_number_line
         = (io',
            responses
            ++ [Bridge._error_response JNull (-32603)
                  ("Internal error: " ++ exception_text AttributeError)%string],
            Bridge.Exited 1)
         /\ List.length responses = List.length (printing_lines ["{oops"]))
  /\ exists io',
      Bridge.main (E := env_no_scheme) exception_text (Some "localhost:8080")
        (Some "secret") ["{}"; "never read"] (@mkIO env_no_scheme 0%nat [])
      = (io',
         [Bridge._error_response JNull (-32000)
            "No connection adapters were found for 'localhost:8080/mcp'"],
         Bridge.Exited 1)
      /\ trace io' = [EvBridge (JObj [])].
Proof.
  split; [|split].
  - apply (proj1 (bridge_main_outcomes env_number_line exception_text None
                    (Some "") ["5"] io_number_line)).
    right. reflexivity.
  - apply (proj1 (proj2 (proj2 (bridge_main_outcomes env_number_line
                                  exception_text None (Some "secret")
                                  (["{oops"] ++ "5" :: ["never read"])
                                  io_number_line)))
             "secret" ["{oops"] "5" ["never read"] (JNum 5)).
    + reflexivity.
    + discriminate.
    + reflexivity.
    + intros w request. reflexivity.
    + constructor; [right; left; reflexivity|constructor].
    + reflexivity.
    + reflexivity.
    + reflexivity.
  - apply (proj1 (proj2 (proj2 (proj2 (bridge_main_outcomes env_no_scheme
                                         exception_text (Some "localhost:8080")
                                         (Some "secret") ["{}"; "never read"]
                                         (@mkIO env_no_scheme 0%nat [])))))
             "secret" "{}" ["never read"] [] InvalidSchema).
    + reflexivity.
    + discriminate.
    + reflexivity.
    + reflexivity.
    + reflexivity.
    + reflexivity.
Defined.

(** ** The endpoint and the lines *)

Section Strings.

Lemma rstrip_char_snoc c s :
  rstrip_char c (s ++ String c EmptyString)%string = rstrip_char c s.
Proof.
  induction s as [|a s IH]; simpl.
  - now rewrite Ascii.eqb_refl.
  - now rewrite IH.
Qed.

Lemma rstrip_char_no_end c s : ends_with_char c (rstrip_char c s) = false.
Proof.
  induction s as [|a s IH]; simpl; [reflexivity|].
  destruct (rstrip_char c s) as [|b t] eqn:Hr.
  - destruct (Ascii.eqb a c) eqn:Ha; simpl; [reflexivity|exact Ha].
  - simpl in *. exact IH.
Qed.

Lemma rstrip_char_fixed c s :
  ends_with_char c s = false -> rstrip_char c s = s.
Proof.
  induction s as [|a s IH]; simpl; [reflexivity|].
  destruct s as [|b t].
  - intros Ha. simpl. now rewrite Ha.
  - intros H. rewrite (IH H). reflexivity.
Qed.

Lemma lstrip_head s :
  lstrip s = EmptyString
  \/ exists c r, lstrip s = String c r /\ is_space c = false.
Proof.
  induction s as [|a s IH]; simpl; [now left|].
  destruct (is_space a) eqn:Ha; [exact IH|].
  right. now exists a, s.
Qed.

Lemma rstrip_head c r :
  is_space c = false -> rstrip (String c r) = String c (rstrip r).
Proof.
  intros Hc. simpl. destruct (rstrip r); [now rewrite Hc|reflexivity].
Qed.

Lemma rstrip_cons a s :
  rstrip (String a s)
  = match rstrip s with
    | EmptyString => if is_space a then EmptyString else String a EmptyString
    | String b t => String a (String b t)
    end.
Proof. reflexivity. Qed.

Lemma rstrip_idempotent s : rstrip (rstrip s) = rstrip s.
Proof.
  induction s as [|a s IH]; [reflexivity|].
  rewrite rstrip_cons. destruct (rstrip s) as [|b t] eqn:Hr.
  - destruct (is_space a) eqn:Ha; [reflexivity|].
    rewrite rstrip_cons. simpl. now rewrite Ha.
  - rewrite rstrip_cons, IH. reflexivity.
Qed.

Lemma strip_idempotent s : strip (strip s) = strip s.
Proof.
  unfold strip. destruct (lstrip_head s) as [H|[c [r [H Hc]]]]; rewrite H.
  - reflexivity.
  - rewrite (rstrip_head c r Hc). simpl lstrip. rewrite Hc.
    rewrite <- (rstrip_head c r Hc). apply rstrip_idempotent.
Qed.
End Strings.

(** X24.  The endpoint that the clients and the bridge build from the base
    URL does not depend on trailing slashes of the URL: it is the URL
    without them followed by [/mcp], so a URL without a trailing slash just
    gets [/mcp] appended and the endpoint never has two slashes before
    [mcp]. *)
Theorem endpoint_ignores_trailing_slash url :
  mcp_endpoint (url ++ "/")%string = mcp_endpoint url
  /\ (ends_with_char "/"%char url = false ->
      mcp_endpoint url = (url ++ "/mcp")%string)
  /\ ends_with_char "/"%char (rstrip_char "/"%char url) = false
  /\ (forall key,
         Bridge.new_bridge (Some (url ++ "/")%string) key
         = Bridge.new_bridge (Some url) key).
Proof.
  unfold mcp_endpoint. split; [|split; [|split]].
  - now rewrite rstrip_char_snoc.
  - intros H. now rewrite rstrip_char_fixed.
  - apply rstrip_char_no_end.
  - intros key. unfold Bridge.new_bridge, mcp_endpoint. simpl.
    now rewrite rstrip_char_snoc.
Qed.

Lemma endpoint_ignores_trailing_slash_witness :
  mcp_endpoint "http://localhost:8080" = "http://localhost:8080/mcp".
Proof.
  apply (proj1 (proj2 (endpoint_ignores_trailing_slash "http://localhost:8080"))).
  reflexivity.
Defined.

(** X25.  White space around a line of input does not matter to the
    bridge: the loop does with a line exactly what it does with the line
    stripped. *)
Theorem bridge_ignores_surrounding_space E endpoint line rest (io : IO E) out :
  Bridge.run endpoint (line :: rest) io out
  = Bridge.run endpoint (strip line :: rest) io out.
Proof.
  cbn [Bridge.run]. now rewrite strip_idempotent.
Qed.
